(** * Smart-Emergency-Response-Predictor: the geospatial resolution engine

    A shallow embedding of [src/api/routing_api.py], [src/api/weather_api.py]
    and of the geocoding client that [src/create_geocoding.py] writes out,
    with the properties of the specification stated and proved over it.

    Python's [int] is [Z].  Python's [float] is an abstract number type
    [F] with the operations the code uses ([PyFloat]); it has two
    instances: exact rationals ([Q], the arithmetic the specification
    reasons in) and IEEE binary64 ([PrimFloat.float], the arithmetic
    CPython runs).  Dictionaries with a fixed set of keys are records,
    a key that may be absent is an [option] field. *)

From Stdlib Require Import ZArith QArith Qround Qabs List String Ascii Bool Lia Lqa.
From Stdlib Require Import PrimFloat FloatOps SpecFloat DecimalString.
Import ListNotations.

Local Open Scope Z_scope.

(** ** Numbers *)

Class PyFloat (F : Type) : Type := {
  fadd : F -> F -> F;
  fsub : F -> F -> F;
  fmul : F -> F -> F;
  fdiv : F -> F -> F;
  (** [float(n)] for an [int] [n] *)
  of_int : Z -> F;
  (** [x == y] and [x < y] *)
  feqb : F -> F -> bool;
  fltb : F -> F -> bool;
  (** [x < float('inf')] *)
  flt_inf : F -> bool
}.

Declare Scope py_scope.
Delimit Scope py_scope with py.
Infix "+" := fadd : py_scope.
Infix "-" := fsub : py_scope.
Infix "*" := fmul : py_scope.
Infix "/" := fdiv : py_scope.

(** A decimal literal [m * 10^-k]: [lit 13 1] is [1.3], [lit 1 3] is
    [0.001].  In binary64 the quotient of two exactly represented
    integers is correctly rounded, which is how the literal is read. *)
Definition lit {F} `{PyFloat F} (m : Z) (k : nat) : F :=
  fdiv (of_int m) (of_int (10 ^ Z.of_nat k)).

(** Exact arithmetic. *)
#[export] Instance Q_float : PyFloat Q := {|
  fadd := Qplus;
  fsub := Qminus;
  fmul := Qmult;
  fdiv := Qdiv;
  of_int := inject_Z;
  feqb := Qeq_bool;
  fltb := fun x y => negb (Qle_bool y x);
  flt_inf := fun _ => true
|}.

(** IEEE binary64.  [float(n)] rounds the integer to nearest-even. *)
Definition float_of_Z (n : Z) : float :=
  SF2Prim (binary_normalize prec emax n 0 false).

#[export] Instance binary64 : PyFloat float := {|
  fadd := PrimFloat.add;
  fsub := PrimFloat.sub;
  fmul := PrimFloat.mul;
  fdiv := PrimFloat.div;
  of_int := float_of_Z;
  feqb := PrimFloat.eqb;
  fltb := PrimFloat.ltb;
  flt_inf := fun x => PrimFloat.ltb x infinity
|}.

(** ** GeometryKernel: the polyline codec

    A string is a list of 8-bit characters; the encoded polylines of the
    format use the codes 63 to 126. *)

Definition ord (c : ascii) : Z := Z.of_N (N_of_ascii c).

(** The inner [while True] loop of [_decode_polyline]: reads 5-bit groups
    from [s] (the string from [index] on) until a character below 0x20
    after the offset.  [None] is the [IndexError] of reading past the end. *)
Fixpoint read_chunks (s : list ascii) (shift result : Z) : option (Z * list ascii) :=
  match s with
  | [] => None
  | c :: rest =>
      let b := ord c - 63 in
      let result := Z.lor result (Z.shiftl (Z.land b 31) shift) in
      let shift := shift + 5 in
      if b <? 32 then Some (result, rest) else read_chunks rest shift result
  end.

(** [~(result >> 1) if result & 1 else result >> 1] *)
Definition unzigzag (result : Z) : Z :=
  if Z.eqb (Z.land result 1) 0 then Z.shiftr result 1
  else Z.lnot (Z.shiftr result 1).

Section Polyline.
Context {F : Type} `{PyFloat F}.

(** The outer [while index < len(polyline_str)] loop; every iteration
    consumes at least two characters, [fuel] bounds the iterations. *)
Fixpoint decode_loop (fuel : nat) (s : list ascii) (lat lng : Z)
  : option (list (F * F)) :=
  match s with
  | [] => Some []
  | _ :: _ =>
      match fuel with
      | O => None
      | S fuel =>
          match read_chunks s 0 0 with
          | None => None
          | Some (result, s1) =>
              let lat := lat + unzigzag result in
              match read_chunks s1 0 0 with
              | None => None
              | Some (result, s2) =>
                  let lng := lng + unzigzag result in
                  match decode_loop fuel s2 lat lng with
                  | None => None
                  | Some coordinates =>
                      Some ((of_int lat / of_int 100000,
                             of_int lng / of_int 100000)%py :: coordinates)
                  end
              end
          end
      end
  end.

Definition _decode_polyline (polyline_str : string) : option (list (F * F)) :=
  let s := list_ascii_of_string polyline_str in
  decode_loop (List.length s) s 0 0.
End Polyline.


(** *** The published encoder

    The Encoded Polyline Algorithm Format as it is published: a value is
    scaled by 1e5 and rounded, taken as an offset from the previous point,
    shifted left one bit, inverted when negative, cut into 5-bit groups
    from the low end, every group but the last is or-ed with 0x20, and 63
    is added to each.  It is the reference the decoder is compared with;
    the repository has no encoder of its own. *)

Definition chr (n : Z) : ascii := ascii_of_N (Z.to_N n).

Definition zigzag (d : Z) : Z :=
  if d <? 0 then Z.lnot (Z.shiftl d 1) else Z.shiftl d 1.

Fixpoint encode_chunks (fuel : nat) (v : Z) : list ascii :=
  match fuel with
  | O => [chr (v + 63)]
  | S fuel =>
      if v <? 32 then [chr (v + 63)]
      else chr (Z.lor 32 (Z.land v 31) + 63) :: encode_chunks fuel (Z.shiftr v 5)
  end.

Definition encode_value (d : Z) : list ascii :=
  let v := zigzag d in encode_chunks (Z.to_nat (Z.log2 v)) v.

Fixpoint encode_from (prev_lat prev_lng : Z) (pts : list (Z * Z)) : list ascii :=
  match pts with
  | [] => []
  | (lat, lng) :: rest =>
      encode_value (lat - prev_lat) ++ encode_value (lng - prev_lng)
        ++ encode_from lat lng rest
  end.

(** [round(x * 1e5)], to the nearest integer. *)
Definition e5 (x : Q) : Z := Qfloor (x * 100000 + (1 # 2)).

Definition encode_polyline (coords : list (Q * Q)) : string :=
  string_of_list_ascii
    (encode_from 0 0 (map (fun p => (e5 (fst p), e5 (snd p))) coords)).

(** ** Python's builtins and library modules

    [round], [int], [abs] and [float] on numbers; the [math] module; the
    global generator of the [random] module.  None of them is code of the
    repository.  [round] and [int] are defined for exact arithmetic; the
    transcendental functions and the generator stay parameters.
    [math.sqrt] raises [ValueError] on a negative argument ([None]). *)

Class PyBuiltins (F : Type) : Type := {
  (** [round(x, ndigits)], half to even *)
  py_round : F -> nat -> F;
  (** [int(x)], towards zero *)
  py_int : F -> Z;
  py_abs : F -> F
}.

Definition Qtrunc (x : Q) : Z := Z.quot (Qnum x) (Zpos (Qden x)).

Definition round_half_even (x : Q) : Z :=
  let f := Qfloor x in
  match Qcompare (x - inject_Z f) (1 # 2) with
  | Lt => f
  | Gt => f + 1
  | Eq => if Z.even f then f else f + 1
  end.

Definition Qround_digits (x : Q) (ndigits : nat) : Q :=
  let scale := inject_Z (10 ^ Z.of_nat ndigits) in
  (inject_Z (round_half_even (x * scale)) / scale)%Q.

#[export] Instance Q_builtins : PyBuiltins Q := {|
  py_round := Qround_digits;
  py_int := Qtrunc;
  py_abs := Qabs
|}.

(** The same for binary64.  The value of a finite float is an exact
    rational; [round] rounds it to the decimal with [ndigits] places,
    half to even, and returns the float nearest to that decimal (the
    quotient of two exactly represented integers is correctly rounded);
    a float too large to have a fraction is returned as it is.  [int]
    and [round] on an infinity or a not-a-number, which no finite
    coordinate leads to, are not modelled. *)
Definition float_value (x : float) : Q :=
  match Prim2SF x with
  | S754_finite negative m e =>
      let v := (inject_Z (Zpos m) * Qpower 2 e)%Q in
      if negative then (- v)%Q else v
  | _ => 0%Q
  end.

Definition float_round (x : float) (ndigits : nat) : float :=
  match Prim2SF x with
  | S754_finite _ _ _ =>
      let scale := 10 ^ Z.of_nat ndigits in
      let m := round_half_even (float_value x * inject_Z scale) in
      if m =? 0 then PrimFloat.mul x 0%float
      else if Z.abs m <? 2 ^ 53 then
        PrimFloat.div (float_of_Z m) (float_of_Z scale)
      else x
  | _ => x
  end.

#[export] Instance binary64_builtins : PyBuiltins float := {|
  py_round := float_round;
  py_int := fun x => Qtrunc (float_value x);
  py_abs := PrimFloat.abs
|}.

Record MathModule (F : Type) : Type := {
  radians : F -> F;
  sin : F -> F;
  cos : F -> F;
  sqrt : F -> option F;
  atan2 : F -> F -> F
}.
Arguments radians {F}. Arguments sin {F}. Arguments cos {F}.
Arguments sqrt {F}. Arguments atan2 {F}.

(** The generator: [G] is its internal state. *)
Record RandomModule (F G : Type) : Type := {
  (** [random.seed(n)] *)
  seed : Z -> G;
  (** [random.uniform(a, b)] *)
  uniform : F -> F -> G -> F * G;
  (** [random.randint(a, b)] *)
  randint : Z -> Z -> G -> Z * G;
  (** [random.choices(population, weights=weights)[0]] *)
  choices : list string -> list F -> G -> string * G
}.
Arguments seed {F G}. Arguments uniform {F G}.
Arguments randint {F G}. Arguments choices {F G}.

(** ** Data *)

(** A decoded JSON document, as [response.json()] returns it. *)
#[local] Unset Elimination Schemes.
Inductive Json (F : Type) : Type :=
| JNull
| JBool (b : bool)
| JNum (x : F)
| JStr (s : string)
| JArr (l : list (Json F))
| JObj (l : list (string * Json F)).
#[local] Set Elimination Schemes.
Arguments JNull {F}. Arguments JBool {F}. Arguments JNum {F}.
Arguments JStr {F}. Arguments JArr {F}. Arguments JObj {F}.

Definition Coord (F : Type) : Type := (F * F)%type.

Record Step (F : Type) : Type := {
  instruction : Json F;
  step_distance : F;
  step_duration : F
}.
Arguments instruction {F}. Arguments step_distance {F}. Arguments step_duration {F}.

(** The list under ['coordinates']: pairs of numbers from the simulator
    and from the polyline decoder; from OpenRouteService the pairs
    [(coord[1], coord[0])] of whatever the document holds. *)
Inductive Path (F : Type) : Type :=
| Points (l : list (Coord F))
| Pairs (l : list (Json F * Json F)).
Arguments Points {F}. Arguments Pairs {F}.

Definition path_length {F} (p : Path F) : nat :=
  match p with
  | Points l => List.length l
  | Pairs l => List.length l
  end.

(** The route dictionary.  ['duration_in_traffic'], the addresses and
    ['warnings'] are keys of the Google adapter's result only, the last
    three are values of the provider's document passed on as they are;
    ['simulated'] is set by the simulator only and read with [.get], so an
    absent key is [false]; ['route_name'] is added to alternatives. *)
Record Route (F : Type) : Type := {
  distance : F;
  duration : F;
  duration_in_traffic : option F;
  start_address : option (Json F);
  end_address : option (Json F);
  coordinates : Path F;
  steps : list (Step F);
  warnings : option (Json F);
  service : string;
  simulated : bool;
  route_name : option string
}.
Arguments distance {F}. Arguments duration {F}. Arguments duration_in_traffic {F}.
Arguments start_address {F}. Arguments end_address {F}. Arguments coordinates {F}.
Arguments steps {F}. Arguments warnings {F}. Arguments service {F}.
Arguments simulated {F}. Arguments route_name {F}.

(** What [requests.get] or [requests.post] did: it raised, or it returned
    a response whose [.json()] raises ([None]) or gives a document. *)
Inductive HttpReply (F : Type) : Type :=
| NoResponse
| Response (status_code : Z) (json : option (Json F)).
Arguments NoResponse {F}. Arguments Response {F}.

(** *** Reading a JSON document the way the Python code does

    [None] is an exception ([KeyError], [IndexError], [TypeError],
    [AttributeError]); every use below sits inside a [try] whose handler
    catches [Exception]. *)

Fixpoint assoc {A : Type} (k : string) (l : list (string * A)) : option A :=
  match l with
  | [] => None
  | (k', v) :: rest => if String.eqb k k' then Some v else assoc k rest
  end.

Section JsonAccess.
Context {F : Type} `{PyFloat F}.

(** [j[k]] for a string key *)
Definition getitem (k : string) (j : Json F) : option (Json F) :=
  match j with
  | JObj l => assoc k l
  | _ => None
  end.

(** [j[0]] *)
Definition index0 (j : Json F) : option (Json F) :=
  match j with
  | JArr (x :: _) => Some x
  | JStr (String c _) => Some (JStr (String c EmptyString))
  | _ => None
  end.

(** [j[1]] *)
Definition index1 (j : Json F) : option (Json F) :=
  match j with
  | JArr (_ :: x :: _) => Some x
  | JStr (String _ (String c _)) => Some (JStr (String c EmptyString))
  | _ => None
  end.

(** [j.get(k, default)] *)
Definition get_default (k : string) (default : Json F) (j : Json F)
  : option (Json F) :=
  match j with
  | JObj l => Some (match assoc k l with Some v => v | None => default end)
  | _ => None
  end.

(** The truth value of [j] in a condition. *)
Definition truthy (j : Json F) : bool :=
  match j with
  | JNull => false
  | JBool b => b
  | JNum x => negb (feqb x (of_int 0))
  | JStr s => negb (String.eqb s "")
  | JArr l => match l with [] => false | _ => true end
  | JObj l => match l with [] => false | _ => true end
  end.

(** [j] as the operand of a division: a number, or a boolean read as
    0 or 1. *)
Definition number (j : Json F) : option F :=
  match j with
  | JNum x => Some x
  | JBool b => Some (of_int (if b then 1 else 0))
  | _ => None
  end.

Definition text (j : Json F) : option string :=
  match j with
  | JStr s => Some s
  | _ => None
  end.

(** [j == s] for a string [s] *)
Definition is_str (s : string) (j : Json F) : bool :=
  match j with
  | JStr s' => String.eqb s' s
  | _ => false
  end.

(** The elements [for x in j] visits. *)
Definition iterate (j : Json F) : option (list (Json F)) :=
  match j with
  | JArr l => Some l
  | JObj l => Some (map (fun kv => JStr (fst kv)) l)
  | JStr s => Some (map (fun c => JStr (String c EmptyString)) (list_ascii_of_string s))
  | _ => None
  end.
End JsonAccess.

(** [s.replace(old, new)] for a non-empty [old]; [skip] characters of a
    match just replaced are still to be dropped. *)
Fixpoint replace_from (old new : string) (skip : nat) (s : string) : string :=
  match s with
  | EmptyString => EmptyString
  | String c rest =>
      match skip with
      | S k => replace_from old new k rest
      | O =>
          if String.prefix old s
          then new ++ replace_from old new (String.length old - 1) rest
          else String c (replace_from old new 0 rest)
      end
  end.

Definition replace (old new s : string) : string := replace_from old new 0 s.

Definition str_of_int (n : Z) : string :=
  DecimalString.NilZero.string_of_int (Z.to_int n).

(** ** The world the engine runs in

    The state the Python code reads and changes besides its arguments:
    the global generator of [random], the network (the reply the k-th
    request of the run receives), the clock (the k-th reading of
    [datetime.now()], as a POSIX timestamp in seconds).  [w_calls] is a
    ghost trace of the calls of [get_optimal_route], oldest first; the
    code keeps no such list. *)

Record World (F G : Type) : Type := {
  w_random : G;
  w_replies : nat -> HttpReply F;
  w_requests : nat;
  w_clock : nat -> F;
  w_ticks : nat;
  w_calls : list (Coord F * Coord F)
}.
Arguments w_random {F G}. Arguments w_replies {F G}. Arguments w_requests {F G}.
Arguments w_clock {F G}. Arguments w_ticks {F G}. Arguments w_calls {F G}.

(** State and exceptions: a computation returns a value or raises
    ([None]), and leaves a world behind in both cases. *)
Definition M (F G A : Type) : Type := World F G -> option A * World F G.

Section Monad.
Context {F G : Type}.

Definition ret {A} (a : A) : M F G A := fun w => (Some a, w).

Definition bind {A B} (m : M F G A) (k : A -> M F G B) : M F G B :=
  fun w => match m w with
           | (Some a, w') => k a w'
           | (None, w') => (None, w')
           end.

Definition raise {A} : M F G A := fun w => (None, w).

(** A pure step that may raise. *)
Definition lift {A} (o : option A) : M F G A := fun w => (o, w).

(** [try: body / except Exception: handler] *)
Definition try_except {A} (body handler : M F G A) : M F G A :=
  fun w => match body w with
           | (Some a, w') => (Some a, w')
           | (None, w') => handler w'
           end.

(** [requests.get(...)] or [requests.post(...)]: the next reply. *)
Definition http_request : M F G (HttpReply F) :=
  fun w => (Some (w_replies w (w_requests w)),
            {| w_random := w_random w; w_replies := w_replies w;
               w_requests := S (w_requests w); w_clock := w_clock w;
               w_ticks := w_ticks w; w_calls := w_calls w |}).

(** [datetime.now()] *)
Definition now : M F G F :=
  fun w => (Some (w_clock w (w_ticks w)),
            {| w_random := w_random w; w_replies := w_replies w;
               w_requests := w_requests w; w_clock := w_clock w;
               w_ticks := S (w_ticks w); w_calls := w_calls w |}).

(** A step of the generator. *)
Definition draw {A} (f : G -> A * G) : M F G A :=
  fun w => let (a, g) := f (w_random w) in
           (Some a,
            {| w_random := g; w_replies := w_replies w;
               w_requests := w_requests w; w_clock := w_clock w;
               w_ticks := w_ticks w; w_calls := w_calls w |}).

(** [random.seed(n)] *)
Definition reseed (g : G) : M F G unit :=
  fun w => (Some tt,
            {| w_random := g; w_replies := w_replies w;
               w_requests := w_requests w; w_clock := w_clock w;
               w_ticks := w_ticks w; w_calls := w_calls w |}).

Definition record_call (c : Coord F * Coord F) : M F G unit :=
  fun w => (Some tt,
            {| w_random := w_random w; w_replies := w_replies w;
               w_requests := w_requests w; w_clock := w_clock w;
               w_ticks := w_ticks w; w_calls := w_calls w ++ [c] |}).
End Monad.

Notation "x <- m ;; k" := (bind m (fun x => k))
  (at level 61, m at next level, right associativity).
Notation "m ;;; k" := (bind m (fun _ => k))
  (at level 61, right associativity).

(** The same for a pure step that may raise. *)
Definition obind {A B} (o : option A) (k : A -> option B) : option B :=
  match o with
  | Some a => k a
  | None => None
  end.

Notation "x <~ o ;; k" := (obind o (fun x => k))
  (at level 61, o at next level, right associativity).

Fixpoint traverse {A B} (f : A -> option B) (l : list A) : option (list B) :=
  match l with
  | [] => Some []
  | a :: rest =>
      b <~ f a ;;
      bs <~ traverse f rest ;;
      Some (b :: bs)
  end.

(** [k in j] for a string [k]: a key of a dictionary, an element of a
    list, a substring of a string. *)
Definition contains {F} (k : string) (j : Json F) : option bool :=
  match j with
  | JObj l => Some (match assoc k l with Some _ => true | None => false end)
  | JArr l => Some (existsb (fun x => match x with
                                      | JStr s => String.eqb s k
                                      | _ => false
                                      end) l)
  | JStr s => Some (match String.index 0 k s with Some _ => true | None => false end)
  | _ => None
  end.

(** ** RoutingAPI *)

Record RoutingAPI : Type := {
  api_service : string;
  api_key : option string;
  enabled : bool
}.

(** [api_key or os.getenv(name, default)] *)
Definition key_or_env (api_key : option string) (getenv : string -> option string)
  (name default : string) : string :=
  match api_key with
  | Some k => if String.eqb k "" then
                match getenv name with Some v => v | None => default end
              else k
  | None => match getenv name with Some v => v | None => default end
  end.

(** [RoutingAPI.__init__] *)
Definition RoutingAPI_init (service : string) (api_key : option string)
  (getenv : string -> option string) : RoutingAPI :=
  let key :=
    if String.eqb service "google" then
      Some (key_or_env api_key getenv "GOOGLE_MAPS_API_KEY"
              "YOUR_GOOGLE_MAPS_API_KEY_HERE")
    else if String.eqb service "openroute" then
      Some (key_or_env api_key getenv "OPENROUTE_API_KEY"
              "YOUR_OPENROUTE_API_KEY_HERE")
    else None in
  {| api_service := service;
     api_key := key;
     enabled := match key with
                | Some k => negb (String.eqb k "YOUR_GOOGLE_MAPS_API_KEY_HERE"
                                  || String.eqb k "YOUR_OPENROUTE_API_KEY_HERE")
                | None => false
                end |}.

Record Eta (F : Type) : Type := {
  (** the arrival time; ['eta'] and ['eta_formatted'] are two renderings
      of it *)
  eta : F;
  duration_minutes : F;
  distance_km : F
}.
Arguments eta {F}. Arguments duration_minutes {F}. Arguments distance_km {F}.

Record Nearest (F : Type) : Type := {
  responder_id : Z;
  nearest_coordinates : Coord F;
  nearest_distance : F;
  nearest_duration : F;
  nearest_route : Route F;
  nearest_eta : Eta F
}.
Arguments responder_id {F}. Arguments nearest_coordinates {F}.
Arguments nearest_distance {F}. Arguments nearest_duration {F}.
Arguments nearest_route {F}. Arguments nearest_eta {F}.

Section Routing.
Context {F : Type} `{PyFloat F} `{PyBuiltins F}.
Context (math : MathModule F).
Context {G : Type} (random : RandomModule F G).

Local Open Scope py_scope.
Local Abbreviation Mo := (M F G).

(** [_haversine_distance]; [x**2] is [x * x]. *)
Definition _haversine_distance (coord1 coord2 : Coord F) : option F :=
  let R := lit 63710 1 in
  let lat1 := radians math (fst coord1) in
  let lon1 := radians math (snd coord1) in
  let lat2 := radians math (fst coord2) in
  let lon2 := radians math (snd coord2) in
  let dlat := lat2 - lat1 in
  let dlon := lon2 - lon1 in
  let sq x := x * x in
  let a := sq (sin math (dlat / of_int 2))
           + cos math lat1 * cos math lat2 * sq (sin math (dlon / of_int 2)) in
  root <~ sqrt math a ;;
  coroot <~ sqrt math (of_int 1 - a) ;;
  let c := of_int 2 * atan2 math root coroot in
  let distance := R * c in
  Some distance.

(** The body of [for i in range(num_points + 1)], [n] iterations from
    [i] on.  [i / num_points] raises [ZeroDivisionError] when
    [num_points] is 0. *)
Fixpoint interpolate_loop (start_coords end_coords : Coord F) (num_points : Z)
  (n : nat) (i : Z) : Mo (list (Coord F)) :=
  match n with
  | O => ret []
  | S n =>
      if (num_points =? 0)%Z then raise
      else
        let t := of_int i / of_int num_points in
        let lat := fst start_coords + t * (fst end_coords - fst start_coords) in
        let lon := snd start_coords + t * (snd end_coords - snd start_coords) in
        p <- (if ((0 <? i) && (i <? num_points))%Z then
                jlat <- draw (uniform random (lit (-1) 3) (lit 1 3)) ;;
                jlon <- draw (uniform random (lit (-1) 3) (lit 1 3)) ;;
                ret (lat + jlat, lon + jlon)
              else ret (lat, lon)) ;;
        path <- interpolate_loop start_coords end_coords num_points n (i + 1)%Z ;;
        ret (p :: path)
  end.

Definition _interpolate_path (start_coords end_coords : Coord F) (num_points : Z)
  : Mo (list (Coord F)) :=
  interpolate_loop start_coords end_coords num_points
    (Z.to_nat (num_points + 1)) 0%Z.

(** [max(5, int(distance_km * 2))] *)
Definition num_waypoints (distance_km : F) : Z :=
  Z.max 5 (py_int (distance_km * of_int 2)).

Definition _get_simulated_route (start_coords end_coords : Coord F)
  : Mo (Route F) :=
  distance_km <- lift (_haversine_distance start_coords end_coords) ;;
  let road_distance := distance_km * lit 13 1 in
  let duration_minutes := (road_distance / of_int 40) * of_int 60 in
  coordinates <- _interpolate_path start_coords end_coords
                   (num_waypoints distance_km) ;;
  ret {| distance := py_round road_distance 2;
         duration := py_round duration_minutes 1;
         duration_in_traffic := Some (py_round (duration_minutes * lit 12 1) 1);
         start_address := None;
         end_address := None;
         coordinates := Points coordinates;
         steps := [ {| instruction := JStr "Head to emergency location";
                       step_distance := road_distance;
                       step_duration := duration_minutes |} ];
         warnings := None;
         service := "simulated";
         simulated := true;
         route_name := None |}.

(** One entry of [_extract_steps]. *)
Definition google_step (step : Json F) : option (Step F) :=
  html <~ get_default "html_instructions" (JStr "") step ;;
  html <~ text html ;;
  d <~ getitem "distance" step ;;
  d <~ getitem "value" d ;;
  d <~ number d ;;
  t <~ getitem "duration" step ;;
  t <~ getitem "value" t ;;
  t <~ number t ;;
  Some {| instruction := JStr (replace "</b>" "" (replace "<b>" "" html));
          step_distance := d / of_int 1000;
          step_duration := t / of_int 60 |}.

Definition _extract_steps (steps : Json F) : option (list (Step F)) :=
  steps <~ iterate steps ;;
  traverse google_step steps.

(** What [_decode_polyline] reads of its argument: [len] and [ord] of
    each item.  A string gives its characters; a list has to hold
    strings of one character; the empty dictionary has length 0, any
    other has no key 0; the other values have no [len]. *)
Definition one_character (j : Json F) : option ascii :=
  match j with
  | JStr (String c EmptyString) => Some c
  | _ => None
  end.

Definition polyline_characters (polyline_str : Json F) : option (list ascii) :=
  match polyline_str with
  | JStr s => Some (list_ascii_of_string s)
  | JArr l => traverse one_character l
  | JObj [] => Some []
  | _ => None
  end.

(** [_decode_polyline] on a value of the document, which the adapter
    passes on as it is. *)
Definition _decode_polyline_value (polyline_str : Json F)
  : option (list (Coord F)) :=
  s <~ polyline_characters polyline_str ;;
  decode_loop (List.length s) s 0 0.

(** The route dictionary built from a Google document, after
    [data['status'] == 'OK' and data['routes']] held. *)
Definition google_route_data (routes : Json F) : option (Route F) :=
  route <~ index0 routes ;;
  legs <~ getitem "legs" route ;;
  leg <~ index0 legs ;;
  polyline <~ getitem "overview_polyline" route ;;
  polyline <~ getitem "points" polyline ;;
  coordinates <~ _decode_polyline_value polyline ;;
  dist <~ getitem "distance" leg ;;
  dist <~ getitem "value" dist ;;
  dist <~ number dist ;;
  dur <~ getitem "duration" leg ;;
  dur_value <~ getitem "value" dur ;;
  dur <~ number dur_value ;;
  traffic <~ get_default "duration_in_traffic" (JObj []) leg ;;
  traffic <~ get_default "value" dur_value traffic ;;
  traffic <~ number traffic ;;
  start_address <~ getitem "start_address" leg ;;
  end_address <~ getitem "end_address" leg ;;
  steps <~ getitem "steps" leg ;;
  steps <~ _extract_steps steps ;;
  warnings <~ get_default "warnings" (JArr []) route ;;
  Some {| distance := dist / of_int 1000;
          duration := dur / of_int 60;
          duration_in_traffic := Some (traffic / of_int 60);
          start_address := Some start_address;
          end_address := Some end_address;
          coordinates := Points coordinates;
          steps := steps;
          warnings := Some warnings;
          service := "google";
          simulated := false;
          route_name := None |}.

(** [mode] and [optimize_for] only shape the request that is sent. *)
Definition _get_google_route (start_coords end_coords : Coord F)
  (mode optimize_for : string) : Mo (Route F) :=
  try_except
    (response <- http_request ;;
     match response with
     | NoResponse => raise
     | Response status_code json =>
         if (status_code =? 200)%Z then
           data <- lift json ;;
           status <- lift (getitem "status" data) ;;
           if is_str "OK" status then
             routes <- lift (getitem "routes" data) ;;
             if truthy routes then lift (google_route_data routes)
             else _get_simulated_route start_coords end_coords
           else _get_simulated_route start_coords end_coords
         else _get_simulated_route start_coords end_coords
     end)
    (_get_simulated_route start_coords end_coords).

(** One entry of [_extract_openroute_steps]. *)
Definition openroute_step (step : Json F) : option (Step F) :=
  instr <~ get_default "instruction" (JStr "Continue") step ;;
  d <~ getitem "distance" step ;;
  d <~ number d ;;
  t <~ getitem "duration" step ;;
  t <~ number t ;;
  Some {| instruction := instr;
          step_distance := d / of_int 1000;
          step_duration := t / of_int 60 |}.

Definition openroute_segment (segment : Json F) : option (list (Step F)) :=
  has_steps <~ contains "steps" segment ;;
  if has_steps then
    steps <~ getitem "steps" segment ;;
    steps <~ iterate steps ;;
    traverse openroute_step steps
  else Some [].

Definition _extract_openroute_steps (segments : Json F) : option (list (Step F)) :=
  segments <~ iterate segments ;;
  directions <~ traverse openroute_segment segments ;;
  Some (List.concat directions).

(** [(coord[1], coord[0])]: longitude first in the document.  The two
    entries are taken as they are. *)
Definition openroute_coord (coord : Json F) : option (Json F * Json F) :=
  lat <~ index1 coord ;;
  lon <~ index0 coord ;;
  Some (lat, lon).

Definition openroute_route_data (routes : Json F) : option (Route F) :=
  route <~ index0 routes ;;
  geometry <~ getitem "geometry" route ;;
  coords <~ getitem "coordinates" geometry ;;
  coords <~ iterate coords ;;
  coordinates <~ traverse openroute_coord coords ;;
  summary <~ getitem "summary" route ;;
  dist <~ getitem "distance" summary ;;
  dist <~ number dist ;;
  dur <~ getitem "duration" summary ;;
  dur <~ number dur ;;
  segments <~ get_default "segments" (JArr []) route ;;
  steps <~ _extract_openroute_steps segments ;;
  Some {| distance := dist / of_int 1000;
          duration := dur / of_int 60;
          duration_in_traffic := None;
          start_address := None;
          end_address := None;
          coordinates := Pairs coordinates;
          steps := steps;
          warnings := None;
          service := "openroute";
          simulated := false;
          route_name := None |}.

Definition _get_openroute_route (start_coords end_coords : Coord F)
  (mode : string) : Mo (Route F) :=
  try_except
    (response <- http_request ;;
     match response with
     | NoResponse => raise
     | Response status_code json =>
         if (status_code =? 200)%Z then
           data <- lift json ;;
           has_routes <- lift (contains "routes" data) ;;
           if has_routes then
             routes <- lift (getitem "routes" data) ;;
             if truthy routes then lift (openroute_route_data routes)
             else _get_simulated_route start_coords end_coords
           else _get_simulated_route start_coords end_coords
         else _get_simulated_route start_coords end_coords
     end)
    (_get_simulated_route start_coords end_coords).

Definition get_optimal_route (self : RoutingAPI)
  (start_coords end_coords : Coord F) (mode optimize_for : string)
  : Mo (Route F) :=
  record_call (start_coords, end_coords) ;;;
  if negb (enabled self) then _get_simulated_route start_coords end_coords
  else if String.eqb (api_service self) "google" then
    _get_google_route start_coords end_coords mode optimize_for
  else if String.eqb (api_service self) "openroute" then
    _get_openroute_route start_coords end_coords mode
  else _get_simulated_route start_coords end_coords.

(** The alternative of index [i]: a copy of the primary route with
    three keys rebound. *)
Definition alternative (primary_route : Route F) (i : Z) : Route F :=
  {| distance := distance primary_route * (of_int 1 + of_int i * lit 1 1);
     duration := duration primary_route * (of_int 1 + of_int i * lit 15 2);
     duration_in_traffic := duration_in_traffic primary_route;
     start_address := start_address primary_route;
     end_address := end_address primary_route;
     coordinates := coordinates primary_route;
     steps := steps primary_route;
     warnings := warnings primary_route;
     service := service primary_route;
     simulated := simulated primary_route;
     route_name := Some ("Alternative " ++ str_of_int i)%string |}.

(** [range(1, n)] *)
Definition range1 (n : Z) : list Z :=
  map Z.of_nat (seq 1 (Z.to_nat (n - 1))).

(** A route dictionary is never empty, so [if primary_route] holds
    whenever [get_optimal_route] returned. *)
Definition get_multiple_routes (self : RoutingAPI)
  (start_coords end_coords : Coord F) (num_alternatives : Z)
  : Mo (list (Route F)) :=
  primary_route <- get_optimal_route self start_coords end_coords
                     "driving" "time" ;;
  let routes := [primary_route] in
  if simulated primary_route then
    ret (routes ++ map (alternative primary_route) (range1 num_alternatives))
  else ret routes.

(** [calculate_eta(route_data)], [current_time] left to its default;
    times are in seconds, the duration in minutes. *)
Definition calculate_eta (route_data : Route F) : Mo (Eta F) :=
  current_time <- now ;;
  let duration := match duration_in_traffic route_data with
                  | Some d => d
                  | None => duration route_data
                  end in
  ret {| eta := current_time + duration * of_int 60;
         duration_minutes := duration;
         distance_km := distance route_data |}.

(** [route['distance'] < min_distance], [None] being [float('inf')]. *)
Definition below (d : F) (min_distance : option F) : bool :=
  match min_distance with
  | None => flt_inf d
  | Some m => fltb d m
  end.

(** The loop of [find_nearest_responder] over the responders from index
    [i] on; the state is [(nearest, min_distance)], [nearest] holding
    the four keys set in the loop and [best_route]. *)
Fixpoint nearest_loop (self : RoutingAPI) (emergency_coords : Coord F)
  (responder_locations : list (Coord F)) (i : Z)
  (nearest : option (Z * Coord F * Route F)) (min_distance : option F)
  : Mo (option (Z * Coord F * Route F)) :=
  match responder_locations with
  | [] => ret nearest
  | responder_coords :: rest =>
      route <- get_optimal_route self responder_coords emergency_coords
                 "driving" "time" ;;
      if below (distance route) min_distance then
        nearest_loop self emergency_coords rest (i + 1)%Z
          (Some (i, responder_coords, route)) (Some (distance route))
      else
        nearest_loop self emergency_coords rest (i + 1)%Z nearest min_distance
  end.

Definition find_nearest_responder (self : RoutingAPI)
  (emergency_coords : Coord F) (responder_locations : list (Coord F))
  : Mo (option (Nearest F)) :=
  nearest <- nearest_loop self emergency_coords responder_locations 0%Z
               None None ;;
  match nearest with
  | Some (i, responder_coords, best_route) =>
      e <- calculate_eta best_route ;;
      ret (Some {| responder_id := i;
                   nearest_coordinates := responder_coords;
                   nearest_distance := distance best_route;
                   nearest_duration := duration best_route;
                   nearest_route := best_route;
                   nearest_eta := e |})
  | None => ret None
  end.
End Routing.

(** ** WeatherAPI: the simulator *)

Record Weather (F : Type) : Type := {
  temperature : F;
  feels_like : F;
  humidity : Z;
  pressure : Z;
  wind_speed : F;
  wind_direction : Z;
  cloudiness : Z;
  precipitation : F;
  weather_main : string;
  weather_description : string;
  visibility : Z;
  (** [datetime.now().isoformat()], kept as the time it renders *)
  timestamp : F;
  weather_simulated : bool
}.
Arguments temperature {F}. Arguments feels_like {F}. Arguments humidity {F}.
Arguments pressure {F}. Arguments wind_speed {F}. Arguments wind_direction {F}.
Arguments cloudiness {F}. Arguments precipitation {F}. Arguments weather_main {F}.
Arguments weather_description {F}. Arguments visibility {F}. Arguments timestamp {F}.
Arguments weather_simulated {F}.

Definition lower_ascii (c : ascii) : ascii :=
  let n := N_of_ascii c in
  if ((65 <=? n) && (n <=? 90))%N then ascii_of_N (n + 32) else c.

Definition upper_ascii (c : ascii) : ascii :=
  let n := N_of_ascii c in
  if ((97 <=? n) && (n <=? 122))%N then ascii_of_N (n - 32) else c.

Fixpoint map_string (f : ascii -> ascii) (s : string) : string :=
  match s with
  | EmptyString => EmptyString
  | String c rest => String (f c) (map_string f rest)
  end.

Definition lower : string -> string := map_string lower_ascii.
Definition upper : string -> string := map_string upper_ascii.

Section Weather.
Context {F : Type} `{PyFloat F} `{PyBuiltins F}.
Context {G : Type} (random : RandomModule F G).

Local Open Scope py_scope.
Local Abbreviation Mo := (M F G).

(** [int((latitude + 90) * 1000 + (longitude + 180) * 1000)] *)
Definition location_seed (latitude longitude : F) : Z :=
  py_int ((latitude + of_int 90) * of_int 1000
          + (longitude + of_int 180) * of_int 1000).

(** [int(datetime.now().timestamp()) // 3600] *)
Definition hour_bucket (t : F) : Z := (py_int t / 3600)%Z.

(** The argument of [random.seed]. *)
Definition weather_seed (latitude longitude t : F) : Z :=
  (location_seed latitude longitude + hour_bucket t)%Z.

Definition _get_simulated_weather (latitude longitude : F) : Mo (Weather F) :=
  t <- now ;;
  reseed (seed random (weather_seed latitude longitude t)) ;;;
  let base_temp := of_int 25 - py_abs latitude * lit 4 1 in
  temp_variation <- draw (uniform random (of_int (-5)) (of_int 5)) ;;
  let temperature := base_temp + temp_variation in
  let weather_conditions :=
    ["Clear"; "Clouds"; "Rain"; "Drizzle"; "Thunderstorm"; "Snow"]%string in
  let weights := [lit 4 1; lit 3 1; lit 15 2; lit 1 1; lit 3 2; lit 2 2] in
  weather_main <- draw (choices random weather_conditions weights) ;;
  precipitation <-
    (if String.eqb weather_main "Rain" then
       draw (uniform random (of_int 2) (of_int 15))
     else if String.eqb weather_main "Drizzle" then
       draw (uniform random (lit 5 1) (of_int 2))
     else if String.eqb weather_main "Thunderstorm" then
       draw (uniform random (of_int 10) (of_int 30))
     else ret (of_int 0)) ;;
  feels <- draw (uniform random (of_int (-2)) (of_int 2)) ;;
  humidity <- draw (randint random 40 90) ;;
  pressure <- draw (randint random 1000 1025) ;;
  wind <- draw (uniform random (of_int 0) (of_int 20)) ;;
  wind_direction <- draw (randint random 0 360) ;;
  cloudiness <- draw (randint random 0 100) ;;
  visibility <- draw (randint random 5000 10000) ;;
  stamp <- now ;;
  ret {| temperature := py_round temperature 1;
         feels_like := py_round (temperature + feels) 1;
         humidity := humidity;
         pressure := pressure;
         wind_speed := py_round wind 1;
         wind_direction := wind_direction;
         cloudiness := cloudiness;
         precipitation := py_round precipitation 1;
         weather_main := weather_main;
         weather_description := lower weather_main;
         visibility := visibility;
         timestamp := stamp;
         weather_simulated := true |}.
End Weather.

(** ** GeocodingAPI

    The client that [create_geocoding.py] writes to
    [api/geocoding_api.py].  [_rate_limit] only delays the call and is
    left out. *)

Record GeocodingAPI : Type := {
  google_enabled : bool;
  opencage_enabled : bool;
  nominatim_enabled : bool
}.

(** [key not in [placeholder, None, '']] *)
Definition geocoding_key_enabled (key placeholder : string) : bool :=
  negb (String.eqb key placeholder || String.eqb key "").

(** [GeocodingAPI.__init__] *)
Definition GeocodingAPI_init (google_key opencage_key : option string)
  (getenv : string -> option string) : GeocodingAPI :=
  let google_key := key_or_env google_key getenv "GOOGLE_GEOCODING_API_KEY"
                      "YOUR_GOOGLE_GEOCODING_API_KEY_HERE" in
  let opencage_key := key_or_env opencage_key getenv "OPENCAGE_API_KEY"
                        "YOUR_OPENCAGE_API_KEY_HERE" in
  {| google_enabled :=
       geocoding_key_enabled google_key "YOUR_GOOGLE_GEOCODING_API_KEY_HERE";
     opencage_enabled :=
       geocoding_key_enabled opencage_key "YOUR_OPENCAGE_API_KEY_HERE";
     nominatim_enabled := true |}.

(** The result dictionary; the values are those of the provider's
    document.  ['provider'] is set by [geocode]. *)
Record GeocodeResult (F : Type) : Type := {
  latitude : Json F;
  longitude : Json F;
  formatted_address : Json F;
  city : Json F;
  country : Json F;
  country_code : Json F;
  confidence : Json F;
  provider : option string
}.
Arguments latitude {F}. Arguments longitude {F}. Arguments formatted_address {F}.
Arguments city {F}. Arguments country {F}. Arguments country_code {F}.
Arguments confidence {F}. Arguments provider {F}.

Section Geocoding.
Context {F : Type} `{PyFloat F}.
Context {G : Type}.
(** [float(s)] for a string *)
Context (float_of_str : string -> option F).

Local Abbreviation Mo := (M F G).

(** [float(j)] *)
Definition py_float (j : Json F) : option (Json F) :=
  match j with
  | JNum x => Some (JNum x)
  | JBool b => Some (JNum (of_int (if b then 1 else 0)))
  | JStr s => x <~ float_of_str s ;; Some (JNum x)
  | _ => None
  end.

(** [j.upper()] *)
Definition json_upper (j : Json F) : option (Json F) :=
  s <~ text j ;; Some (JStr (upper s)).

(** [j[:2]] *)
Definition slice2 (j : Json F) : option (Json F) :=
  match j with
  | JStr s => Some (JStr (String.substring 0 2 s))
  | JArr l => Some (JArr (firstn 2 l))
  | _ => None
  end.

Definition _geocode_nominatim (location_query : string)
  (country_hint : option string) : Mo (option (GeocodeResult F)) :=
  response <- http_request ;;
  match response with
  | NoResponse => raise
  | Response status_code json =>
      if (status_code =? 200)%Z then
        data <- lift json ;;
        if truthy data then
          lift (result <~ index0 data ;;
                address <~ get_default "address" (JObj []) result ;;
                lat <~ getitem "lat" result ;;
                lat <~ py_float lat ;;
                lon <~ getitem "lon" result ;;
                lon <~ py_float lon ;;
                display <~ get_default "display_name" (JStr "") result ;;
                village <~ get_default "village" (JStr "") address ;;
                town <~ get_default "town" village address ;;
                city <~ get_default "city" town address ;;
                country <~ get_default "country" (JStr "") address ;;
                code <~ get_default "country_code" (JStr "") address ;;
                code <~ json_upper code ;;
                Some (Some {| latitude := lat;
                              longitude := lon;
                              formatted_address := display;
                              city := city;
                              country := country;
                              country_code := code;
                              confidence := JStr "medium";
                              provider := None |}))
        else ret None
      else ret None
  end.

(** [{c['types'][0]: c['long_name'] for c in components}]: the pairs in
    the order they are inserted; a list or a dictionary is no key. *)
Definition component_pair (c : Json F) : option (Json F * Json F) :=
  types <~ getitem "types" c ;;
  key <~ index0 types ;;
  match key with
  | JArr _ | JObj _ => None
  | _ => name <~ getitem "long_name" c ;; Some (key, name)
  end.

(** [d.get(k, default)] on that dictionary: the last insertion wins. *)
Fixpoint components_get (k : string) (default : Json F)
  (d : list (Json F * Json F)) : Json F :=
  match d with
  | [] => default
  | (key, v) :: rest =>
      components_get k (if is_str k key then v else default) rest
  end.

Definition _geocode_google (location_query : string)
  (country_hint : option string) : Mo (option (GeocodeResult F)) :=
  response <- http_request ;;
  match response with
  | NoResponse => raise
  | Response status_code json =>
      if (status_code =? 200)%Z then
        data <- lift json ;;
        status <- lift (getitem "status" data) ;;
        if is_str "OK" status then
          results <- lift (getitem "results" data) ;;
          if truthy results then
            lift (result <~ index0 results ;;
                  geometry <~ getitem "geometry" result ;;
                  location <~ getitem "location" geometry ;;
                  comps <~ getitem "address_components" result ;;
                  comps <~ iterate comps ;;
                  address_components <~ traverse component_pair comps ;;
                  lat <~ getitem "lat" location ;;
                  lng <~ getitem "lng" location ;;
                  formatted <~ getitem "formatted_address" result ;;
                  code <~ slice2 (components_get "country" (JStr "")
                                    address_components) ;;
                  Some (Some {| latitude := lat;
                                longitude := lng;
                                formatted_address := formatted;
                                city := components_get "locality" (JStr "")
                                          address_components;
                                country := components_get "country" (JStr "")
                                             address_components;
                                country_code := code;
                                confidence := JStr "high";
                                provider := None |}))
          else ret None
        else ret None
      else ret None
  end.

Definition _geocode_opencage (location_query : string)
  (country_hint : option string) : Mo (option (GeocodeResult F)) :=
  response <- http_request ;;
  match response with
  | NoResponse => raise
  | Response status_code json =>
      if (status_code =? 200)%Z then
        data <- lift json ;;
        results <- lift (getitem "results" data) ;;
        if truthy results then
          lift (result <~ index0 results ;;
                geometry <~ getitem "geometry" result ;;
                components <~ getitem "components" result ;;
                lat <~ getitem "lat" geometry ;;
                lng <~ getitem "lng" geometry ;;
                formatted <~ getitem "formatted" result ;;
                town <~ get_default "town" (JStr "") components ;;
                city <~ get_default "city" town components ;;
                country <~ get_default "country" (JStr "") components ;;
                code <~ get_default "country_code" (JStr "") components ;;
                code <~ json_upper code ;;
                conf <~ get_default "confidence" (JNum (of_int 5)) result ;;
                Some (Some {| latitude := lat;
                              longitude := lng;
                              formatted_address := formatted;
                              city := city;
                              country := country;
                              country_code := code;
                              confidence := conf;
                              provider := None |}))
        else ret None
      else ret None
  end.

(** [result['provider'] = provider_name] *)
Definition set_provider (provider_name : string) (r : GeocodeResult F)
  : GeocodeResult F :=
  {| latitude := latitude r; longitude := longitude r;
     formatted_address := formatted_address r; city := city r;
     country := country r; country_code := country_code r;
     confidence := confidence r; provider := Some provider_name |}.

Definition Adapter : Type :=
  string -> option string -> Mo (option (GeocodeResult F)).

(** The list [providers] that [geocode] builds. *)
Definition providers (self : GeocodingAPI) : list (string * Adapter) :=
  (if google_enabled self then [("google"%string, _geocode_google)] else [])
  ++ (if opencage_enabled self then [("opencage"%string, _geocode_opencage)] else [])
  ++ (if nominatim_enabled self then [("nominatim"%string, _geocode_nominatim)] else []).

(** [for provider_name, geocode_func in providers]: inside the [try]
    a result that is not [None] gets its provider and is returned; an
    exception is caught and the loop goes on; after the loop [None] is
    returned. *)
Fixpoint geocode_loop (providers : list (string * Adapter))
  (location_query : string) (country_hint : option string)
  : Mo (option (GeocodeResult F)) :=
  match providers with
  | [] => ret None
  | (provider_name, geocode_func) :: rest =>
      returned <- try_except
                    (result <- geocode_func location_query country_hint ;;
                     match result with
                     | Some r => ret (Some (set_provider provider_name r))
                     | None => ret None
                     end)
                    (ret None) ;;
      match returned with
      | Some r => ret (Some r)
      | None => geocode_loop rest location_query country_hint
      end
  end.

Definition geocode (self : GeocodingAPI) (location_query : string)
  (country_hint : option string) : Mo (option (GeocodeResult F)) :=
  geocode_loop (providers self) location_query country_hint.
End Geocoding.

(** ** Stand-ins for the library modules

    Concrete modules to run the definitions on: a fixed-point
    approximation of [math] on the rationals (18 decimals, series good for
    the angles of the examples), and a linear congruential generator in
    place of the Mersenne Twister of [random].  The theorems quantify
    over the modules; these give the concrete runs. *)

Definition fix18 (x : Q) : Q :=
  Qred (inject_Z (Qfloor (x * inject_Z (10 ^ 18))) / inject_Z (10 ^ 18)).

Definition series_radians (x : Q) : Q :=
  fix18 (x * 3.141592653589793238 / 180).

Definition series_sin (x : Q) : Q :=
  let x2 := fix18 (x * x) in
  fix18 (x * (1 - x2 / 6 * (1 - x2 / 20 * (1 - x2 / 42 * (1 - x2 / 72
         * (1 - x2 / 110 * (1 - x2 / 156))))))).

Definition series_cos (x : Q) : Q :=
  let x2 := fix18 (x * x) in
  fix18 (1 - x2 / 2 * (1 - x2 / 12 * (1 - x2 / 30 * (1 - x2 / 56
         * (1 - x2 / 90 * (1 - x2 / 132 * (1 - x2 / 182))))))).

Fixpoint newton_sqrt (n : nat) (x y : Q) : Q :=
  match n with
  | O => y
  | S n => newton_sqrt n x (fix18 ((y + x / y) / 2))
  end.

Definition series_sqrt (x : Q) : option Q :=
  if Qle_bool 0 x then
    Some (if Qle_bool x 0 then 0%Q else newton_sqrt 80 x 1)
  else None.

(** For [0 <= y <= x], [0 < x]: the series of the arc tangent. *)
Definition series_atan2 (y x : Q) : Q :=
  let r := fix18 (y / x) in
  let r2 := fix18 (r * r) in
  fix18 (r * (1 - r2 * ((1 # 3) - r2 * ((1 # 5) - r2 * ((1 # 7) - r2 * (1 # 9)))))).

Definition series_math : MathModule Q := {|
  radians := series_radians;
  sin := series_sin;
  cos := series_cos;
  sqrt := series_sqrt;
  atan2 := series_atan2
|}.

Definition lcg_next (g : Z) : Z := (g * 1103515245 + 12345) mod 2147483648.

(** A number in [[0, 1)] and the next state. *)
Definition lcg_random (g : Z) : Q * Z :=
  (Qred (inject_Z (lcg_next g) / 2147483648), lcg_next g).

Fixpoint pick (population : list string) (weights : list Q) (x : Q) : string :=
  match population, weights with
  | p :: ps, w :: ws =>
      match ps with
      | [] => p
      | _ => if Qle_bool w x then pick ps ws (x - w) else p
      end
  | _, _ => EmptyString
  end.

Definition lcg : RandomModule Q Z := {|
  seed := fun n => n mod 2147483648;
  uniform := fun a b g =>
    let (r, g') := lcg_random g in (Qred (a + (b - a) * r), g');
  randint := fun a b g =>
    let (r, g') := lcg_random g in
    ((a + Qfloor (r * inject_Z (b - a + 1)))%Z, g');
  choices := fun population weights g =>
    let (r, g') := lcg_random g in
    (pick population weights (r * fold_right Qplus 0 weights), g')
|}%Q.

(** The same generator with binary64 draws. *)
Definition lcg64 : RandomModule float Z := {|
  seed := fun n => n mod 2147483648;
  uniform := fun a b g =>
    (PrimFloat.add a (PrimFloat.mul (PrimFloat.sub b a)
       (PrimFloat.div (float_of_Z (lcg_next g)) (float_of_Z 2147483648))),
     lcg_next g);
  randint := fun a b g => ((a + lcg_next g mod (b - a + 1))%Z, lcg_next g);
  choices := fun population weights g =>
    (nth (Z.to_nat (lcg_next g mod Z.of_nat (List.length population)))
       population EmptyString, lcg_next g)
|}.

(** A world with no network (every request fails to connect), the
    generator in state [g] and the clock reading [t + k] at the k-th
    reading. *)
Definition offline {F} `{PyFloat F} {G} (g : G) (t : Z) : World F G := {|
  w_random := g;
  w_replies := fun _ => NoResponse;
  w_requests := 0;
  w_clock := fun k => of_int (t + Z.of_nat k);
  w_ticks := 0;
  w_calls := []
|}.

(** The test locations of [routing_api.py]. *)
Definition times_square : Coord Q := (40.7589, -73.9851)%Q.
Definition downtown : Coord Q := (40.7128, -74.0060)%Q.

(** Two points on the equator, about 2.9 km apart. *)
Definition equator_west : Coord Q := (0, 0)%Q.
Definition equator_east : Coord Q := (0, 0.02608)%Q.

#[local] Set Warnings "-inexact-float".

Definition paris : Coord float := (48.8566, 2.3522)%float.
Definition london : Coord float := (51.5074, -0.1278)%float.

(** Two points of the Atlantic and the Pacific, nearly antipodal. *)
Definition atlantic : Coord float := (8, -36)%float.
Definition pacific : Coord float := (-8, 144)%float.

(** The [math] module in binary64 at the arguments of the distance from
    [atlantic] to [pacific]: [radians] is the product with [pi / 180];
    [sin] and [cos] are the values the C library returns at the four
    angles of that computation (not a number elsewhere); [sqrt] is the
    correctly rounded root, and raises on a negative argument. *)
Definition libm_radians (x : float) : float :=
  PrimFloat.mul x 0.017453292519943295%float.

Definition libm_sin (x : float) : float :=
  if PrimFloat.eqb x (-0.13962634015954636)%float
  then (-0.13917310096006544)%float
  else if PrimFloat.eqb x 1.5707963267948966%float then 1%float
  else PrimFloat.nan.

Definition libm_cos (x : float) : float :=
  if PrimFloat.eqb x 0.13962634015954636%float then 0.9902680687415704%float
  else if PrimFloat.eqb x (-0.13962634015954636)%float
  then 0.9902680687415704%float
  else PrimFloat.nan.

Definition libm_sqrt (x : float) : option float :=
  if PrimFloat.ltb x 0%float then None else Some (PrimFloat.sqrt x).

Definition libm_recorded : MathModule float := {|
  radians := libm_radians;
  sin := libm_sin;
  cos := libm_cos;
  sqrt := libm_sqrt;
  atan2 := fun _ _ => PrimFloat.nan
|}.

(** The world of the binary64 runs: no network. *)
Definition offline_binary64 : World float Z := offline 42 0.


(** ** The vocabulary of the properties *)

Section PolylineVocabulary.
Context {F : Type} `{PyFloat F}.

(** A point given in units of 1e-5 degrees, as the decoder scales it. *)
Definition scale (p : Z * Z) : F * F :=
  (fdiv (of_int (fst p)) (of_int 100000), fdiv (of_int (snd p)) (of_int 100000)).
End PolylineVocabulary.

(** Within the 1e-5 tolerance of the format, in both coordinates. *)
Definition close (c d : Q * Q) : Prop :=
  (Qabs (fst d - fst c) <= 1 / 100000 /\ Qabs (snd d - snd c) <= 1 / 100000)%Q.

(** Equal as rational points. *)
Definition same_point (c d : Q * Q) : Prop :=
  (fst c == fst d /\ snd c == snd d)%Q.

(** Only the generator moved between two worlds. *)
Definition only_random {F G} (w w' : World F G) : Prop :=
  w_replies w' = w_replies w /\ w_requests w' = w_requests w
  /\ w_clock w' = w_clock w /\ w_ticks w' = w_ticks w
  /\ w_calls w' = w_calls w.

Section InterpolateVocabulary.
Context {F : Type} `{PyFloat F} {G : Type} (random : RandomModule F G).

(** The point of index [i] before any jitter, in the arithmetic of the
    code. *)
Definition interp (a b : Coord F) (n i : Z) : Coord F :=
  let t := fdiv (of_int i) (of_int n) in
  (fadd (fst a) (fmul t (fsub (fst b) (fst a))),
   fadd (snd a) (fmul t (fsub (snd b) (snd a)))).

(** [q] is [p] with one draw of [uniform(-0.001, 0.001)] added to each
    coordinate. *)
Definition jittered (p q : Coord F) : Prop :=
  exists g1 g2,
    q = (fadd (fst p) (fst (uniform random (lit (-1) 3) (lit 1 3) g1)),
         fadd (snd p) (fst (uniform random (lit (-1) 3) (lit 1 3) g2))).

Definition point_at (a b : Coord F) (n i : Z) (p : Coord F) : Prop :=
  if (0 <? i) && (i <? n) then jittered (interp a b n i) p
  else p = interp a b n i.
End InterpolateVocabulary.

(** Every draw of [random.uniform(a, b)] lies between its bounds, as the
    library documents it. *)
Definition uniform_in_range {G} (random : RandomModule Q G) : Prop :=
  forall a b g, (a <= b)%Q -> (a <= fst (uniform random a b g) <= b)%Q.

(** At most 0.001 apart in latitude and in longitude. *)
Definition within_jitter (p q : Coord Q) : Prop :=
  (Qabs (fst p - fst q) <= 1 / 1000 /\ Qabs (snd p - snd q) <= 1 / 1000)%Q.

Section RoutingVocabulary.
Context {F : Type} `{PyFloat F} `{PyBuiltins F}.
Context (math : MathModule F).

(** The dictionary [_get_simulated_route] builds around a path, for a
    straight-line distance [distance_km]. *)
Definition simulated_route (distance_km : F) (path : list (Coord F))
  : Route F :=
  let road_distance := fmul distance_km (lit 13 1) in
  let duration_minutes := fmul (fdiv road_distance (of_int 40)) (of_int 60) in
  {| distance := py_round road_distance 2;
     duration := py_round duration_minutes 1;
     duration_in_traffic := Some (py_round (fmul duration_minutes (lit 12 1)) 1);
     start_address := None;
     end_address := None;
     coordinates := Points path;
     steps := [ {| instruction := JStr "Head to emergency location";
                   step_distance := road_distance;
                   step_duration := duration_minutes |} ];
     warnings := None;
     service := "simulated";
     simulated := true;
     route_name := None |}.

(** The configured provider answers the request with the route [r]:
    the client is enabled, [reply], what the network answers, has status
    200 and a document that passes the adapter's tests, and [r] is the
    dictionary the adapter builds from it. *)
Inductive Answers (self : RoutingAPI) (reply : HttpReply F) (r : Route F)
  : Prop :=
| google_answers (data status routes : Json F) :
    enabled self = true ->
    api_service self = "google"%string ->
    reply = Response 200 (Some data) ->
    getitem "status" data = Some status ->
    is_str "OK" status = true ->
    getitem "routes" data = Some routes ->
    truthy routes = true ->
    google_route_data routes = Some r ->
    Answers self reply r
| openroute_answers (data routes : Json F) :
    enabled self = true ->
    api_service self = "openroute"%string ->
    reply = Response 200 (Some data) ->
    contains "routes" data = Some true ->
    getitem "routes" data = Some routes ->
    truthy routes = true ->
    openroute_route_data routes = Some r ->
    Answers self reply r.

(** What a request from [start_coords] to [end_coords] comes to, [reply]
    being what the network answers if a request is sent: the route of
    the provider when it answers; otherwise what the simulator does, a
    route when the straight-line distance can be computed and the
    [ValueError] of [math.sqrt] ([None]) when it cannot. *)
Inductive Resolved (self : RoutingAPI) (start_coords end_coords : Coord F)
  (reply : HttpReply F) : option (Route F) -> Prop :=
| from_provider (r : Route F) :
    Answers self reply r ->
    Resolved self start_coords end_coords reply (Some r)
| from_simulator (distance_km : F) (path : list (Coord F)) :
    (forall r, ~ Answers self reply r) ->
    _haversine_distance math start_coords end_coords = Some distance_km ->
    Resolved self start_coords end_coords reply
      (Some (simulated_route distance_km path))
| simulator_raises :
    (forall r, ~ Answers self reply r) ->
    _haversine_distance math start_coords end_coords = None ->
    Resolved self start_coords end_coords reply None.
End RoutingVocabulary.

(** The segment count as the specification words it:
    [max(5, round(2 * straightLineDistance))], rounded to the nearest
    integer. *)
Definition spec_segments (distance_km : Q) : Z :=
  Z.max 5 (round_half_even (2 * distance_km)).

Section GoogleVocabulary.
Context {F : Type} `{PyFloat F}.

(** [data['routes'][0]['legs'][0]] *)
Definition first_leg (routes : Json F) : option (Json F) :=
  route <~ index0 routes ;;
  legs <~ getitem "legs" route ;;
  index0 legs.

(** [leg['duration']['value']] *)
Definition stated_duration (leg : Json F) : option F :=
  dur <~ getitem "duration" leg ;;
  v <~ getitem "value" dur ;;
  number v.

(** [leg['duration_in_traffic']['value']], when the document has it. *)
Definition stated_traffic (leg : Json F) : option F :=
  traffic <~ getitem "duration_in_traffic" leg ;;
  v <~ getitem "value" traffic ;;
  number v.
End GoogleVocabulary.

(** A world whose network answers every request with [reply]. *)
Definition answering {F} `{PyFloat F} {G} (reply : HttpReply F) (g : G) (t : Z)
  : World F G := {|
  w_random := g;
  w_replies := fun _ => reply;
  w_requests := 0;
  w_clock := fun k => of_int (t + Z.of_nat k);
  w_ticks := 0;
  w_calls := []
|}.

(** A Directions document whose leg takes 600 s, and 540 s in the
    current traffic. *)
Definition light_traffic_document : Json Q :=
  JObj [("status", JStr "OK");
        ("routes",
         JArr [JObj [("legs",
                      JArr [JObj [("distance", JObj [("value", JNum 5000%Q)]);
                                  ("duration", JObj [("value", JNum 600%Q)]);
                                  ("duration_in_traffic",
                                   JObj [("value", JNum 540%Q)]);
                                  ("start_address", JStr "Times Square");
                                  ("end_address", JStr "Downtown");
                                  ("steps", JArr [])]]);
                     ("overview_polyline",
                      JObj [("points", JStr "_p~iF~ps|U_ulLnnqC_mqNvxq`@")])]])]%string.

(** A client with a Google key, and one with no key at all. *)
Definition google_client : RoutingAPI :=
  RoutingAPI_init "google" (Some "a-key"%string) (fun _ => None).
Definition unconfigured_client : RoutingAPI :=
  RoutingAPI_init "google" None (fun _ => None).
Definition unconfigured_geocoder : GeocodingAPI :=
  GeocodingAPI_init None None (fun _ => None).

(** An adapter fails in a world: it raises, or it returns [None]. *)
Definition adapter_fails {F G A} (run : M F G (option A)) (w : World F G) : Prop :=
  fst (run w) = None \/ fst (run w) = Some None.

Section GeocodeVocabulary.
Context {F : Type} `{PyFloat F} {G : Type}.

(** How [geocode] goes through its chain of providers from the world
    [w] on: a provider that fails, by raising or by returning [None], is
    passed over and the next one is asked in the world the failed one
    left; the first result is returned with the provider's name; at the
    end of the chain the result is [None]. *)
Inductive Advances (location_query : string) (country_hint : option string)
  : list (string * Adapter (F := F) (G := G)) -> World F G ->
    option (GeocodeResult F) -> World F G -> Prop :=
| chain_exhausted (w : World F G) :
    Advances location_query country_hint [] w None w
| provider_answers (name : string) (f : Adapter) rest
    (w w1 : World F G) (r : GeocodeResult F) :
    f location_query country_hint w = (Some (Some r), w1) ->
    Advances location_query country_hint ((name, f) :: rest) w
      (Some (set_provider name r)) w1
| provider_fails (name : string) (f : Adapter) rest
    (w w' : World F G) (res : option (GeocodeResult F)) :
    adapter_fails (f location_query country_hint) w ->
    Advances location_query country_hint rest
      (snd (f location_query country_hint w)) res w' ->
    Advances location_query country_hint ((name, f) :: rest) w res w'.
End GeocodeVocabulary.

Section ResponderVocabulary.
Context {F : Type} `{PyFloat F} `{PyBuiltins F}.
Context (math : MathModule F) {G : Type} (random : RandomModule F G).

(** One call of [get_optimal_route] per responder, in list order. *)
Fixpoint resolve_all (self : RoutingAPI) (emergency_coords : Coord F)
  (responder_locations : list (Coord F)) : M F G (list (Route F)) :=
  match responder_locations with
  | [] => ret []
  | responder_coords :: rest =>
      route <- get_optimal_route math random self responder_coords
                 emergency_coords "driving" "time" ;;
      routes <- resolve_all self emergency_coords rest ;;
      ret (route :: routes)
  end.

(** The choice the loop of [find_nearest_responder] makes among routes
    already resolved. *)
Fixpoint select (responder_locations : list (Coord F)) (routes : list (Route F))
  (i : Z) (nearest : option (Z * Coord F * Route F)) (min_distance : option F)
  : option (Z * Coord F * Route F) :=
  match responder_locations, routes with
  | responder_coords :: rest, route :: routes' =>
      if below (distance route) min_distance then
        select rest routes' (i + 1) (Some (i, responder_coords, route))
          (Some (distance route))
      else select rest routes' (i + 1) nearest min_distance
  | _, _ => nearest
  end.

(** [traffic-adjusted duration if present, else plain duration] *)
Definition eta_duration (r : Route F) : F :=
  match duration_in_traffic r with
  | Some d => d
  | None => duration r
  end.
End ResponderVocabulary.

(** The responders of the test in [routing_api.py]. *)
Definition responders : list (Coord Q) :=
  [(40.7500, -73.9900); (40.7300, -74.0100); (40.7700, -73.9700)]%Q.

Definition offline_world : World Q Z := offline 42 0.

(** Two weather records that agree in every field but the timestamp. *)
Definition same_but_timestamp {F} (r1 r2 : Weather F) : Prop :=
  temperature r1 = temperature r2
  /\ feels_like r1 = feels_like r2
  /\ humidity r1 = humidity r2
  /\ pressure r1 = pressure r2
  /\ wind_speed r1 = wind_speed r2
  /\ wind_direction r1 = wind_direction r2
  /\ cloudiness r1 = cloudiness r2
  /\ precipitation r1 = precipitation r2
  /\ weather_main r1 = weather_main r2
  /\ weather_description r1 = weather_description r2
  /\ visibility r1 = visibility r2
  /\ weather_simulated r1 = weather_simulated r2.

(** Lagos, at midnight and one second later. *)
Definition lagos : Coord Q := (6.5244, 3.3792)%Q.
Definition midnight : World Q Z := offline 42 1704067200.
Definition a_second_later : World Q Z := offline 42 1704067201.

Section WeatherVocabulary.
Context {F G : Type}.

(** Two runs of a computation that start with the generator in the same
    state both return, with results related by [R] (which may refer to
    what the clock reads at the start of each run), and leave the
    generator in the same state. *)
Definition in_step {A} (m : M F G A) (R : F -> F -> A -> A -> Prop) : Prop :=
  forall w1 w2 : World F G,
    w_random w1 = w_random w2 ->
    exists a1 a2 w1' w2',
      m w1 = (Some a1, w1') /\ m w2 = (Some a2, w2')
      /\ R (w_clock w1 (w_ticks w1)) (w_clock w2 (w_ticks w2)) a1 a2
      /\ w_random w1' = w_random w2'.

(** A computation that does not read the clock. *)
Definition keeps_clock {A} (m : M F G A) : Prop :=
  forall w a w',
    m w = (Some a, w') -> w_clock w' = w_clock w /\ w_ticks w' = w_ticks w.

(** The same but for the timestamps, which are [t1] and [t2]. *)
Definition stamped (t1 t2 : F) (r1 r2 : Weather F) : Prop :=
  same_but_timestamp r1 r2 /\ timestamp r1 = t1 /\ timestamp r2 = t2.
End WeatherVocabulary.

(** What a request of the client leaves behind: one more request on the
    network, the generator moved. *)
Definition after_request {F G} (w w' : World F G) : Prop :=
  w_replies w' = w_replies w /\ w_clock w' = w_clock w
  /\ w_ticks w' = w_ticks w /\ w_calls w' = w_calls w.

(** ** WeatherAPI: the client *)

Record WeatherAPI : Type := {
  weather_api_key : string;
  weather_enabled : bool
}.

(** [WeatherAPI.__init__] *)
Definition WeatherAPI_init (api_key : option string)
  (getenv : string -> option string) : WeatherAPI :=
  let key := key_or_env api_key getenv "OPENWEATHER_API_KEY"
               "YOUR_OPENWEATHER_API_KEY_HERE" in
  {| weather_api_key := key;
     weather_enabled := negb (String.eqb key "YOUR_OPENWEATHER_API_KEY_HERE") |}.

(** The dictionary [get_current_weather] builds from the provider's
    document: its values, but for the timestamp, are passed on as they
    are. *)
Record Observation (F : Type) : Type := {
  obs_temperature : Json F;
  obs_feels_like : Json F;
  obs_humidity : Json F;
  obs_pressure : Json F;
  obs_wind_speed : Json F;
  obs_wind_direction : Json F;
  obs_cloudiness : Json F;
  obs_precipitation : Json F;
  obs_weather_main : Json F;
  obs_weather_description : Json F;
  obs_visibility : Json F;
  obs_timestamp : F
}.
Arguments obs_temperature {F}. Arguments obs_feels_like {F}.
Arguments obs_humidity {F}. Arguments obs_pressure {F}.
Arguments obs_wind_speed {F}. Arguments obs_wind_direction {F}.
Arguments obs_cloudiness {F}. Arguments obs_precipitation {F}.
Arguments obs_weather_main {F}. Arguments obs_weather_description {F}.
Arguments obs_visibility {F}. Arguments obs_timestamp {F}.

(** What [get_current_weather] returns: the provider's observation, or
    the simulator's record (the one with the key ['simulated']). *)
Inductive CurrentWeather (F : Type) : Type :=
| Observed (o : Observation F)
| Simulated (s : Weather F).
Arguments Observed {F}. Arguments Simulated {F}.

(** One point of the forecast, from the provider and from the
    simulator. *)
Record ForecastObservation (F : Type) : Type := {
  fo_datetime : F;
  fo_temperature : Json F;
  fo_humidity : Json F;
  fo_pressure : Json F;
  fo_wind_speed : Json F;
  fo_precipitation : Json F;
  fo_weather_main : Json F;
  fo_weather_description : Json F
}.
Arguments fo_datetime {F}. Arguments fo_temperature {F}.
Arguments fo_humidity {F}. Arguments fo_pressure {F}.
Arguments fo_wind_speed {F}. Arguments fo_precipitation {F}.
Arguments fo_weather_main {F}. Arguments fo_weather_description {F}.

Record ForecastPoint (F : Type) : Type := {
  fp_datetime : F;
  fp_temperature : F;
  fp_humidity : Z;
  fp_pressure : Z;
  fp_wind_speed : F;
  fp_precipitation : F;
  fp_weather_main : string;
  fp_weather_description : string;
  fp_simulated : bool
}.
Arguments fp_datetime {F}. Arguments fp_temperature {F}.
Arguments fp_humidity {F}. Arguments fp_pressure {F}.
Arguments fp_wind_speed {F}. Arguments fp_precipitation {F}.
Arguments fp_weather_main {F}. Arguments fp_weather_description {F}.
Arguments fp_simulated {F}.

Inductive Forecast (F : Type) : Type :=
| ObservedForecast (l : list (ForecastObservation F))
| SimulatedForecast (l : list (ForecastPoint F)).
Arguments ObservedForecast {F}. Arguments SimulatedForecast {F}.

(** The air quality, from the provider and from the simulator. *)
Record AirObservation (F : Type) : Type := {
  ao_aqi : Json F;
  ao_co : Json F;
  ao_no2 : Json F;
  ao_o3 : Json F;
  ao_pm2_5 : Json F;
  ao_pm10 : Json F
}.
Arguments ao_aqi {F}. Arguments ao_co {F}. Arguments ao_no2 {F}.
Arguments ao_o3 {F}. Arguments ao_pm2_5 {F}. Arguments ao_pm10 {F}.

Record AirSimulation (F : Type) : Type := {
  as_aqi : Z;
  as_co : F;
  as_no2 : F;
  as_o3 : F;
  as_pm2_5 : F;
  as_pm10 : F;
  as_simulated : bool
}.
Arguments as_aqi {F}. Arguments as_co {F}. Arguments as_no2 {F}.
Arguments as_o3 {F}. Arguments as_pm2_5 {F}. Arguments as_pm10 {F}.
Arguments as_simulated {F}.

Inductive AirQuality (F : Type) : Type :=
| ObservedAir (o : AirObservation F)
| SimulatedAir (s : AirSimulation F).
Arguments ObservedAir {F}. Arguments SimulatedAir {F}.

(** [l[:k]] *)
Definition slice_until {A : Type} (k : Z) (l : list A) : list A :=
  if 0 <=? k then firstn (Z.to_nat k) l
  else firstn (Z.to_nat (Z.of_nat (List.length l) + k)) l.

(** [j[:k]] *)
Definition json_slice_until {F} (k : Z) (j : Json F) : option (Json F) :=
  match j with
  | JArr l => Some (JArr (slice_until k l))
  | JStr s => Some (JStr (string_of_list_ascii
                            (slice_until k (list_ascii_of_string s))))
  | _ => None
  end.

Section WeatherClient.
Context {F : Type} `{PyFloat F} `{PyBuiltins F}.
Context {G : Type} (random : RandomModule F G).
(** [random.choice(seq)] *)
Context (choice : list string -> G -> string * G).
(** [datetime.fromtimestamp(t)], kept as the time it renders; [None]
    when [t] is out of the range of [datetime]. *)
Context (fromtimestamp : F -> option F).

Local Open Scope py_scope.
Local Abbreviation Mo := (M F G).

(** The dictionary built from the document of the current weather. *)
Definition current_weather_data (data : Json F) : option (Observation F) :=
  main <~ getitem "main" data ;;
  temp <~ getitem "temp" main ;;
  feels <~ getitem "feels_like" main ;;
  humidity <~ getitem "humidity" main ;;
  pressure <~ getitem "pressure" main ;;
  wind <~ getitem "wind" data ;;
  speed <~ getitem "speed" wind ;;
  deg <~ get_default "deg" (JNum (of_int 0)) wind ;;
  clouds <~ getitem "clouds" data ;;
  cloudiness <~ getitem "all" clouds ;;
  rain <~ get_default "rain" (JObj []) data ;;
  rain <~ get_default "1h" (JNum (of_int 0)) rain ;;
  weather <~ getitem "weather" data ;;
  weather <~ index0 weather ;;
  weather_main <~ getitem "main" weather ;;
  description <~ getitem "description" weather ;;
  visibility <~ get_default "visibility" (JNum (of_int 10000)) data ;;
  dt <~ getitem "dt" data ;;
  dt <~ number dt ;;
  stamp <~ fromtimestamp dt ;;
  Some {| obs_temperature := temp;
          obs_feels_like := feels;
          obs_humidity := humidity;
          obs_pressure := pressure;
          obs_wind_speed := speed;
          obs_wind_direction := deg;
          obs_cloudiness := cloudiness;
          obs_precipitation := rain;
          obs_weather_main := weather_main;
          obs_weather_description := description;
          obs_visibility := visibility;
          obs_timestamp := stamp |}.

Definition get_current_weather (self : WeatherAPI) (latitude longitude : F)
  : Mo (CurrentWeather F) :=
  if negb (weather_enabled self) then
    s <- _get_simulated_weather random latitude longitude ;; ret (Simulated s)
  else
    try_except
      (response <- http_request ;;
       match response with
       | NoResponse => raise
       | Response status_code json =>
           if (status_code =? 200)%Z then
             data <- lift json ;;
             o <- lift (current_weather_data data) ;;
             ret (Observed o)
           else
             s <- _get_simulated_weather random latitude longitude ;;
             ret (Simulated s)
       end)
      (s <- _get_simulated_weather random latitude longitude ;;
       ret (Simulated s)).

(** The body of [for i in range(days * 8)] of [_get_simulated_forecast],
    [n] iterations from [i] on. *)
Fixpoint simulated_forecast_loop (latitude longitude : F) (n : nat) (i : Z)
  : Mo (list (ForecastPoint F)) :=
  match n with
  | O => ret []
  | S n =>
      let hour_offset := (i * 3)%Z in
      t <- now ;;
      let forecast_time := t + of_int (hour_offset * 3600) in
      let seed0 := py_int ((latitude + of_int 90) * of_int 1000
                           + (longitude + of_int 180) * of_int 1000
                           + of_int i) in
      reseed (seed random seed0) ;;;
      let base_temp := of_int 25 - py_abs latitude * lit 4 1 in
      temp_variation <- draw (uniform random (of_int (-5)) (of_int 5)) ;;
      stamp <- lift (fromtimestamp forecast_time) ;;
      humidity <- draw (randint random 40 90) ;;
      pressure <- draw (randint random 1000 1025) ;;
      wind <- draw (uniform random (of_int 0) (of_int 20)) ;;
      rain <- draw (uniform random (of_int 0) (of_int 5)) ;;
      weather_main <- draw (choice ["Clear"; "Clouds"; "Rain"]%string) ;;
      forecast <- simulated_forecast_loop latitude longitude n (i + 1)%Z ;;
      ret ({| fp_datetime := stamp;
              fp_temperature := py_round (base_temp + temp_variation) 1;
              fp_humidity := humidity;
              fp_pressure := pressure;
              fp_wind_speed := py_round wind 1;
              fp_precipitation := py_round rain 1;
              fp_weather_main := weather_main;
              fp_weather_description := "simulated";
              fp_simulated := true |} :: forecast)
  end.

Definition _get_simulated_forecast (latitude longitude : F) (days : Z)
  : Mo (list (ForecastPoint F)) :=
  simulated_forecast_loop latitude longitude (Z.to_nat (days * 8)) 0%Z.

(** One entry of the forecast list of the provider. *)
Definition forecast_item (item : Json F) : option (ForecastObservation F) :=
  dt <~ getitem "dt" item ;;
  dt <~ number dt ;;
  stamp <~ fromtimestamp dt ;;
  main <~ getitem "main" item ;;
  temp <~ getitem "temp" main ;;
  humidity <~ getitem "humidity" main ;;
  pressure <~ getitem "pressure" main ;;
  wind <~ getitem "wind" item ;;
  speed <~ getitem "speed" wind ;;
  rain <~ get_default "rain" (JObj []) item ;;
  rain <~ get_default "3h" (JNum (of_int 0)) rain ;;
  weather <~ getitem "weather" item ;;
  weather <~ index0 weather ;;
  weather_main <~ getitem "main" weather ;;
  description <~ getitem "description" weather ;;
  Some {| fo_datetime := stamp;
          fo_temperature := temp;
          fo_humidity := humidity;
          fo_pressure := pressure;
          fo_wind_speed := speed;
          fo_precipitation := rain;
          fo_weather_main := weather_main;
          fo_weather_description := description |}.

(** [for item in data['list'][:days * 8]] *)
Definition forecast_data (days : Z) (data : Json F)
  : option (list (ForecastObservation F)) :=
  items <~ getitem "list" data ;;
  items <~ json_slice_until (days * 8) items ;;
  items <~ iterate items ;;
  traverse forecast_item items.

Definition get_forecast (self : WeatherAPI) (latitude longitude : F) (days : Z)
  : Mo (Forecast F) :=
  if negb (weather_enabled self) then
    l <- _get_simulated_forecast latitude longitude days ;;
    ret (SimulatedForecast l)
  else
    try_except
      (response <- http_request ;;
       match response with
       | NoResponse => raise
       | Response status_code json =>
           if (status_code =? 200)%Z then
             data <- lift json ;;
             l <- lift (forecast_data days data) ;;
             ret (ObservedForecast l)
           else
             l <- _get_simulated_forecast latitude longitude days ;;
             ret (SimulatedForecast l)
       end)
      (l <- _get_simulated_forecast latitude longitude days ;;
       ret (SimulatedForecast l)).

Definition _get_simulated_air_quality : Mo (AirSimulation F) :=
  aqi <- draw (randint random 1 5) ;;
  co <- draw (uniform random (of_int 200) (of_int 400)) ;;
  no2 <- draw (uniform random (of_int 10) (of_int 50)) ;;
  o3 <- draw (uniform random (of_int 20) (of_int 80)) ;;
  pm2_5 <- draw (uniform random (of_int 5) (of_int 35)) ;;
  pm10 <- draw (uniform random (of_int 10) (of_int 50)) ;;
  ret {| as_aqi := aqi; as_co := co; as_no2 := no2; as_o3 := o3;
         as_pm2_5 := pm2_5; as_pm10 := pm10; as_simulated := true |}.

(** The dictionary built from [data['list'][0]]. *)
Definition air_quality_data (data : Json F) : option (AirObservation F) :=
  items <~ getitem "list" data ;;
  first <~ index0 items ;;
  main <~ getitem "main" first ;;
  aqi <~ getitem "aqi" main ;;
  components <~ getitem "components" first ;;
  co <~ getitem "co" components ;;
  no2 <~ getitem "no2" components ;;
  o3 <~ getitem "o3" components ;;
  pm2_5 <~ getitem "pm2_5" components ;;
  pm10 <~ getitem "pm10" components ;;
  Some {| ao_aqi := aqi; ao_co := co; ao_no2 := no2; ao_o3 := o3;
          ao_pm2_5 := pm2_5; ao_pm10 := pm10 |}.

Definition get_air_quality (self : WeatherAPI) (latitude longitude : F)
  : Mo (AirQuality F) :=
  if negb (weather_enabled self) then
    s <- _get_simulated_air_quality ;; ret (SimulatedAir s)
  else
    try_except
      (response <- http_request ;;
       match response with
       | NoResponse => raise
       | Response status_code json =>
           if (status_code =? 200)%Z then
             data <- lift json ;;
             o <- lift (air_quality_data data) ;;
             ret (ObservedAir o)
           else
             s <- _get_simulated_air_quality ;; ret (SimulatedAir s)
       end)
      (s <- _get_simulated_air_quality ;; ret (SimulatedAir s)).
End WeatherClient.

(** ** GeocodingAPI: reverse geocoding *)

(** The dictionary of [reverse_geocode]; it gets no ['provider']. *)
Record ReverseResult (F : Type) : Type := {
  rev_formatted_address : Json F;
  rev_city : Json F;
  rev_country : Json F
}.
Arguments rev_formatted_address {F}. Arguments rev_city {F}.
Arguments rev_country {F}.

Section ReverseGeocoding.
Context {F : Type} `{PyFloat F}.
Context {G : Type}.

Local Abbreviation Mo := (M F G).

Definition _reverse_geocode_nominatim (latitude longitude : F)
  : Mo (option (ReverseResult F)) :=
  response <- http_request ;;
  match response with
  | NoResponse => raise
  | Response status_code json =>
      if (status_code =? 200)%Z then
        data <- lift json ;;
        lift (address <~ get_default "address" (JObj []) data ;;
              display <~ get_default "display_name" (JStr "") data ;;
              town <~ get_default "town" (JStr "") address ;;
              city <~ get_default "city" town address ;;
              country <~ get_default "country" (JStr "") address ;;
              Some (Some {| rev_formatted_address := display;
                            rev_city := city;
                            rev_country := country |}))
      else ret None
  end.

Definition _reverse_geocode_google (latitude longitude : F)
  : Mo (option (ReverseResult F)) :=
  response <- http_request ;;
  match response with
  | NoResponse => raise
  | Response status_code json =>
      if (status_code =? 200)%Z then
        data <- lift json ;;
        status <- lift (getitem "status" data) ;;
        if is_str "OK" status then
          results <- lift (getitem "results" data) ;;
          if truthy results then
            lift (result <~ index0 results ;;
                  comps <~ getitem "address_components" result ;;
                  comps <~ iterate comps ;;
                  address_components <~ traverse component_pair comps ;;
                  formatted <~ getitem "formatted_address" result ;;
                  Some (Some {| rev_formatted_address := formatted;
                                rev_city := components_get "locality" (JStr "")
                                              address_components;
                                rev_country := components_get "country" (JStr "")
                                                 address_components |}))
          else ret None
        else ret None
      else ret None
  end.

Definition _reverse_geocode_opencage (latitude longitude : F)
  : Mo (option (ReverseResult F)) :=
  response <- http_request ;;
  match response with
  | NoResponse => raise
  | Response status_code json =>
      if (status_code =? 200)%Z then
        data <- lift json ;;
        results <- lift (getitem "results" data) ;;
        if truthy results then
          lift (result <~ index0 results ;;
                components <~ getitem "components" result ;;
                formatted <~ getitem "formatted" result ;;
                town <~ get_default "town" (JStr "") components ;;
                city <~ get_default "city" town components ;;
                country <~ get_default "country" (JStr "") components ;;
                Some (Some {| rev_formatted_address := formatted;
                              rev_city := city;
                              rev_country := country |}))
        else ret None
      else ret None
  end.

(** [if enabled: try: return adapter(...) / except: pass], followed by
    [rest]: what the adapter returns is returned, [None] included; only
    an exception leads on. *)
Definition return_or_pass {A} (enabled : bool) (adapter rest : Mo A) : Mo A :=
  if enabled then try_except adapter rest else rest.

Definition reverse_geocode (self : GeocodingAPI) (latitude longitude : F)
  : Mo (option (ReverseResult F)) :=
  return_or_pass (google_enabled self)
    (_reverse_geocode_google latitude longitude)
    (return_or_pass (opencage_enabled self)
       (_reverse_geocode_opencage latitude longitude)
       (return_or_pass true
          (_reverse_geocode_nominatim latitude longitude)
          (ret None))).
End ReverseGeocoding.

(** ** The vocabulary of the further properties *)

(** [s[:-1]]: the string without its last character. *)
Definition drop_last (s : string) : string :=
  string_of_list_ascii (removelast (list_ascii_of_string s)).

Section FurtherVocabulary.
Context {F G : Type}.

(** A computation that always returns, with a value in [P], and leaves
    the network alone: no request is sent. *)
Definition simulates {A} (m : M F G A) (P : A -> Prop) : Prop :=
  forall w : World F G,
    exists a w',
      m w = (Some a, w') /\ P a
      /\ w_requests w' = w_requests w /\ w_replies w' = w_replies w.

(** [random.randint(a, b)] lies between its bounds, as the library
    documents it. *)
Definition randint_in_range (random : RandomModule F G) : Prop :=
  forall a b g, a <= b -> a <= fst (randint random a b g) <= b.
End FurtherVocabulary.

(** ** Vocabulary of the geocoder's properties *)

(** An adapter sends its request and does nothing else to the count of
    requests, whatever it returns. *)
Definition one_request {F} `{PyFloat F} {G}
  (run : M F G (option (GeocodeResult F))) : Prop :=
  forall w, w_requests (snd (run w)) = S (w_requests w).

(** What the result of [geocode] says of the provider it came from. *)
Definition google_answer {F} `{PyFloat F} (r : GeocodeResult F) : Prop :=
  provider r = Some "google"%string
  /\ confidence r = JStr "high"
  /\ slice2 (country r) = Some (country_code r).

Definition opencage_answer {F} `{PyFloat F} (r : GeocodeResult F) : Prop :=
  provider r = Some "opencage"%string
  /\ exists s, country_code r = JStr (upper s).

Definition nominatim_answer {F} `{PyFloat F} (r : GeocodeResult F) : Prop :=
  provider r = Some "nominatim"%string
  /\ confidence r = JStr "medium"
  /\ (exists x y, latitude r = JNum x /\ longitude r = JNum y)
  /\ exists s, country_code r = JStr (upper s).

(** A Nominatim document for Lagos, with the country code in lower
    case as the service sends it. *)
Definition lagos_document : Json Q :=
  JArr [JObj [("lat", JNum (6.4550575)%Q); ("lon", JNum (3.3941795)%Q);
              ("display_name", JStr "Lagos, Nigeria");
              ("address", JObj [("city", JStr "Lagos");
                                ("country", JStr "Nigeria");
                                ("country_code", JStr "ng")])]]%string.

Definition no_float : string -> option Q := fun _ => None.

(** The world in which every request is answered with that document. *)
Definition lagos_world : World Q Z :=
  answering (Response 200 (Some lagos_document)) 42 0.

(** ** Vocabulary of the weather client's properties *)

(** [datetime.fromtimestamp] that renders every time. *)
Definition renders_all {F} (fromtimestamp : F -> option F) : Prop :=
  forall t, fromtimestamp t <> None.

(** The precipitation that goes with a kind of weather, before and
    after rounding to one decimal. *)
Definition precipitation_for (weather_main : string) (p : Q) : Prop :=
  if String.eqb weather_main "Rain" then (2 <= p <= 15)%Q
  else if String.eqb weather_main "Drizzle" then ((1 # 2) <= p <= 2)%Q
  else if String.eqb weather_main "Thunderstorm" then (10 <= p <= 30)%Q
  else (p == 0)%Q.

(** The ranges of a simulated weather record at a latitude. *)
Definition plausible_weather (latitude : Q) (r : Weather Q) : Prop :=
  (Qabs (temperature r - (25 - Qabs latitude * (4 # 10))) <= 5 + (1 # 20))%Q
  /\ (Qabs (feels_like r - temperature r) <= 2 + (1 # 10))%Q
  /\ 40 <= humidity r <= 90
  /\ 1000 <= pressure r <= 1025
  /\ (0 <= wind_speed r <= 20)%Q
  /\ 0 <= wind_direction r <= 360
  /\ 0 <= cloudiness r <= 100
  /\ precipitation_for (weather_main r) (precipitation r)
  /\ weather_description r = lower (weather_main r)
  /\ 5000 <= visibility r <= 10000
  /\ weather_simulated r = true.

(** Two points of a simulated forecast that agree in every field but
    the time. *)
Definition same_but_datetime {F} (p q : ForecastPoint F) : Prop :=
  fp_temperature p = fp_temperature q
  /\ fp_humidity p = fp_humidity q
  /\ fp_pressure p = fp_pressure q
  /\ fp_wind_speed p = fp_wind_speed q
  /\ fp_precipitation p = fp_precipitation q
  /\ fp_weather_main p = fp_weather_main q
  /\ fp_weather_description p = fp_weather_description q
  /\ fp_simulated p = fp_simulated q.

(** Two computations run side by side, each in its own world: when the
    states of the generator are [related] at the start, both return,
    with results related by [R], and leave the generator in the same
    state. *)
Definition agree {F G A} (related : G -> G -> Prop) (m1 m2 : M F G A)
  (R : A -> A -> Prop) : Prop :=
  forall w1 w2 : World F G,
    related (w_random w1) (w_random w2) ->
    exists a1 a2 w1' w2',
      m1 w1 = (Some a1, w1') /\ m2 w2 = (Some a2, w2')
      /\ R a1 a2 /\ w_random w1' = w_random w2'.

(** [random.choice] for the stand-in generator. *)
Definition lcg_choice (population : list string) (g : Z) : string * Z :=
  (nth (Z.to_nat (lcg_next g mod Z.of_nat (List.length population)))
     population EmptyString, lcg_next g).

(** A clock that every time can be rendered from. *)
Definition render : Q -> option Q := Some.

(** A client with a key. *)
Definition keyed_weather : WeatherAPI :=
  WeatherAPI_init (Some "a-key"%string) (fun _ => None).

(** An environment in which every variable is set, and empty. *)
Definition empty_environment : string -> option string :=
  fun _ => Some ""%string.

(** Another world: the generator elsewhere, the clock a day later. *)
Definition another_day : World Q Z := offline 7 1704153600.

(** ** Worlds of the Google adapter *)

(** The network answers with the Directions document of the light
    traffic. *)
Definition google_world : World Q Z :=
  answering (Response 200 (Some light_traffic_document)) 42 0.

(** The same document with the polyline as a list of one-character
    strings. *)
Definition listed_polyline_document : Json Q :=
  JObj [("status", JStr "OK");
        ("routes",
         JArr [JObj [("legs",
                      JArr [JObj [("distance", JObj [("value", JNum 5000%Q)]);
                                  ("duration", JObj [("value", JNum 600%Q)]);
                                  ("start_address", JStr "Times Square");
                                  ("end_address", JStr "Downtown");
                                  ("steps", JArr [])]]);
                     ("overview_polyline",
                      JObj [("points",
                             JArr (map (fun c => JStr (String c EmptyString))
                                     (list_ascii_of_string
                                        "_p~iF~ps|U_ulLnnqC_mqNvxq`@")))])]])]%string.

Definition listed_polyline_world : World Q Z :=
  answering (Response 200 (Some listed_polyline_document)) 42 0.

(** * The polyline codec *)

Lemma ord_chr (n : Z) : 0 <= n < 256 -> ord (chr n) = n.
Proof.
  intros Hn. unfold ord, chr.
  rewrite N_ascii_embedding by lia. lia.
Qed.

Lemma lor_disjoint (a b : Z) : Z.land a b = 0 -> Z.lor a b = a + b.
Proof.
  intros Hd. rewrite Z.add_nocarry_lxor by exact Hd.
  symmetry. apply Z.lxor_lor. exact Hd.
Qed.

(** Writing a group above the bits already read is an addition. *)
Lemma lor_shiftl_add (acc x shift : Z) :
  0 <= shift -> 0 <= acc < 2 ^ shift ->
  Z.lor acc (Z.shiftl x shift) = acc + x * 2 ^ shift.
Proof.
  intros Hs Hacc. rewrite lor_disjoint.
  - now rewrite Z.shiftl_mul_pow2.
  - apply Z.bits_inj'. intros n Hn.
    rewrite Z.land_spec, Z.bits_0.
    destruct (Z.lt_ge_cases n shift) as [Hlt | Hge].
    + rewrite Z.shiftl_spec_low by exact Hlt. apply andb_false_r.
    + replace (Z.testbit acc n) with false; [reflexivity|].
      symmetry. destruct (Z.eq_dec acc 0) as [-> | Hnz]; [apply Z.bits_0|].
      apply Z.bits_above_log2; [lia|].
      apply Z.log2_lt_pow2; [lia|].
      pose proof (Z.pow_le_mono_r 2 shift n ltac:(lia) Hge). lia.
Qed.

Lemma land31 (v : Z) : Z.land v 31 = v mod 32.
Proof. change 31 with (Z.ones 5). now rewrite Z.land_ones by lia. Qed.

Lemma lor32 (v : Z) : Z.lor 32 (Z.land v 31) = 32 + v mod 32.
Proof.
  rewrite land31. apply lor_disjoint.
  apply Z.bits_inj'. intros n Hn. rewrite Z.land_spec, Z.bits_0.
  destruct (Z.eq_dec n 5) as [-> | Hne].
  - change 32 with (2 ^ 5) at 2. rewrite Z.mod_pow2_bits_high by lia.
    apply andb_false_r.
  - replace (Z.testbit 32 n) with false; [reflexivity|].
    change 32 with (2 ^ 5). symmetry. apply Z.pow2_bits_false. lia.
Qed.

Lemma low5 (v : Z) : Z.land (Z.lor 32 (Z.land v 31)) 31 = v mod 32.
Proof.
  rewrite lor32, land31.
  replace (32 + v mod 32) with (v mod 32 + 1 * 32) by lia.
  rewrite Z.mod_add by lia. apply Z.mod_mod. lia.
Qed.

Lemma continuation (v : Z) : 32 <= Z.lor 32 (Z.land v 31) < 64.
Proof.
  rewrite lor32. pose proof (Z.mod_pos_bound v 32). lia.
Qed.

(** Reading back what [encode_chunks] wrote: the groups of [v] land above
    the [shift] bits read before. *)
Lemma read_encode_chunks (fuel : nat) :
  forall v shift acc rest,
    0 <= v < 32 * 2 ^ Z.of_nat fuel -> 0 <= shift -> 0 <= acc < 2 ^ shift ->
    read_chunks (encode_chunks fuel v ++ rest) shift acc
    = Some (acc + v * 2 ^ shift, rest).
Proof.
  induction fuel as [| fuel IH]; intros v shift acc rest Hv Hs Hacc.
  - cbn [encode_chunks app read_chunks].
    change (2 ^ Z.of_nat 0) with 1 in Hv.
    rewrite ord_chr by lia. replace (v + 63 - 63) with v by lia.
    rewrite land31, Z.mod_small by lia.
    rewrite lor_shiftl_add by lia.
    destruct (Z.ltb_spec v 32); [reflexivity | lia].
  - cbn [encode_chunks]. destruct (Z.ltb_spec v 32) as [Hlt | Hge].
    + cbn [app read_chunks]. rewrite ord_chr by lia.
      replace (v + 63 - 63) with v by lia.
      rewrite land31, Z.mod_small by lia.
      rewrite lor_shiftl_add by lia.
      destruct (Z.ltb_spec v 32); [reflexivity | lia].
    + pose proof (continuation v) as Hc.
      cbn [app read_chunks]. rewrite ord_chr by lia.
      replace (Z.lor 32 (Z.land v 31) + 63 - 63) with (Z.lor 32 (Z.land v 31)) by lia.
      rewrite low5.
      destruct (Z.ltb_spec (Z.lor 32 (Z.land v 31)) 32) as [Hbad | _]; [lia|].
      rewrite lor_shiftl_add by lia.
      assert (Hpow : 2 ^ (shift + 5) = 32 * 2 ^ shift)
        by (rewrite Z.pow_add_r by lia; change (2 ^ 5) with 32; lia).
      pose proof (Z.mod_pos_bound v 32 ltac:(lia)) as Hm.
      assert (Hp : 0 < 2 ^ shift) by (apply Z.pow_pos_nonneg; lia).
      rewrite IH.
      * f_equal. f_equal. rewrite Z.shiftr_div_pow2 by lia.
        change (2 ^ 5) with 32. rewrite Hpow.
        pose proof (Z.div_mod v 32 ltac:(lia)). nia.
      * rewrite Z.shiftr_div_pow2 by lia. change (2 ^ 5) with 32.
        rewrite Nat2Z.inj_succ, Z.pow_succ_r in Hv by lia.
        split; [apply Z.div_pos; lia|].
        apply Z.div_lt_upper_bound; lia.
      * lia.
      * rewrite Hpow. nia.
Qed.

Lemma shiftl1 (d : Z) : Z.shiftl d 1 = 2 * d.
Proof. rewrite Z.shiftl_mul_pow2 by lia. rewrite Z.pow_1_r. lia. Qed.

Lemma shiftr1 (d : Z) : Z.shiftr d 1 = d / 2.
Proof. rewrite Z.shiftr_div_pow2 by lia. now rewrite Z.pow_1_r. Qed.

Lemma lnot_minus (d : Z) : Z.lnot d = - d - 1.
Proof. unfold Z.lnot. lia. Qed.

Lemma land1 (d : Z) : Z.land d 1 = d mod 2.
Proof. change 1 with (Z.ones 1). rewrite Z.land_ones by lia. now rewrite Z.pow_1_r. Qed.

Lemma zigzag_nonneg (d : Z) : 0 <= zigzag d.
Proof.
  unfold zigzag. rewrite lnot_minus, shiftl1. destruct (Z.ltb_spec d 0); lia.
Qed.

Lemma unzigzag_zigzag (d : Z) : unzigzag (zigzag d) = d.
Proof.
  unfold unzigzag, zigzag. rewrite land1, !shiftr1, !lnot_minus, shiftl1.
  destruct (Z.ltb_spec d 0) as [Hneg | Hpos].
  - replace (- (2 * d) - 1) with (1 + (- d - 1) * 2) by lia.
    rewrite Z.mod_add, Z.div_add by lia. cbn. lia.
  - replace (2 * d) with (d * 2) by lia.
    rewrite Z.mod_mul, Z.div_mul by lia. reflexivity.
Qed.

Lemma read_encode_value (d : Z) (rest : list ascii) :
  read_chunks (encode_value d ++ rest) 0 0 = Some (zigzag d, rest).
Proof.
  unfold encode_value. pose proof (zigzag_nonneg d) as Hz.
  rewrite read_encode_chunks.
  - f_equal. f_equal. change (2 ^ 0) with 1. lia.
  - split; [exact Hz|].
    destruct (Z.eq_dec (zigzag d) 0) as [-> | Hnz].
    + cbn. lia.
    + rewrite Z2Nat.id by apply Z.log2_nonneg.
      pose proof (Z.log2_spec (zigzag d) ltac:(lia)) as [_ Hup].
      rewrite Z.pow_succ_r in Hup by apply Z.log2_nonneg.
      assert (0 < 2 ^ Z.log2 (zigzag d)) by (apply Z.pow_pos_nonneg; [lia | apply Z.log2_nonneg]).
      lia.
  - lia.
  - cbn. lia.
Qed.

Lemma encode_chunks_cons (fuel : nat) (v : Z) :
  exists c cs, encode_chunks fuel v = c :: cs.
Proof.
  destruct fuel; cbn [encode_chunks]; [eauto|].
  destruct (v <? 32); eauto.
Qed.

Lemma read_chunks_shorter (s : list ascii) :
  forall shift acc r rest,
    read_chunks s shift acc = Some (r, rest) -> (List.length rest < List.length s)%nat.
Proof.
  induction s as [| c s IH]; intros shift acc r rest Hr; cbn in Hr; [discriminate|].
  destruct (ord c - 63 <? 32).
  - injection Hr as _ <-. cbn. lia.
  - apply IH in Hr. cbn. lia.
Qed.

Section PolylineFacts.
Context {F : Type} `{PyFloat F}.


(** Fuel beyond the length of the string changes nothing: with
    [len(polyline_str)] iterations allowed the loop always runs to its
    own end. *)
Lemma decode_loop_fuel (f1 : nat) :
  forall f2 s lat lng,
    (List.length s <= f1)%nat -> (List.length s <= f2)%nat ->
    decode_loop (F := F) f1 s lat lng = decode_loop f2 s lat lng.
Proof.
  induction f1 as [| f1 IH]; intros f2 s lat lng H1 H2.
  - destruct s; [destruct f2; reflexivity | cbn in H1; lia].
  - destruct s as [| c s]; [destruct f2; reflexivity|].
    destruct f2 as [| f2]; [cbn in H2; lia|].
    cbn [decode_loop].
    destruct (read_chunks (c :: s) 0 0) as [[r1 s1] |] eqn:E1; [|reflexivity].
    destruct (read_chunks s1 0 0) as [[r2 s2] |] eqn:E2; [|reflexivity].
    apply read_chunks_shorter in E1. apply read_chunks_shorter in E2.
    cbn [List.length] in *.
    rewrite (IH f2) by lia. reflexivity.
Qed.

Lemma decode_encode_from (pts : list (Z * Z)) :
  forall fuel lat lng,
    (List.length pts <= fuel)%nat ->
    decode_loop (F := F) fuel (encode_from lat lng pts) lat lng
    = Some (map scale pts).
Proof.
  induction pts as [| [lat' lng'] pts IH]; intros fuel lat lng Hf.
  - destruct fuel; reflexivity.
  - destruct fuel as [| fuel]; [cbn in Hf; lia|].
    cbn [encode_from].
    destruct (encode_chunks_cons (Z.to_nat (Z.log2 (zigzag (lat' - lat))))
                (zigzag (lat' - lat))) as (c & cs & Hc).
    remember (encode_value (lng' - lng) ++ encode_from lat' lng' pts) as tail.
    assert (Hs : encode_value (lat' - lat) ++ tail = c :: cs ++ tail)
      by (unfold encode_value; cbv zeta; rewrite Hc; reflexivity).
    pose proof (read_encode_value (lat' - lat) tail) as R1.
    rewrite Hs in *. cbn [decode_loop]. rewrite R1. subst tail.
    rewrite read_encode_value, !unzigzag_zigzag.
    replace (lat + (lat' - lat)) with lat' by lia.
    replace (lng + (lng' - lng)) with lng' by lia.
    rewrite IH by (cbn in Hf; lia). reflexivity.
Qed.

Lemma encode_from_length (pts : list (Z * Z)) :
  forall lat lng, (List.length pts <= List.length (encode_from lat lng pts))%nat.
Proof.
  induction pts as [| [lat' lng'] pts IH]; intros lat lng; cbn [encode_from List.length]; [lia|].
  destruct (encode_chunks_cons (Z.to_nat (Z.log2 (zigzag (lat' - lat))))
              (zigzag (lat' - lat))) as (c & cs & Hc).
  unfold encode_value at 1. cbv zeta. rewrite Hc. cbn [app List.length].
  rewrite !length_app. specialize (IH lat' lng'). lia.
Qed.

Lemma decode_encode_polyline (coords : list (Q * Q)) :
  _decode_polyline (F := F) (encode_polyline coords)
  = Some (map (fun p => scale (e5 (fst p), e5 (snd p))) coords).
Proof.
  unfold _decode_polyline, encode_polyline. cbv zeta.
  rewrite list_ascii_of_string_of_list_ascii.
  rewrite decode_encode_from by (rewrite <- encode_from_length; now rewrite length_map).
  now rewrite map_map.
Qed.
End PolylineFacts.

Lemma e5_close (x : Q) :
  (Qabs (inject_Z (e5 x) / inject_Z 100000 - x) <= 1 / 100000)%Q.
Proof.
  unfold e5.
  pose proof (Qfloor_le (x * 100000 + (1 # 2))) as Hlo.
  pose proof (Qlt_floor (x * 100000 + (1 # 2))) as Hhi.
  rewrite inject_Z_plus in Hhi.
  set (k := inject_Z (Qfloor (x * 100000 + (1 # 2)))) in *.
  apply Qabs_Qle_condition. change (inject_Z 100000) with 100000%Q.
  change (inject_Z 1) with 1%Q in Hhi.
  clearbody k. unfold Qdiv. change (/ 100000)%Q with (1 # 100000)%Q.
  split; lra.
Qed.


(** The reference example in binary64, as the interpreter computes it. *)
Example reference_polyline_binary64 :
  _decode_polyline (F := float) "_p~iF~ps|U_ulLnnqC_mqNvxq`@"
  = Some [(38.5, -120.2); (40.7, -120.95); (43.252, -126.453)]%float.
Proof. vm_compute. reflexivity. Qed.


(** C2.  [_decode_polyline] inverts the published encoder: decoding the
    encoding of any coordinate sequence gives it back within 1e-5 in
    each coordinate (the encoder rounds to 1e-5 degrees, the decoder
    recovers the rounded integers exactly); and the reference string
    decodes to (38.5, -120.2), (40.7, -120.95), (43.252, -126.453), in
    exact arithmetic and in binary64. *)
Theorem decode_polyline_published_format :
  (forall coords : list (Q * Q),
      exists decoded,
        _decode_polyline (F := Q) (encode_polyline coords) = Some decoded
        /\ Forall2 close coords decoded)
  /\ (exists decoded,
        _decode_polyline (F := Q) "_p~iF~ps|U_ulLnnqC_mqNvxq`@" = Some decoded
        /\ Forall2 same_point decoded
             [(38.5, -120.2); (40.7, -120.95); (43.252, -126.453)]%Q)
  /\ _decode_polyline (F := float) "_p~iF~ps|U_ulLnnqC_mqNvxq`@"
     = Some [(38.5, -120.2); (40.7, -120.95); (43.252, -126.453)]%float.
Proof.
  split; [| split].
  - intros coords. eexists. split; [apply decode_encode_polyline|].
    induction coords as [| [x y] coords IH]; cbn [map]; constructor; [|exact IH].
    split; cbn [fst snd scale]; apply e5_close.
  - eexists. split; [vm_compute; reflexivity|].
    repeat constructor; reflexivity.
  - vm_compute. reflexivity.
Qed.

(** C10.  On the empty string the loop body is never entered and the
    empty list is returned; nothing is raised.  It is the only string
    with that result: on any other the body runs, and appends a point or
    raises. *)
Theorem decode_polyline_empty {F : Type} `{PyFloat F} :
  _decode_polyline (F := F) "" = Some []
  /\ forall s, _decode_polyline (F := F) s = Some [] -> s = ""%string.
Proof.
  split; [reflexivity|].
  intros [| c s] Hs; [reflexivity|]. exfalso.
  unfold _decode_polyline in Hs.
  cbn [list_ascii_of_string List.length decode_loop] in Hs.
  destruct (read_chunks (c :: list_ascii_of_string s) 0 0) as [[r1 s1] |];
    [|discriminate].
  destruct (read_chunks s1 0 0) as [[r2 s2] |]; [|discriminate].
  destruct (decode_loop _ s2 _ _); discriminate.
Qed.

(** * Path interpolation *)


Lemma only_random_refl {F G} (w : World F G) : only_random w w.
Proof. repeat split. Qed.

Lemma only_random_trans {F G} (w1 w2 w3 : World F G) :
  only_random w1 w2 -> only_random w2 w3 -> only_random w1 w3.
Proof.
  unfold only_random. intros (a1 & a2 & a3 & a4 & a5) (b1 & b2 & b3 & b4 & b5).
  repeat split; congruence.
Qed.

Lemma draw_run {F G A} (f : G -> A * G) (w : World F G) :
  exists w', draw f w = (Some (fst (f (w_random w))), w') /\ only_random w w'.
Proof.
  unfold draw. destruct (f (w_random w)) as [a g]. eexists. split; [reflexivity|].
  repeat split.
Qed.

Section InterpolateFacts.
Context {F : Type} `{PyFloat F} {G : Type} (random : RandomModule F G).


Lemma interpolate_loop_run (a b : Coord F) (n : Z) (k : nat) :
  n <> 0 ->
  forall i w,
  exists path w',
    interpolate_loop random a b n k i w = (Some path, w')
    /\ only_random w w'
    /\ List.length path = k
    /\ forall j p, nth_error path j = Some p -> point_at random a b n (i + Z.of_nat j) p.
Proof.
  intros Hn. induction k as [| k IH]; intros i w.
  - exists [], w. cbn. repeat split. intros [|j] p Hp; discriminate.
  - cbn [interpolate_loop]. destruct (Z.eqb_spec n 0) as [| _]; [contradiction|].
    unfold bind at 1.
    destruct ((0 <? i) && (i <? n)) eqn:Hint.
    + unfold bind at 1.
      destruct (draw_run (uniform random (lit (-1) 3) (lit 1 3)) w)
        as (w1 & E1 & F1).
      rewrite E1. unfold bind at 1.
      destruct (draw_run (uniform random (lit (-1) 3) (lit 1 3)) w1)
        as (w2 & E2 & F2).
      rewrite E2. unfold ret at 1.
      destruct (IH (i + 1) w2) as (path & w' & E & Fr & Hl & Hp).
      unfold bind. rewrite E. unfold ret.
      eexists _, w'. split; [reflexivity|].
      split; [eauto using only_random_trans|].
      split; [cbn; lia|].
      intros [|j] p Hj; cbn in Hj.
      * injection Hj as <-. unfold point_at. rewrite Z.add_0_r, Hint.
        eexists _, _. reflexivity.
      * replace (i + Z.of_nat (S j)) with (i + 1 + Z.of_nat j) by lia. eauto.
    + unfold ret at 1.
      destruct (IH (i + 1) w) as (path & w' & E & Fr & Hl & Hp).
      unfold bind. rewrite E. unfold ret.
      eexists _, w'. split; [reflexivity|].
      split; [exact Fr|].
      split; [cbn; lia|].
      intros [|j] p Hj; cbn in Hj.
      * injection Hj as <-. unfold point_at. rewrite Z.add_0_r, Hint. reflexivity.
      * replace (i + Z.of_nat (S j)) with (i + 1 + Z.of_nat j) by lia. eauto.
Qed.

(** [_interpolate_path] with [n >= 1] segments returns [n + 1] points,
    the point of index [i] being [point_at ... i]; it draws from the
    generator and touches nothing else. *)
Lemma interpolate_path_run (a b : Coord F) (n : Z) (w : World F G) :
  1 <= n ->
  exists path w',
    _interpolate_path random a b n w = (Some path, w')
    /\ only_random w w'
    /\ List.length path = Z.to_nat (n + 1)
    /\ forall i, 0 <= i <= n ->
         exists p, nth_error path (Z.to_nat i) = Some p /\ point_at random a b n i p.
Proof.
  intros Hn. unfold _interpolate_path.
  destruct (interpolate_loop_run a b n (Z.to_nat (n + 1)) ltac:(lia) 0 w)
    as (path & w' & E & Fr & Hl & Hp).
  exists path, w'. split; [exact E|]. split; [exact Fr|]. split; [exact Hl|].
  intros i Hi.
  destruct (nth_error path (Z.to_nat i)) as [p |] eqn:Ep.
  - exists p. split; [reflexivity|].
    specialize (Hp _ _ Ep). now rewrite Z2Nat.id in Hp by lia.
  - apply nth_error_None in Ep. lia.
Qed.
End InterpolateFacts.


Lemma interp_first (a b : Coord Q) (n : Z) : same_point (interp a b n 0) a.
Proof.
  unfold same_point, interp. cbn. unfold Qdiv. split; ring.
Qed.

Lemma interp_last (a b : Coord Q) (n : Z) : 1 <= n -> same_point (interp a b n n) b.
Proof.
  intros Hn. unfold same_point, interp. cbn.
  assert (Hnz : ~ (inject_Z n == 0)%Q) by (unfold Qeq; cbn; lia).
  split; field; exact Hnz.
Qed.

Lemma jittered_within {G} (random : RandomModule Q G) (p q : Coord Q) :
  uniform_in_range random -> jittered random p q -> within_jitter q p.
Proof.
  intros Hu (g1 & g2 & ->). unfold within_jitter. cbn [fst snd fadd Q_float].
  assert (Hb : (lit (F := Q) (-1) 3 <= lit 1 3)%Q) by (vm_compute; discriminate).
  pose proof (Hu _ _ g1 Hb) as [L1 U1]. pose proof (Hu _ _ g2 Hb) as [L2 U2].
  change (lit (F := Q) (-1) 3) with (-1 # 1000)%Q in *.
  change (lit (F := Q) 1 3) with (1 # 1000)%Q in *.
  set (j1 := fst (uniform random (-1 # 1000)%Q (1 # 1000)%Q g1)) in *.
  set (j2 := fst (uniform random (-1 # 1000)%Q (1 # 1000)%Q g2)) in *.
  clearbody j1 j2. unfold Qdiv. change (/ 1000)%Q with (1 # 1000)%Q.
  split; apply Qabs_Qle_condition; split; lra.
Qed.

(** C4 in exact arithmetic.  For [n >= 1] the path has [n + 1] points;
    the first is [a] and the last is [b] (no draw is added to them); a
    point in between is within 0.001 degrees, in latitude and in
    longitude, of the linear interpolation, the draws of
    [random.uniform(-0.001, 0.001)] being within their bounds. *)
Theorem interpolate_path_exact_arithmetic {G} (random : RandomModule Q G)
  (a b : Coord Q) (n : Z) (w : World Q G) :
  uniform_in_range random -> 1 <= n ->
  exists path w',
    _interpolate_path random a b n w = (Some path, w')
    /\ List.length path = Z.to_nat (n + 1)
    /\ (exists p, nth_error path 0 = Some p /\ same_point p a)
    /\ (exists p, nth_error path (Z.to_nat n) = Some p /\ same_point p b)
    /\ (forall i, 0 < i < n ->
          exists p, nth_error path (Z.to_nat i) = Some p
                    /\ within_jitter p (interp a b n i)).
Proof.
  intros Hu Hn.
  destruct (interpolate_path_run random a b n w Hn) as (path & w' & E & _ & Hl & Hp).
  exists path, w'. split; [exact E|]. split; [exact Hl|].
  split; [| split].
  - destruct (Hp 0 ltac:(lia)) as (p & Ep & Pp). exists p. split; [exact Ep|].
    unfold point_at in Pp. cbn in Pp. subst p. apply interp_first.
  - destruct (Hp n ltac:(lia)) as (p & Ep & Pp). exists p. split; [exact Ep|].
    unfold point_at in Pp. rewrite Z.ltb_irrefl, andb_false_r in Pp.
    subst p. now apply interp_last.
  - intros i Hi. destruct (Hp i ltac:(lia)) as (p & Ep & Pp). exists p.
    split; [exact Ep|]. unfold point_at in Pp.
    destruct (Z.ltb_spec 0 i); [|lia]. destruct (Z.ltb_spec i n); [|lia].
    cbn in Pp. now apply jittered_within with (random := random).
Qed.



(** In binary64 the last point of the path from Paris to London is not
    London: its longitude is [2.3522 + 1.0 * (-0.1278 - 2.3522)], which
    rounds to [-0.12780000000000014].  The path has its 6 points and
    starts in Paris. *)
Lemma interpolate_path_last_point_binary64 :
  option_map
    (fun path =>
       (List.length path,
        feqb (fst (hd london path)) (fst paris)
        && feqb (snd (hd london path)) (snd paris),
        snd (last path paris),
        feqb (snd (last path paris)) (snd london)))
    (fst (_interpolate_path lcg64 paris london 5 (offline 42 0)))
  = Some (6%nat, true, (-0.12780000000000014)%float, false).
Proof. vm_compute. reflexivity. Qed.

Lemma lcg_uniform_in_range : uniform_in_range lcg.
Proof.
  intros a b g Hab. cbn [uniform lcg].
  unfold lcg_random. cbn [fst].
  pose proof (Z.mod_pos_bound (g * 1103515245 + 12345) 2147483648 ltac:(lia)) as Hm.
  fold (lcg_next g) in Hm. rewrite !Qred_correct.
  set (r := (inject_Z (lcg_next g) / 2147483648)%Q).
  assert (Hr : (0 <= r /\ r <= 1)%Q).
  { unfold r. split.
    - apply Qle_shift_div_l; [reflexivity|]. rewrite Qmult_0_l.
      change 0%Q with (inject_Z 0). rewrite <- Zle_Qle. lia.
    - apply Qle_shift_div_r; [reflexivity|]. rewrite Qmult_1_l.
      change 2147483648%Q with (inject_Z 2147483648). rewrite <- Zle_Qle. lia. }
  clearbody r. destruct Hr. split; nra.
Qed.

Lemma interpolate_path_exact_arithmetic_witness :
  exists path w',
    _interpolate_path lcg times_square downtown 10 (offline 42 0) = (Some path, w')
    /\ List.length path = Z.to_nat (10 + 1)
    /\ (exists p, nth_error path 0 = Some p /\ same_point p times_square)
    /\ (exists p, nth_error path (Z.to_nat 10) = Some p /\ same_point p downtown)
    /\ (forall i, 0 < i < 10 ->
          exists p, nth_error path (Z.to_nat i) = Some p
                    /\ within_jitter p (interp times_square downtown 10 i)).
Proof.
  apply (interpolate_path_exact_arithmetic lcg times_square downtown 10 (offline 42 0)).
  - exact lcg_uniform_in_range.
  - lia.
Defined.

(** * The simulator and the resolver *)

Section RoutingFacts.
Context {F : Type} `{PyFloat F} `{PyBuiltins F}.
Context (math : MathModule F) {G : Type} (random : RandomModule F G).

Lemma num_waypoints_ge_5 (d : F) : 5 <= num_waypoints d.
Proof. unfold num_waypoints. lia. Qed.

(** The simulator raises only where [math.sqrt] does: once the
    distance is computed it asks for at least five segments. *)
Lemma simulated_route_run (a b : Coord F) (w : World F G) :
  match _haversine_distance math a b with
  | Some d =>
      exists path w',
        _get_simulated_route math random a b w
        = (Some (simulated_route d path), w')
        /\ _interpolate_path random a b (num_waypoints d) w = (Some path, w')
        /\ only_random w w'
  | None => _get_simulated_route math random a b w = (None, w)
  end.
Proof.
  unfold _get_simulated_route. unfold bind at 1. unfold lift.
  destruct (_haversine_distance math a b) as [d |]; [|reflexivity].
  pose proof (num_waypoints_ge_5 d) as H5.
  assert (H1 : 1 <= num_waypoints d) by lia.
  destruct (interpolate_path_run random a b _ w H1)
    as (path & w' & E & Fr & _).
  exists path, w'. split; [|split; assumption].
  unfold bind. cbv zeta. rewrite E. reflexivity.
Qed.

Lemma only_random_after (w1 w2 w3 : World F G) :
  after_request w1 w2 -> only_random w2 w3 -> after_request w1 w3.
Proof.
  unfold after_request, only_random.
  intros (a1 & a2 & a3 & a4) (b1 & b2 & b3 & b4 & b5). repeat split; congruence.
Qed.

Lemma only_random_is_after (w1 w2 : World F G) :
  only_random w1 w2 -> after_request w1 w2.
Proof.
  unfold after_request, only_random.
  intros (b1 & b2 & b3 & b4 & b5). repeat split; congruence.
Qed.

(** Where the provider does not answer, the simulator decides. *)
Lemma simulator_resolves (self : RoutingAPI) (a b : Coord F)
  (reply : HttpReply F) (w : World F G) :
  (forall r, ~ Answers self reply r) ->
  exists out w',
    _get_simulated_route math random a b w = (out, w')
    /\ only_random w w'
    /\ Resolved math self a b reply out.
Proof.
  intros Hno. pose proof (simulated_route_run a b w) as Hrun.
  destruct (_haversine_distance math a b) as [d |] eqn:Ed.
  - destruct Hrun as (path & w' & E & _ & Fr).
    exists (Some (simulated_route d path)), w'.
    split; [exact E|]. split; [exact Fr|]. now apply from_simulator.
  - exists None, w. split; [exact Hrun|]. split; [apply only_random_refl|].
    now apply simulator_raises.
Qed.

(** A branch that ends in the simulator, inside the [try] or in its
    handler: when the simulator raises inside the [try], the handler
    calls it again, and it raises again. *)
Ltac fall_back self a b w :=
  let Hno := fresh "Hno" in
  let Hrun := fresh "Hrun" in
  let d := fresh "d" in
  let Ed := fresh "Ed" in
  let path := fresh "path" in
  let w' := fresh "w'" in
  let E := fresh "E" in
  let Fr := fresh "Fr" in
  match goal with
  | |- exists o v, _ = (o, v) /\ _ /\ _ /\ Resolved _ _ _ _ ?reply o =>
      assert (Hno : forall r, ~ Answers self reply r)
        by (let Ha := fresh "Ha" in intros ? Ha; destruct Ha; congruence);
      pose proof (simulated_route_run a b w) as Hrun;
      destruct (_haversine_distance math a b) as [d |] eqn:Ed;
      [ destruct Hrun as (path & w' & E & _ & Fr);
        rewrite E; exists (Some (simulated_route d path)), w';
        split; [reflexivity|];
        split; [eapply only_random_after; [|exact Fr]; repeat split|];
        split; [destruct Fr as (_ & -> & _); reflexivity
               | now apply from_simulator]
      | repeat (rewrite Hrun; cbv beta iota);
        exists None, w;
        split; [reflexivity|];
        split; [repeat split|];
        split; [reflexivity | now apply simulator_raises] ]
  end.

Lemma google_route_run (self : RoutingAPI) (a b : Coord F)
  (mode optimize_for : string) (w : World F G) :
  enabled self = true -> api_service self = "google"%string ->
  exists out w',
    _get_google_route math random a b mode optimize_for w = (out, w')
    /\ after_request w w'
    /\ w_requests w' = S (w_requests w)
    /\ Resolved math self a b (w_replies w (w_requests w)) out.
Proof.
  intros He Hs. unfold _get_google_route, try_except, bind, http_request, raise, lift.
  set (w1 := {| w_random := w_random w; w_replies := w_replies w;
                w_requests := S (w_requests w); w_clock := w_clock w;
                w_ticks := w_ticks w; w_calls := w_calls w |}).
  destruct (w_replies w (w_requests w)) as [| code json] eqn:Er;
    [fall_back self a b w1|].
  destruct (Z.eqb_spec code 200) as [-> | Hc].
  2: fall_back self a b w1.
  destruct json as [data |]; [|fall_back self a b w1].
  destruct (getitem "status" data) as [status |] eqn:Est; [|fall_back self a b w1].
  destruct (is_str "OK" status) eqn:Eok.
  2: fall_back self a b w1.
  destruct (getitem "routes" data) as [routes |] eqn:Ero; [|fall_back self a b w1].
  destruct (truthy routes) eqn:Etr.
  2: fall_back self a b w1.
  destruct (google_route_data routes) as [r |] eqn:Egr; [|fall_back self a b w1].
  exists (Some r), w1. split; [reflexivity|]. split; [repeat split|].
  split; [reflexivity|]. apply from_provider. eapply google_answers; eauto.
Qed.

Lemma openroute_route_run (self : RoutingAPI) (a b : Coord F)
  (mode : string) (w : World F G) :
  enabled self = true -> api_service self = "openroute"%string ->
  exists out w',
    _get_openroute_route math random a b mode w = (out, w')
    /\ after_request w w'
    /\ w_requests w' = S (w_requests w)
    /\ Resolved math self a b (w_replies w (w_requests w)) out.
Proof.
  intros He Hs. unfold _get_openroute_route, try_except, bind, http_request, raise, lift.
  set (w1 := {| w_random := w_random w; w_replies := w_replies w;
                w_requests := S (w_requests w); w_clock := w_clock w;
                w_ticks := w_ticks w; w_calls := w_calls w |}).
  destruct (w_replies w (w_requests w)) as [| code json] eqn:Er;
    [fall_back self a b w1|].
  destruct (Z.eqb_spec code 200) as [-> | Hc]; [|fall_back self a b w1].
  destruct json as [data |]; [|fall_back self a b w1].
  destruct (contains "routes" data) as [[|] |] eqn:Ein;
    [|fall_back self a b w1|fall_back self a b w1].
  destruct (getitem "routes" data) as [routes |] eqn:Ero; [|fall_back self a b w1].
  destruct (truthy routes) eqn:Etr; [|fall_back self a b w1].
  destruct (openroute_route_data routes) as [r |] eqn:Egr; [|fall_back self a b w1].
  exists (Some r), w1. split; [reflexivity|]. split; [repeat split|].
  split; [reflexivity|]. apply from_provider. eapply openroute_answers; eauto.
Qed.

(** [get_optimal_route] is recorded as one call, reads no clock, sends
    a request exactly when the client is enabled for one of the two
    services, and comes to what [Resolved] says: no failure of the
    provider reaches the caller, only the simulator's own. *)
Lemma get_optimal_route_run (self : RoutingAPI) (a b : Coord F)
  (mode optimize_for : string) (w : World F G) :
  exists out w',
    get_optimal_route math random self a b mode optimize_for w = (out, w')
    /\ w_calls w' = w_calls w ++ [(a, b)]
    /\ w_clock w' = w_clock w /\ w_ticks w' = w_ticks w
    /\ w_replies w' = w_replies w
    /\ w_requests w'
       = (if enabled self
             && (String.eqb (api_service self) "google"
                 || String.eqb (api_service self) "openroute")
          then S (w_requests w) else w_requests w)
    /\ Resolved math self a b (w_replies w (w_requests w)) out.
Proof.
  unfold get_optimal_route, bind, record_call.
  set (w0 := {| w_random := w_random w; w_replies := w_replies w;
                w_requests := w_requests w; w_clock := w_clock w;
                w_ticks := w_ticks w; w_calls := w_calls w ++ [(a, b)] |}).
  assert (Hsim : (forall r, ~ Answers self (w_replies w (w_requests w)) r) ->
             exists out w',
               _get_simulated_route math random a b w0 = (out, w')
               /\ w_calls w' = w_calls w ++ [(a, b)]
               /\ w_clock w' = w_clock w /\ w_ticks w' = w_ticks w
               /\ w_replies w' = w_replies w
               /\ w_requests w' = w_requests w
               /\ Resolved math self a b (w_replies w (w_requests w)) out).
  { intros Hno.
    destruct (simulator_resolves self a b _ w0 Hno) as (out & w' & E & Fr & R).
    destruct Fr as (f1 & f2 & f3 & f4 & f5).
    exists out, w'. repeat split; assumption. }
  destruct (enabled self) eqn:He; cbn [negb andb].
  2: { apply Hsim. intros r Ha; destruct Ha; congruence. }
  destruct (String.eqb_spec (api_service self) "google") as [Hg | Hng]; cbn [orb].
  - destruct (google_route_run self a b mode optimize_for w0 He Hg)
      as (out & w' & E & (f1 & f2 & f3 & f4) & Hq & R).
    exists out, w'. rewrite E. repeat split; assumption.
  - destruct (String.eqb_spec (api_service self) "openroute") as [Ho | Hno].
    + destruct (openroute_route_run self a b mode w0 He Ho)
        as (out & w' & E & (f1 & f2 & f3 & f4) & Hq & R).
      exists out, w'. rewrite E. repeat split; assumption.
    + apply Hsim.
      intros r Ha; destruct Ha; congruence.
Qed.

(** The two outcomes: a route of the simulator is no route of a
    provider, so the cases of [Resolved] exclude one another. *)
Lemma resolved_returns (self : RoutingAPI) (a b : Coord F)
  (reply : HttpReply F) (out : option (Route F)) :
  Resolved math self a b reply out ->
  (exists r, Answers self reply r) \/ _haversine_distance math a b <> None ->
  out <> None.
Proof.
  intros R Hc. destruct R as [r Ha | d path Hno Hd | Hno Hd]; try discriminate.
  destruct Hc as [(r & Ha) | Hd']; [destruct (Hno r Ha) | contradiction].
Qed.
End RoutingFacts.

(** * Rounding in exact arithmetic *)

Lemma round_half_even_bounds (x : Q) :
  (inject_Z (round_half_even x) - (1 # 2) <= x
   /\ x <= inject_Z (round_half_even x) + (1 # 2))%Q.
Proof.
  unfold round_half_even.
  pose proof (Qfloor_le x) as Hlo. pose proof (Qlt_floor x) as Hhi.
  rewrite inject_Z_plus in Hhi. change (inject_Z 1) with 1%Q in Hhi.
  destruct (Qcompare_spec (x - inject_Z (Qfloor x)) (1 # 2)) as [He | Hl | Hg].
  - destruct (Z.even (Qfloor x)).
    + split; lra.
    + rewrite inject_Z_plus. change (inject_Z 1) with 1%Q. split; lra.
  - split; lra.
  - rewrite inject_Z_plus. change (inject_Z 1) with 1%Q. split; lra.
Qed.

Lemma round_half_even_mono (x y : Q) :
  (x <= y)%Q -> round_half_even x <= round_half_even y.
Proof.
  intros Hxy. pose proof (Qfloor_resp_le x y Hxy) as Hf.
  unfold round_half_even.
  pose proof (Qfloor_le x) as Hlx. pose proof (Qlt_floor x) as Hhx.
  pose proof (Qfloor_le y) as Hly. pose proof (Qlt_floor y) as Hhy.
  rewrite inject_Z_plus in Hhx, Hhy. change (inject_Z 1) with 1%Q in Hhx, Hhy.
  destruct (Z.eq_dec (Qfloor x) (Qfloor y)) as [Heq | Hne].
  - rewrite <- Heq in *.
    destruct (Qcompare_spec (x - inject_Z (Qfloor x)) (1 # 2));
      destruct (Qcompare_spec (y - inject_Z (Qfloor x)) (1 # 2));
      destruct (Z.even (Qfloor x)); try lia; exfalso; lra.
  - assert (Qfloor x + 1 <= Qfloor y) by lia.
    destruct (Qcompare_spec (x - inject_Z (Qfloor x)) (1 # 2));
      destruct (Qcompare_spec (y - inject_Z (Qfloor y)) (1 # 2));
      destruct (Z.even (Qfloor x)); destruct (Z.even (Qfloor y)); lia.
Qed.

Lemma scale_positive (ndigits : nat) : (0 < inject_Z (10 ^ Z.of_nat ndigits))%Q.
Proof.
  change 0%Q with (inject_Z 0). rewrite <- Zlt_Qlt.
  apply Z.pow_pos_nonneg; lia.
Qed.

Lemma Qround_digits_mono (x y : Q) (ndigits : nat) :
  (x <= y)%Q -> (Qround_digits x ndigits <= Qround_digits y ndigits)%Q.
Proof.
  intros Hxy. unfold Qround_digits. cbv zeta.
  pose proof (scale_positive ndigits) as Hs.
  set (s := inject_Z (10 ^ Z.of_nat ndigits)) in *.
  apply Qmult_le_compat_r; [|apply Qlt_le_weak, Qinv_lt_0_compat; exact Hs].
  rewrite <- Zle_Qle. apply round_half_even_mono.
  apply Qmult_le_compat_r; [exact Hxy | apply Qlt_le_weak; exact Hs].
Qed.

(** [round(x, n)] is within half a unit of the last digit kept. *)
Lemma Qround_digits_close (x : Q) (ndigits : nat) :
  (Qabs (Qround_digits x ndigits - x)
   <= (1 # 2) / inject_Z (10 ^ Z.of_nat ndigits))%Q.
Proof.
  unfold Qround_digits. cbv zeta.
  pose proof (scale_positive ndigits) as Hs.
  set (s := inject_Z (10 ^ Z.of_nat ndigits)) in *.
  destruct (round_half_even_bounds (x * s)) as [Hlo Hhi].
  set (k := inject_Z (round_half_even (x * s))) in *. clearbody k s.
  assert (Hne : ~ (s == 0)%Q) by lra.
  apply Qabs_Qle_condition. split.
  - setoid_replace (k / s - x)%Q with ((k - x * s) / s)%Q by (field; exact Hne).
    setoid_replace (- ((1 # 2) / s))%Q with ((- (1 # 2)) / s)%Q by (field; exact Hne).
    apply Qmult_le_compat_r; [lra | apply Qlt_le_weak, Qinv_lt_0_compat; exact Hs].
  - setoid_replace (k / s - x)%Q with ((k - x * s) / s)%Q by (field; exact Hne).
    apply Qmult_le_compat_r; [lra | apply Qlt_le_weak, Qinv_lt_0_compat; exact Hs].
Qed.

Lemma Qtrunc_floor (x : Q) : (0 <= x)%Q -> Qtrunc x = Qfloor x.
Proof.
  destruct x as [n d]. unfold Qle, Qtrunc, Qfloor. cbn. intros Hn.
  apply Z.quot_div_nonneg; lia.
Qed.

(** * The simulated route *)



(** From (8, -36) to (-8, 144) in binary64 the haversine term [a] is
    1.0000000000000002, [1 - a] is negative and [math.sqrt] raises:
    there is no simulated route between the two points. *)
Example simulated_route_raises_binary64 :
  _haversine_distance libm_recorded atlantic pacific = None
  /\ fst (_get_simulated_route libm_recorded lcg64 atlantic pacific
            offline_binary64) = None.
Proof. split; vm_compute; reflexivity. Qed.

(** * What the adapters return *)

Ltac step_obind H :=
  match type of H with
  | obind ?o _ = Some _ =>
      let E := fresh "E" in
      destruct o eqn:E; cbn [obind] in H; [|discriminate H]
  end.

Section AdapterFacts.
Context {F : Type} `{PyFloat F}.

Lemma google_route_fields (routes : Json F) (r : Route F) :
  google_route_data routes = Some r ->
  simulated r = false /\ service r = "google"%string
  /\ exists leg d,
       first_leg routes = Some leg
       /\ stated_duration leg = Some d
       /\ duration r = fdiv d (of_int 60)
       /\ duration_in_traffic r
          = Some (fdiv (match stated_traffic leg with
                        | Some x => x
                        | None => d
                        end) (of_int 60)).
Proof.
  intros Hr. unfold google_route_data in Hr.
  repeat step_obind Hr. injection Hr as <-. cbn.
  split; [reflexivity|]. split; [reflexivity|].
  exists j1, f0. unfold first_leg, stated_duration, stated_traffic.
  rewrite E. cbn [obind]. rewrite E0. cbn [obind]. rewrite E1.
  split; [reflexivity|].
  rewrite E8. cbn [obind]. rewrite E9. cbn [obind]. rewrite E10.
  split; [reflexivity|]. split; [reflexivity|].
  unfold get_default in E11, E12.
  destruct j1 as [| | | | |kv]; try discriminate E11.
  cbn [getitem].
  destruct (assoc "duration_in_traffic" kv) as [traffic|]; cbn [obind].
  - injection E11 as <-.
    destruct traffic as [| | | | |kv']; try discriminate E12.
    cbn [getitem]. destruct (assoc "value" kv') as [v|]; cbn [obind].
    + injection E12 as <-. rewrite E13. reflexivity.
    + injection E12 as <-. rewrite E10 in E13. injection E13 as <-. reflexivity.
  - injection E11 as <-. cbn in E12. injection E12 as <-.
    rewrite E10 in E13. injection E13 as <-. reflexivity.
Qed.

Lemma openroute_route_fields (routes : Json F) (r : Route F) :
  openroute_route_data routes = Some r ->
  simulated r = false /\ service r = "openroute"%string
  /\ duration_in_traffic r = None.
Proof.
  intros Hr. unfold openroute_route_data in Hr.
  repeat step_obind Hr. injection Hr as <-. cbn. repeat split.
Qed.
End AdapterFacts.

(** * The duration in traffic *)




(** * Recovery from provider failures *)

Section GeocodeFacts.
Context {F : Type} `{PyFloat F} {G : Type}.
Context (float_of_str : string -> option F).

(** The loop never raises, and it advances through the list as
    [Advances] says. *)
Lemma geocode_loop_run (q : string) (hint : option string)
  (ps : list (string * Adapter (F := F) (G := G))) :
  forall w,
  exists res w',
    geocode_loop ps q hint w = (Some res, w')
    /\ Advances q hint ps w res w'.
Proof.
  induction ps as [| [name f] ps IH]; intros w.
  - exists None, w. split; [reflexivity | constructor].
  - cbn [geocode_loop]. unfold bind at 1. unfold try_except, bind, ret.
    destruct (f q hint w) as [[[r0 |] |] w1] eqn:Ef.
    + exists (Some (set_provider name r0)), w1. split; [reflexivity|].
      now apply provider_answers.
    + destruct (IH w1) as (res & w' & E & Hadv).
      exists res, w'. split; [exact E|]. apply provider_fails.
      * right. rewrite Ef. reflexivity.
      * rewrite Ef. exact Hadv.
    + destruct (IH w1) as (res & w' & E & Hadv).
      exists res, w'. split; [exact E|]. apply provider_fails.
      * left. rewrite Ef. reflexivity.
      * rewrite Ef. exact Hadv.
Qed.

(** When every provider fails in its turn, the result is [None]; a
    result names the provider that gave it. *)
Lemma advances_result (q : string) (hint : option string)
  (ps : list (string * Adapter (F := F) (G := G))) (w w' : World F G)
  (res : option (GeocodeResult F)) :
  Advances q hint ps w res w' ->
  match res with
  | Some r => exists name f, In (name, f) ps /\ provider r = Some name
  | None => True
  end.
Proof.
  induction 1 as [w | name f rest w w1 r Hf | name f rest w w' res Hfail Hadv IH].
  - exact I.
  - exists name, f. split; [left; reflexivity | reflexivity].
  - destruct res as [r |]; [|exact I].
    destruct IH as (n' & f' & Hin & Hp). exists n', f'.
    split; [right; exact Hin | exact Hp].
Qed.
End GeocodeFacts.



(** * Alternative routes *)

Lemma range1_nth (n i : Z) :
  1 <= i <= n - 1 -> nth_error (range1 n) (Z.to_nat i - 1) = Some i.
Proof.
  intros Hi. unfold range1.
  rewrite nth_error_map.
  rewrite nth_error_seq.
  destruct (Nat.ltb_spec (Z.to_nat i - 1) (Z.to_nat (n - 1))) as [_ | Hge]; [|lia].
  cbn [option_map]. f_equal. lia.
Qed.

Lemma range1_length (n : Z) : List.length (range1 n) = Z.to_nat (n - 1).
Proof. unfold range1. now rewrite length_map, length_seq. Qed.

(** C5.  For [n >= 1] and the primary route that the resolver returns:
    when it is simulated the list has [n] routes, the primary one, then
    for [i] from 1 to [n - 1] a copy with the distance scaled by
    [1 + 0.1 i] and the duration by [1 + 0.15 i]; when it is not
    simulated the list is the primary route alone. *)
Theorem multiple_routes_scaled (math : MathModule Q) {G : Type}
  (random : RandomModule Q G) (self : RoutingAPI) (a b : Coord Q)
  (n : Z) (w w' : World Q G) (primary : Route Q) :
  1 <= n ->
  get_optimal_route math random self a b "driving" "time" w = (Some primary, w') ->
  exists routes,
    get_multiple_routes math random self a b n w = (Some routes, w')
    /\ nth_error routes 0 = Some primary
    /\ (simulated primary = true ->
        List.length routes = Z.to_nat n
        /\ forall i, 1 <= i <= n - 1 ->
             exists alt,
               nth_error routes (Z.to_nat i) = Some alt
               /\ (distance alt == distance primary * (1 + 0.1 * inject_Z i))%Q
               /\ (duration alt == duration primary * (1 + 0.15 * inject_Z i))%Q)
    /\ (simulated primary = false -> routes = [primary]).
Proof.
  intros Hn E.
  unfold get_multiple_routes, bind. rewrite E.
  destruct (simulated primary) eqn:Es.
  - exists ([primary] ++ map (alternative primary) (range1 n)).
    split; [reflexivity|]. split; [reflexivity|].
    split; [|intros Hf; congruence]. intros _. split.
    + rewrite length_app, length_map, range1_length. cbn. lia.
    + intros i Hi. exists (alternative primary i). split.
      * rewrite nth_error_app2 by (cbn; lia). cbn [List.length].
        rewrite nth_error_map, range1_nth by lia. reflexivity.
      * cbn [distance duration alternative].
        change (lit (F := Q) 1 1) with (1 # 10)%Q.
        change (lit (F := Q) 15 2) with (15 # 100)%Q.
        cbn [fmul fadd of_int Q_float]. change (inject_Z 1) with 1%Q.
        split; ring.
  - exists [primary].
    split; [reflexivity|]. split; [reflexivity|].
    split; [intros Hf; congruence|]. intros _. reflexivity.
Qed.

Lemma multiple_routes_scaled_witness :
  exists primary w' routes,
    get_optimal_route series_math lcg unconfigured_client times_square downtown
      "driving" "time" offline_world = (Some primary, w')
    /\ get_multiple_routes series_math lcg unconfigured_client times_square
         downtown 3 offline_world = (Some routes, w')
    /\ nth_error routes 0 = Some primary
    /\ (simulated primary = true ->
        List.length routes = Z.to_nat 3
        /\ forall i, 1 <= i <= 3 - 1 ->
             exists alt,
               nth_error routes (Z.to_nat i) = Some alt
               /\ (distance alt == distance primary * (1 + 0.1 * inject_Z i))%Q
               /\ (duration alt == duration primary * (1 + 0.15 * inject_Z i))%Q)
    /\ (simulated primary = false -> routes = [primary]).
Proof.
  assert (Hrun : exists primary w',
             get_optimal_route series_math lcg unconfigured_client times_square
               downtown "driving" "time" offline_world = (Some primary, w'))
    by (eexists _, _; vm_compute; reflexivity).
  destruct Hrun as (primary & w' & E).
  destruct (multiple_routes_scaled series_math lcg unconfigured_client
              times_square downtown 3 offline_world w' primary ltac:(lia) E)
    as (routes & Hroutes).
  exists primary, w', routes. split; [exact E | exact Hroutes].
Defined.

(** * The nearest responder *)

Section ResponderFacts.
Context {F : Type} `{PyFloat F} `{PyBuiltins F}.
Context (math : MathModule F) {G : Type} (random : RandomModule F G).

(** One call per responder, in order, until one raises: then the
    responder is one whose distance to the emergency cannot be
    computed, and the calls made are those up to it. *)
Lemma resolve_all_run (self : RoutingAPI) (e : Coord F) (rs : list (Coord F)) :
  forall w,
  exists out w1,
    resolve_all math random self e rs w = (out, w1)
    /\ w_clock w1 = w_clock w /\ w_ticks w1 = w_ticks w
    /\ match out with
       | Some routes =>
           List.length routes = List.length rs
           /\ w_calls w1 = w_calls w ++ map (fun r => (r, e)) rs
       | None =>
           exists k c,
             nth_error rs k = Some c
             /\ _haversine_distance math c e = None
             /\ w_calls w1 = w_calls w ++ map (fun r => (r, e)) (firstn (S k) rs)
       end.
Proof.
  induction rs as [| c rs IH]; intros w.
  - exists (Some []), w. cbn. rewrite app_nil_r. repeat split.
  - destruct (get_optimal_route_run math random self c e "driving" "time" w)
      as (out & w0 & E & Hc & Hk & Ht & _ & _ & R).
    cbn [resolve_all]. unfold bind at 1. rewrite E.
    destruct out as [r |].
    + destruct (IH w0) as (outs & w1 & E1 & Hk1 & Ht1 & Hout).
      unfold bind. rewrite E1. destruct outs as [routes |].
      * exists (Some (r :: routes)), w1. split; [reflexivity|].
        split; [congruence|]. split; [congruence|].
        destruct Hout as [Hl Hc1]. split; [cbn; lia|].
        rewrite Hc1, Hc, <- app_assoc. reflexivity.
      * exists None, w1. split; [reflexivity|].
        split; [congruence|]. split; [congruence|].
        destruct Hout as (k & c' & Hn & Hd & Hc1).
        exists (S k), c'. split; [exact Hn|]. split; [exact Hd|].
        rewrite Hc1, Hc, <- app_assoc. reflexivity.
    + exists None, w0. split; [reflexivity|]. split; [exact Hk|].
      split; [exact Ht|]. exists 0%nat, c. split; [reflexivity|].
      split; [|exact Hc].
      inversion R. assumption.
Qed.

(** The loop calls the resolver once per responder, in order, and picks
    among the routes it got; it raises where the resolver does. *)
Lemma nearest_loop_run (self : RoutingAPI) (e : Coord F) (rs : list (Coord F)) :
  forall i nearest min_distance w,
    nearest_loop math random self e rs i nearest min_distance w
    = (option_map (fun routes => select rs routes i nearest min_distance)
         (fst (resolve_all math random self e rs w)),
       snd (resolve_all math random self e rs w)).
Proof.
  induction rs as [| c rs IH]; intros i nearest min_distance w.
  - reflexivity.
  - cbn [resolve_all nearest_loop]. unfold bind at 1 2 4.
    destruct (get_optimal_route math random self c e "driving" "time" w)
      as [[r |] w0]; [|reflexivity].
    destruct (below (distance r) min_distance) eqn:Eb.
    + rewrite IH. unfold bind.
      destruct (resolve_all math random self e rs w0) as [[routes |] w1];
        cbn [fst snd option_map select ret]; [rewrite Eb|]; reflexivity.
    + rewrite IH. unfold bind.
      destruct (resolve_all math random self e rs w0) as [[routes |] w1];
        cbn [fst snd option_map select ret]; [rewrite Eb|]; reflexivity.
Qed.

(** C9.  With no responder the loop body never runs: the result is
    [None], nothing is raised, and the world is as it was, so no route
    was requested. *)
Theorem nearest_responder_of_none (self : RoutingAPI) (e : Coord F)
  (w : World F G) :
  find_nearest_responder math random self e [] w = (Some None, w).
Proof. reflexivity. Qed.
End ResponderFacts.

Lemma below_lt (x y : Q) : below x (Some y) = true <-> (x < y)%Q.
Proof.
  cbn. rewrite negb_true_iff. split.
  - intros Hb. apply Qnot_le_lt. intros Hle.
    apply Qle_bool_iff in Hle. congruence.
  - intros Hlt. destruct (Qle_bool y x) eqn:E; [|reflexivity].
    apply Qle_bool_iff in E. exfalso. now apply (Qlt_not_le x y).
Qed.

Lemma below_ge (x y : Q) : below x (Some y) = false <-> (y <= x)%Q.
Proof.
  cbn. rewrite negb_false_iff. apply Qle_bool_iff.
Qed.

(** With a candidate [r0] in hand, the loop keeps it when no later route
    is strictly shorter, and otherwise moves to the first of the
    shortest later routes. *)
Lemma select_from_candidate (rs : list (Coord Q)) :
  forall (routes : list (Route Q)) (i k0 : Z) (c0 : Coord Q) (r0 : Route Q),
    List.length rs = List.length routes ->
    (select rs routes i (Some (k0, c0, r0)) (Some (distance r0)) = Some (k0, c0, r0)
     /\ forall j r, nth_error routes j = Some r -> (distance r0 <= distance r)%Q)
    \/ (exists j c rt,
          select rs routes i (Some (k0, c0, r0)) (Some (distance r0))
          = Some (i + Z.of_nat j, c, rt)
          /\ nth_error rs j = Some c /\ nth_error routes j = Some rt
          /\ (distance rt < distance r0)%Q
          /\ (forall j' r, nth_error routes j' = Some r ->
                (distance rt <= distance r)%Q)
          /\ (forall j' r, (j' < j)%nat -> nth_error routes j' = Some r ->
                (distance rt < distance r)%Q)).
Proof.
  induction rs as [| c rs IH]; intros routes i k0 c0 r0 Hl.
  - left. destruct routes; [|discriminate]. split; [reflexivity|].
    intros [|j] r Hr; discriminate.
  - destruct routes as [| rt routes]; [discriminate|].
    injection Hl as Hl. cbn [select].
    destruct (below (distance rt) (Some (distance r0))) eqn:Eb.
    + apply below_lt in Eb.
      destruct (IH routes (i + 1) i c rt Hl)
        as [[Es Hall] | (j & c' & rt' & Es & Hc & Hr & Hlt & Hall & Hearly)].
      * right. exists 0%nat, c, rt. rewrite Es, Z.add_0_r.
        split; [reflexivity|]. split; [reflexivity|]. split; [reflexivity|].
        split; [exact Eb|]. split.
        -- intros [|j'] r Hj; cbn in Hj; [injection Hj as <-; apply Qle_refl | eauto].
        -- intros j' r Hj. lia.
      * right. exists (S j), c', rt'. rewrite Es.
        split; [f_equal; f_equal; f_equal; lia|].
        split; [exact Hc|]. split; [exact Hr|].
        split; [eapply Qlt_trans; eassumption|]. split.
        -- intros [|j'] r Hj; cbn in Hj;
             [injection Hj as <-; apply Qlt_le_weak; exact Hlt | eauto].
        -- intros [|j'] r Hlt' Hj; cbn in Hj;
             [injection Hj as <-; exact Hlt | apply (Hearly j'); [lia | exact Hj]].
    + apply below_ge in Eb.
      destruct (IH routes (i + 1) k0 c0 r0 Hl)
        as [[Es Hall] | (j & c' & rt' & Es & Hc & Hr & Hlt & Hall & Hearly)].
      * left. split; [exact Es|].
        intros [|j'] r Hj; cbn in Hj; [injection Hj as <-; exact Eb | eauto].
      * right. exists (S j), c', rt'. rewrite Es.
        split; [f_equal; f_equal; f_equal; lia|].
        split; [exact Hc|]. split; [exact Hr|]. split; [exact Hlt|]. split.
        -- intros [|j'] r Hj; cbn in Hj; [|eauto].
           injection Hj as <-. apply Qlt_le_weak.
           eapply Qlt_le_trans; eassumption.
        -- intros [|j'] r Hlt' Hj; cbn in Hj;
             [|apply (Hearly j'); [lia | exact Hj]].
           injection Hj as <-. eapply Qlt_le_trans; eassumption.
Qed.

(** From no candidate: the first of the shortest routes. *)
Lemma select_first_minimum (rs : list (Coord Q)) (routes : list (Route Q)) :
  rs <> [] -> List.length rs = List.length routes ->
  exists k c rt,
    select rs routes 0 None None = Some (Z.of_nat k, c, rt)
    /\ nth_error rs k = Some c /\ nth_error routes k = Some rt
    /\ (forall j r, nth_error routes j = Some r -> (distance rt <= distance r)%Q)
    /\ (forall j r, (j < k)%nat -> nth_error routes j = Some r ->
          (distance rt < distance r)%Q).
Proof.
  intros Hne Hl. destruct rs as [| c rs]; [contradiction|].
  destruct routes as [| rt routes]; [discriminate|]. injection Hl as Hl.
  cbn [select below flt_inf Q_float].
  destruct (select_from_candidate rs routes (0 + 1) 0 c rt Hl)
    as [[Es Hall] | (j & c' & rt' & Es & Hc & Hr & Hlt & Hall & Hearly)].
  - exists 0%nat, c, rt. rewrite Es.
    split; [reflexivity|]. split; [reflexivity|]. split; [reflexivity|]. split.
    + intros [|j'] r Hj; cbn in Hj; [injection Hj as <-; apply Qle_refl | eauto].
    + intros j' r Hj. lia.
  - exists (S j), c', rt'. rewrite Es.
    split; [f_equal; f_equal; f_equal; lia|].
    split; [exact Hc|]. split; [exact Hr|]. split.
    + intros [|j'] r Hj; cbn in Hj;
        [injection Hj as <-; apply Qlt_le_weak; exact Hlt | eauto].
    + intros [|j'] r Hlt' Hj; cbn in Hj;
        [injection Hj as <-; exact Hlt | apply (Hearly j'); [lia | exact Hj]].
Qed.



(** The nearest of the three test responders is the second one. *)
Example nearest_test_responder :
  option_map (option_map (fun res => (responder_id res, Qred (nearest_distance res))))
    (fst (find_nearest_responder series_math lcg unconfigured_client downtown
            responders offline_world))
  = Some (Some (1, (63 # 25)%Q)).
Proof. vm_compute. reflexivity. Qed.


(** * The simulated weather *)

Section WeatherFacts.
Context {F : Type} `{PyFloat F} `{PyBuiltins F}.
Context {G : Type} (random : RandomModule F G).

Lemma bind_draw {A B} (f : G -> A * G) (k : A -> M F G B) (w : World F G) :
  bind (draw f) k w
  = k (fst (f (w_random w)))
      {| w_random := snd (f (w_random w)); w_replies := w_replies w;
         w_requests := w_requests w; w_clock := w_clock w;
         w_ticks := w_ticks w; w_calls := w_calls w |}.
Proof. unfold bind, draw. destruct (f (w_random w)). reflexivity. Qed.

Lemma bind_now {B} (k : F -> M F G B) (w : World F G) :
  bind now k w
  = k (w_clock w (w_ticks w))
      {| w_random := w_random w; w_replies := w_replies w;
         w_requests := w_requests w; w_clock := w_clock w;
         w_ticks := S (w_ticks w); w_calls := w_calls w |}.
Proof. reflexivity. Qed.

Lemma bind_reseed {B} (g : G) (k : unit -> M F G B) (w : World F G) :
  bind (reseed g) k w
  = k tt {| w_random := g; w_replies := w_replies w;
            w_requests := w_requests w; w_clock := w_clock w;
            w_ticks := w_ticks w; w_calls := w_calls w |}.
Proof. reflexivity. Qed.

Lemma bind_ret {A B} (a : A) (k : A -> M F G B) (w : World F G) :
  bind (ret a) k w = k a w.
Proof. reflexivity. Qed.

Lemma bind_if {A B} (c : bool) (m1 m2 : M F G A) (k : A -> M F G B)
  (w : World F G) :
  bind (if c then m1 else m2) k w = if c then bind m1 k w else bind m2 k w.
Proof. destruct c; reflexivity. Qed.

Lemma in_step_bind {A B} (m : M F G A) (k : A -> M F G B)
  (R : F -> F -> B -> B -> Prop) :
  in_step m (fun _ _ a1 a2 => a1 = a2) -> keeps_clock m ->
  (forall a, in_step (k a) R) -> in_step (bind m k) R.
Proof.
  intros Hm Hc Hk w1 w2 Hw.
  destruct (Hm w1 w2 Hw) as (a1 & a2 & v1 & v2 & E1 & E2 & <- & Hv).
  destruct (Hk a1 v1 v2 Hv) as (b1 & b2 & u1 & u2 & F1 & F2 & HR & Hu).
  destruct (Hc _ _ _ E1) as [c1 t1]. destruct (Hc _ _ _ E2) as [c2 t2].
  exists b1, b2, u1, u2. unfold bind. rewrite E1, E2.
  rewrite c1, t1, c2, t2 in HR. repeat split; assumption.
Qed.

Lemma in_step_draw {A} (f : G -> A * G) :
  in_step (draw (F := F) f) (fun _ _ a1 a2 => a1 = a2).
Proof.
  intros w1 w2 Hw. unfold draw. rewrite Hw.
  destruct (f (w_random w2)) as [a g].
  eexists a, a, _, _. repeat split.
Qed.

Lemma keeps_clock_draw {A} (f : G -> A * G) : keeps_clock (draw (F := F) f).
Proof.
  intros w a w'. unfold draw. destruct (f (w_random w)) as [a0 g].
  intros E. injection E as _ <-. split; reflexivity.
Qed.

Lemma in_step_ret {A} (a : A) :
  in_step (ret (F := F) (G := G) a) (fun _ _ a1 a2 => a1 = a2).
Proof.
  intros w1 w2 Hw. exists a, a, w1, w2. repeat split; assumption.
Qed.

Lemma keeps_clock_ret {A} (a : A) : keeps_clock (ret (F := F) (G := G) a).
Proof. intros w a0 w' E. injection E as _ <-. split; reflexivity. Qed.

Lemma in_step_if {A} (c : bool) (m1 m2 : M F G A) (R : F -> F -> A -> A -> Prop) :
  in_step m1 R -> in_step m2 R -> in_step (if c then m1 else m2) R.
Proof. destruct c; auto. Qed.

Lemma keeps_clock_if {A} (c : bool) (m1 m2 : M F G A) :
  keeps_clock m1 -> keeps_clock m2 -> keeps_clock (if c then m1 else m2).
Proof. destruct c; auto. Qed.

(** The last two steps: the clock is read into the timestamp. *)
Lemma in_step_stamp (mk : F -> Weather F) :
  (forall s1 s2, stamped s1 s2 (mk s1) (mk s2)) ->
  in_step (G := G) (bind now (fun stamp => ret (mk stamp))) stamped.
Proof.
  intros HR w1 w2 Hw.
  eexists _, _, _, _. split; [reflexivity|]. split; [reflexivity|].
  split; [apply HR | exact Hw].
Qed.

(** The record is a function of the seed, but for its timestamp, the
    second reading of the clock. *)
Lemma simulated_weather_run (latitude longitude : F) (w1 w2 : World F G) :
  weather_seed latitude longitude (w_clock w1 (w_ticks w1))
  = weather_seed latitude longitude (w_clock w2 (w_ticks w2)) ->
  exists r1 r2 w1' w2',
    _get_simulated_weather random latitude longitude w1 = (Some r1, w1')
    /\ _get_simulated_weather random latitude longitude w2 = (Some r2, w2')
    /\ stamped (w_clock w1 (S (w_ticks w1))) (w_clock w2 (S (w_ticks w2))) r1 r2.
Proof.
  intros Hseed. unfold _get_simulated_weather.
  rewrite !bind_now, !bind_reseed. rewrite Hseed.
  match goal with
  | |- exists r1 r2 w1' w2', ?body ?u1 = _ /\ ?body ?u2 = _ /\ _ =>
      assert (Hs : in_step body stamped)
  end.
  { cbv zeta.
    apply in_step_bind;
      [apply in_step_draw | apply keeps_clock_draw | intros temp_variation].
    apply in_step_bind;
      [apply in_step_draw | apply keeps_clock_draw | intros weather_main].
    apply in_step_bind.
    { repeat apply in_step_if; try apply in_step_draw. apply in_step_ret. }
    { repeat apply keeps_clock_if; try apply keeps_clock_draw.
      apply keeps_clock_ret. }
    intros precipitation.
    do 7 (apply in_step_bind;
          [apply in_step_draw | apply keeps_clock_draw | intros ?]).
    apply (in_step_stamp
             (fun stamp =>
                {| temperature := _; feels_like := _; humidity := _;
                   pressure := _; wind_speed := _; wind_direction := _;
                   cloudiness := _; precipitation := _; weather_main := _;
                   weather_description := _; visibility := _;
                   timestamp := stamp; weather_simulated := _ |})).
    intros s1 s2. repeat split. }
  match goal with
  | |- exists r1 r2 w1' w2', ?body ?u1 = _ /\ ?body ?u2 = _ /\ _ =>
      destruct (Hs u1 u2 eq_refl) as (r1 & r2 & v1 & v2 & E1 & E2 & HR & _)
  end.
  exists r1, r2, v1, v2. split; [exact E1|]. split; [exact E2|]. exact HR.
Qed.
End WeatherFacts.




(** * Truncated polylines *)

(** Reading only continuation characters runs off the end. *)
Lemma read_chunks_all_continue (s : list ascii) :
  Forall (fun c => 32 <= ord c - 63) s ->
  forall shift acc, read_chunks s shift acc = None.
Proof.
  induction 1 as [| c s Hc _ IH]; intros shift acc; cbn [read_chunks]; [reflexivity|].
  destruct (Z.ltb_spec (ord c - 63) 32); [lia | apply IH].
Qed.

(** Every character [encode_chunks] writes but the last has the
    continuation bit. *)
Lemma encode_chunks_continue (fuel : nat) :
  forall v, Forall (fun c => 32 <= ord c - 63) (removelast (encode_chunks fuel v)).
Proof.
  induction fuel as [| fuel IH]; intros v; cbn [encode_chunks].
  - constructor.
  - destruct (v <? 32); [constructor|].
    destruct (encode_chunks_cons fuel (Z.shiftr v 5)) as (c & cs & Hc).
    specialize (IH (Z.shiftr v 5)). rewrite Hc in *.
    cbn [removelast] in *. constructor; [|exact IH].
    pose proof (continuation v). rewrite ord_chr by lia. lia.
Qed.

Lemma read_truncated_value (d : Z) :
  read_chunks (removelast (encode_value d)) 0 0 = None.
Proof. apply read_chunks_all_continue, encode_chunks_continue. Qed.

Lemma encode_value_cons (d : Z) : exists c cs, encode_value d = c :: cs.
Proof. apply encode_chunks_cons. Qed.

Lemma last_cons {A} (l : list A) :
  forall x d, last (x :: l) d = last l x.
Proof.
  induction l as [| y l IH]; intros x d; [reflexivity|].
  change (last (x :: y :: l) d) with (last (y :: l) d).
  now rewrite !IH.
Qed.

Section TruncationFacts.
Context {F : Type} `{PyFloat F}.

(** The decoder on a string that begins with whole points goes through
    them and on with the rest. *)
Lemma decode_loop_through (pts : list (Z * Z)) :
  forall fuel lat lng tail,
    decode_loop (F := F) (List.length pts + fuel)
      (encode_from lat lng pts ++ tail) lat lng
    = match decode_loop (F := F) fuel tail
              (fst (last pts (lat, lng))) (snd (last pts (lat, lng))) with
      | Some rest => Some (map scale pts ++ rest)
      | None => None
      end.
Proof.
  induction pts as [| [lat' lng'] pts IH]; intros fuel lat lng tail.
  - cbn. destruct (decode_loop fuel tail lat lng); reflexivity.
  - cbn [encode_from List.length Nat.add].
    destruct (encode_value_cons (lat' - lat)) as (c & cs & Hc).
    rewrite <- !app_assoc.
    pose proof (read_encode_value (lat' - lat)
                  (encode_value (lng' - lng) ++ encode_from lat' lng' pts ++ tail))
      as R1.
    rewrite Hc in *. cbn [app] in *. cbn [decode_loop]. rewrite R1.
    rewrite read_encode_value, !unzigzag_zigzag.
    replace (lat + (lat' - lat)) with lat' by lia.
    replace (lng + (lng' - lng)) with lng' by lia.
    rewrite IH.
    rewrite last_cons.
    destruct (decode_loop fuel tail _ _); reflexivity.
Qed.
End TruncationFacts.

Lemma encode_from_app (l1 l2 : list (Z * Z)) :
  forall lat lng,
    encode_from lat lng (l1 ++ l2)
    = encode_from lat lng l1
      ++ encode_from (fst (last l1 (lat, lng))) (snd (last l1 (lat, lng))) l2.
Proof.
  induction l1 as [| [lat' lng'] l1 IH]; intros lat lng; [reflexivity|].
  cbn [app encode_from]. rewrite IH, last_cons, <- !app_assoc. reflexivity.
Qed.

(** X1.  A polyline cut short by one character cannot be decoded: for
    every non-empty coordinate sequence, [_decode_polyline] raises
    ([IndexError]) on the encoding without its last character. *)
Theorem truncated_polyline_raises {F : Type} `{PyFloat F} (coords : list (Q * Q)) :
  coords <> [] ->
  _decode_polyline (F := F) (drop_last (encode_polyline coords)) = None.
Proof.
  intros Hne. unfold _decode_polyline, drop_last, encode_polyline. cbv zeta.
  rewrite !list_ascii_of_string_of_list_ascii.
  destruct (exists_last Hne) as (init & [x y] & ->).
  rewrite map_app. cbn [map fst snd].
  set (pts := map (fun p : Q * Q => (e5 (fst p), e5 (snd p))) init).
  rewrite encode_from_app. cbn [encode_from]. rewrite app_nil_r.
  set (lat0 := fst (last pts (0, 0))). set (lng0 := snd (last pts (0, 0))).
  destruct (encode_value_cons (e5 y - lng0)) as (c & cs & Hc).
  rewrite app_assoc, removelast_app by (rewrite Hc; discriminate).
  rewrite <- app_assoc.
  assert (Hr : read_chunks (removelast (encode_value (e5 y - lng0))) 0 0 = None)
    by apply read_truncated_value.
  set (rl := removelast (encode_value (e5 y - lng0))) in *. clearbody rl.
  pose proof (read_encode_value (e5 x - lat0) rl) as R1.
  destruct (encode_value_cons (e5 x - lat0)) as (c' & cs' & Hc').
  rewrite Hc' in *.
  set (s := encode_from 0 0 pts ++ (c' :: cs') ++ rl).
  rewrite (decode_loop_fuel (List.length s) (List.length pts + List.length s))
    by lia.
  unfold s at 2. rewrite decode_loop_through. fold lat0 lng0.
  assert (Hlen : exists n, List.length s = S n).
  { unfold s. destruct (encode_from 0 0 pts); cbn; eauto. }
  destruct Hlen as (n & ->).
  cbn [app] in *. cbn [decode_loop]. rewrite R1, Hr. reflexivity.
Qed.

Lemma truncated_polyline_raises_witness :
  _decode_polyline (F := Q)
    (drop_last (encode_polyline [(38.5, -120.2); (40.7, -120.95)]%Q)) = None.
Proof.
  apply (truncated_polyline_raises [(38.5, -120.2); (40.7, -120.95)]%Q).
  discriminate.
Defined.

(** * The simulated path *)

(** X2.  Where the straight-line distance [d] can be computed, the path
    of the simulated route has [max(5, int(2 d)) + 1] points, six at
    least; in exact arithmetic it starts at the start coordinate and ends
    at the end coordinate; and building the route only draws from the
    generator.  Where [math.sqrt] raises, the simulator raises and
    leaves everything as it was. *)
Theorem simulated_route_path (math : MathModule Q) {G : Type}
  (random : RandomModule Q G) (a b : Coord Q) (w : World Q G) :
  match _haversine_distance math a b with
  | Some d =>
      exists r path w',
        _get_simulated_route math random a b w = (Some r, w')
        /\ coordinates r = Points path
        /\ List.length path = Z.to_nat (num_waypoints d + 1)
        /\ (6 <= List.length path)%nat
        /\ (exists p, hd_error path = Some p /\ same_point p a)
        /\ (exists p, nth_error path (List.length path - 1) = Some p
                      /\ same_point p b)
        /\ only_random w w'
  | None => _get_simulated_route math random a b w = (None, w)
  end.
Proof.
  pose proof (simulated_route_run math random a b w) as Hrun.
  destruct (_haversine_distance math a b) as [d |]; [|exact Hrun].
  destruct Hrun as (path & w' & E & Ep & Fr).
  pose proof (num_waypoints_ge_5 d) as H5.
  set (n := num_waypoints d) in *.
  destruct (interpolate_path_run random a b n w ltac:(lia))
    as (path' & w'' & E' & _ & Hl & Hp).
  rewrite Ep in E'. injection E' as <- <-.
  exists (simulated_route d path), path, w'.
  split; [exact E|]. split; [reflexivity|]. split; [exact Hl|]. split; [lia|].
  split; [| split; [| exact Fr]].
  - destruct (Hp 0 ltac:(lia)) as (p & Hn & Hpt). exists p. split.
    + destruct path; [discriminate | exact Hn].
    + unfold point_at in Hpt. cbn in Hpt. subst p. apply interp_first.
  - destruct (Hp n ltac:(lia)) as (p & Hn & Hpt). exists p. split.
    + rewrite Hl. replace (Z.to_nat (n + 1) - 1)%nat with (Z.to_nat n) by lia.
      exact Hn.
    + unfold point_at in Hpt. rewrite Z.ltb_irrefl, andb_false_r in Hpt.
      subst p. apply interp_last. lia.
Qed.

(** * Requests on the network *)

Section RequestFacts.
Context {F : Type} `{PyFloat F} `{PyBuiltins F}.
Context (math : MathModule F) {G : Type} (random : RandomModule F G).

(** X3.  A call of [get_optimal_route] sends exactly one request when
    the client is enabled for Google or OpenRouteService, whatever the
    network answers, and none otherwise: a client without a key never
    touches the network.  This holds whether the call returns or raises;
    and it raises exactly when the provider does not answer and the
    straight-line distance cannot be computed. *)
Theorem resolver_requests (self : RoutingAPI) (a b : Coord F)
  (mode optimize_for : string) (w : World F G) :
  exists out w',
    get_optimal_route math random self a b mode optimize_for w = (out, w')
    /\ w_requests w'
       = (if enabled self
             && (String.eqb (api_service self) "google"
                 || String.eqb (api_service self) "openroute")
          then S (w_requests w) else w_requests w)
    /\ (out = None
        <-> _haversine_distance math a b = None
            /\ forall r, ~ Answers self (w_replies w (w_requests w)) r).
Proof.
  destruct (get_optimal_route_run math random self a b mode optimize_for w)
    as (out & w' & E & _ & _ & _ & _ & Hq & R).
  exists out, w'. split; [exact E|]. split; [exact Hq|]. split.
  - intros ->. inversion R. split; assumption.
  - intros [Hd Hno].
    destruct R as [r Ha | d path _ Hd' | _ _]; [| |reflexivity].
    + destruct (Hno r Ha).
    + congruence.
Qed.
End RequestFacts.

(** * The configuration *)

(** X4.  [RoutingAPI.__init__]: a client is enabled only for the services
    'google' and 'openroute'; a key passed in, not empty and not one of
    the two placeholders, enables it for these services whatever the
    environment holds; with no key passed in and none in the
    environment it is not enabled. *)
Theorem routing_client_enabled :
  (forall service api_key getenv,
      enabled (RoutingAPI_init service api_key getenv) = true ->
      service = "google"%string \/ service = "openroute"%string)
  /\ (forall service key getenv,
        service = "google"%string \/ service = "openroute"%string ->
        key <> ""%string ->
        key <> "YOUR_GOOGLE_MAPS_API_KEY_HERE"%string ->
        key <> "YOUR_OPENROUTE_API_KEY_HERE"%string ->
        enabled (RoutingAPI_init service (Some key) getenv) = true
        /\ api_key (RoutingAPI_init service (Some key) getenv) = Some key)
  /\ (forall service,
        enabled (RoutingAPI_init service None (fun _ => None)) = false).
Proof.
  split; [| split].
  - intros service key getenv. unfold RoutingAPI_init. cbn [enabled].
    destruct (String.eqb_spec service "google"); [auto|].
    destruct (String.eqb_spec service "openroute"); [auto | discriminate].
  - intros service key getenv Hs Hk Hg Ho.
    apply String.eqb_neq in Hk, Hg, Ho.
    unfold RoutingAPI_init, key_or_env. cbn [enabled api_key]. rewrite Hk.
    destruct Hs as [-> | ->]; cbn [String.eqb Ascii.eqb Bool.eqb];
      rewrite Hg, Ho; split; reflexivity.
  - intros service. unfold RoutingAPI_init, key_or_env. cbn [enabled].
    destruct (String.eqb service "google"); [reflexivity|].
    destruct (String.eqb service "openroute"); reflexivity.
Qed.

(** * Alternatives and arrival times *)

Lemma traverse_forall2 {A B} (f : A -> option B) (l : list A) :
  forall l', traverse f l = Some l' -> Forall2 (fun a b => f a = Some b) l l'.
Proof.
  induction l as [| a l IH]; intros l' Ht; cbn [traverse] in Ht.
  - injection Ht as <-. constructor.
  - destruct (f a) as [b |] eqn:Ef; cbn [obind] in Ht; [|discriminate].
    destruct (traverse f l) as [bs |]; cbn [obind] in Ht; [|discriminate].
    injection Ht as <-. constructor; [exact Ef | apply IH; reflexivity].
Qed.

Section AlternativeFacts.
Context {F : Type} `{PyFloat F} `{PyBuiltins F}.
Context (math : MathModule F) {G : Type} (random : RandomModule F G).

(** X5.  With [num_alternatives] at most 1 (0 and negative numbers
    included) [get_multiple_routes] does what [get_optimal_route] does:
    it returns the primary route alone, in a list that is never empty,
    when the resolver returns, and it raises when the resolver raises. *)
Theorem multiple_routes_at_most_one (self : RoutingAPI) (a b : Coord F)
  (n : Z) (w : World F G) :
  n <= 1 ->
  get_multiple_routes math random self a b n w
  = (option_map (fun primary => [primary])
       (fst (get_optimal_route math random self a b "driving" "time" w)),
     snd (get_optimal_route math random self a b "driving" "time" w)).
Proof.
  intros Hn. unfold get_multiple_routes, bind.
  destruct (get_optimal_route math random self a b "driving" "time" w)
    as [[primary |] w']; [|reflexivity].
  unfold range1. replace (Z.to_nat (n - 1)) with 0%nat by lia.
  destruct (simulated primary); reflexivity.
Qed.

End AlternativeFacts.

Lemma multiple_routes_at_most_one_witness :
  get_multiple_routes series_math lcg unconfigured_client times_square
    downtown 0 offline_world
  = (option_map (fun primary => [primary])
       (fst (get_optimal_route series_math lcg unconfigured_client
               times_square downtown "driving" "time" offline_world)),
     snd (get_optimal_route series_math lcg unconfigured_client
            times_square downtown "driving" "time" offline_world)).
Proof.
  apply (multiple_routes_at_most_one series_math lcg unconfigured_client
           times_square downtown 0 offline_world).
  lia.
Defined.


(** * A Google route is its document *)

Section DocumentFacts.
Context {F : Type} `{PyFloat F} `{PyBuiltins F}.
Context (math : MathModule F) {G : Type} (random : RandomModule F G).

Lemma google_route_parts (routes : Json F) (r : Route F) :
  google_route_data routes = Some r ->
  exists route leg poly points path steps_json js,
    index0 routes = Some route
    /\ first_leg routes = Some leg
    /\ getitem "overview_polyline" route = Some poly
    /\ getitem "points" poly = Some points
    /\ _decode_polyline_value points = Some path
    /\ coordinates r = Points path
    /\ getitem "steps" leg = Some steps_json
    /\ iterate steps_json = Some js
    /\ Forall2 (fun j st => google_step j = Some st) js (steps r).
Proof.
  intros Hr. unfold google_route_data in Hr.
  repeat step_obind Hr. injection Hr as <-. cbn [coordinates steps].
  unfold _extract_steps in E17. step_obind E17.
  apply traverse_forall2 in E17.
  exists j, j1, j2, j3, l, j12, l1. unfold first_leg.
  rewrite E. cbn [obind]. rewrite E0. cbn [obind].
  repeat split; assumption.
Qed.

(** X7.  A route tagged 'google' is the document's route in full: the
    reply has status 200 and a document with the status 'OK', the path
    is what [_decode_polyline] makes of the overview polyline, a string
    or any other value it can read, and there is one step for each step
    of the first leg, in order.  A document whose polyline cannot be
    decoded or one of whose steps cannot be read never yields a route
    tagged 'google'. *)
Theorem google_route_is_the_document (self : RoutingAPI) (a b : Coord F)
  (mode optimize_for : string) (w w' : World F G) (r : Route F) :
  get_optimal_route math random self a b mode optimize_for w = (Some r, w') ->
  service r = "google"%string ->
  exists data status routes route leg poly points path steps_json js,
    w_replies w (w_requests w) = Response 200 (Some data)
    /\ getitem "status" data = Some status
    /\ is_str "OK" status = true
    /\ getitem "routes" data = Some routes
    /\ index0 routes = Some route
    /\ first_leg routes = Some leg
    /\ getitem "overview_polyline" route = Some poly
    /\ getitem "points" poly = Some points
    /\ _decode_polyline_value points = Some path
    /\ coordinates r = Points path
    /\ getitem "steps" leg = Some steps_json
    /\ iterate steps_json = Some js
    /\ Forall2 (fun j st => google_step j = Some st) js (steps r).
Proof.
  intros E Hsv.
  destruct (get_optimal_route_run math random self a b mode optimize_for w)
    as (out & v & E' & _ & _ & _ & _ & _ & R).
  rewrite E in E'. injection E' as <- <-.
  inversion R as [r' Ha | d path Hno Hd Hr | ]; subst.
  - destruct Ha as [data status routes He Hs Hr Hst Hok Hro Htr Hg
                   | data routes He Hs Hr Hin Hro Htr Ho].
    + destruct (google_route_parts routes r Hg)
        as (route & leg & poly & points & path & sj & js
            & P1 & P2 & P3 & P4 & P5 & P6 & P7 & P8 & P9).
      exists data, status, routes, route, leg, poly, points, path, sj, js.
      repeat split; assumption.
    + destruct (openroute_route_fields routes r Ho) as (_ & Hsv' & _).
      congruence.
  - discriminate Hsv.
Qed.
End DocumentFacts.

(** [_decode_polyline] on a string is the decoder of the claims. *)
Lemma decode_polyline_value_string {F : Type} `{PyFloat F} (s : string) :
  _decode_polyline_value (F := F) (JStr s) = _decode_polyline s.
Proof. reflexivity. Qed.

Lemma google_route_is_the_document_witness :
  exists r w' data status routes route leg poly points path steps_json js,
    get_optimal_route series_math lcg google_client times_square downtown
      "driving" "time" google_world = (Some r, w')
    /\ service r = "google"%string
    /\ w_replies google_world (w_requests google_world)
       = Response 200 (Some data)
    /\ getitem "status" data = Some status
    /\ is_str "OK" status = true
    /\ getitem "routes" data = Some routes
    /\ index0 routes = Some route
    /\ first_leg routes = Some leg
    /\ getitem "overview_polyline" route = Some poly
    /\ getitem "points" poly = Some points
    /\ _decode_polyline_value points = Some path
    /\ coordinates r = Points path
    /\ getitem "steps" leg = Some steps_json
    /\ iterate steps_json = Some js
    /\ Forall2 (fun j st => google_step j = Some st) js (steps r).
Proof.
  assert (Hrun : exists r w',
             get_optimal_route series_math lcg google_client times_square
               downtown "driving" "time" google_world = (Some r, w')
             /\ service r = "google"%string)
    by (eexists _, _; split; vm_compute; reflexivity).
  destruct Hrun as (r & w' & E & Hsv).
  destruct (google_route_is_the_document series_math lcg google_client
              times_square downtown "driving" "time" google_world w' r E Hsv)
    as (data & status & routes & route & leg & poly & points & path & sj & js
        & Hdoc).
  exists r, w', data, status, routes, route, leg, poly, points, path, sj, js.
  split; [exact E|]. split; [exact Hsv | exact Hdoc].
Defined.

(** The same polyline sent as a list of one-character strings is
    decoded all the same, and the route is tagged 'google'. *)
Example polyline_as_a_list :
  option_map (fun r => (service r, path_length (coordinates r)))
    (fst (get_optimal_route series_math lcg google_client times_square
            downtown "driving" "time" listed_polyline_world))
  = Some ("google"%string, 3%nat).
Proof. vm_compute. reflexivity. Qed.

(** * Reverse geocoding *)

Section ReverseFacts.
Context {F : Type} `{PyFloat F} {G : Type}.

End ReverseFacts.

(** Google answers ZERO_RESULTS: [reverse_geocode] returns [None] after
    one request, where [geocode] goes on to OpenCage and Nominatim. *)
Example reverse_geocode_stops_at_google :
  let self := GeocodingAPI_init (Some "a-key"%string) None (fun _ => None) in
  let w := answering (F := Q) (G := Z)
             (Response 200 (Some (JObj [("status", JStr "ZERO_RESULTS")]%string)))
             42 0 in
  (fst (reverse_geocode self (6.5244)%Q (3.3792)%Q w) = Some None
   /\ w_requests (snd (reverse_geocode self (6.5244)%Q (3.3792)%Q w)) = 1%nat)
  /\ w_requests (snd (geocode (fun _ => None) self "Lagos" None w)) = 2%nat.
Proof. vm_compute. repeat split. Qed.

(** * Requests of the geocoder *)

Section GeocodeRequestFacts.
Context {F : Type} `{PyFloat F} {G : Type}.
Context (float_of_str : string -> option F).

Lemma nominatim_one_request (q : string) (hint : option string) :
  one_request (_geocode_nominatim (G := G) float_of_str q hint).
Proof.
  intros w. unfold _geocode_nominatim, bind, http_request, raise, lift, ret.
  destruct (w_replies w (w_requests w)) as [| code json]; [reflexivity|].
  destruct (code =? 200); [|reflexivity].
  destruct json as [data |]; [|reflexivity].
  destruct (truthy data); reflexivity.
Qed.

Lemma google_one_request (q : string) (hint : option string) :
  one_request (_geocode_google (G := G) q hint).
Proof.
  intros w. unfold _geocode_google, bind, http_request, raise, lift, ret.
  destruct (w_replies w (w_requests w)) as [| code json]; [reflexivity|].
  destruct (code =? 200); [|reflexivity].
  destruct json as [data |]; [|reflexivity].
  destruct (getitem "status" data) as [status |]; [|reflexivity].
  destruct (is_str "OK" status); [|reflexivity].
  destruct (getitem "results" data) as [results |]; [|reflexivity].
  destruct (truthy results); reflexivity.
Qed.

Lemma opencage_one_request (q : string) (hint : option string) :
  one_request (_geocode_opencage (G := G) q hint).
Proof.
  intros w. unfold _geocode_opencage, bind, http_request, raise, lift, ret.
  destruct (w_replies w (w_requests w)) as [| code json]; [reflexivity|].
  destruct (code =? 200); [|reflexivity].
  destruct json as [data |]; [|reflexivity].
  destruct (getitem "results" data) as [results |]; [|reflexivity].
  destruct (truthy results); reflexivity.
Qed.

Lemma geocode_loop_requests (q : string) (hint : option string)
  (ps : list (string * Adapter (F := F) (G := G))) :
  (forall name f, In (name, f) ps -> one_request (f q hint)) ->
  forall w,
    (w_requests w <= w_requests (snd (geocode_loop ps q hint w))
     <= w_requests w + List.length ps)%nat
    /\ (ps <> [] ->
        (w_requests w < w_requests (snd (geocode_loop ps q hint w)))%nat)
    /\ (fst (geocode_loop ps q hint w) = Some None ->
        w_requests (snd (geocode_loop ps q hint w))
        = (w_requests w + List.length ps)%nat).
Proof.
  induction ps as [| [name f] ps IH]; intros Hone w.
  - cbn. split; [lia|]. split; [|lia]. intros Hc. now contradiction Hc.
  - pose proof (Hone name f (or_introl eq_refl) w) as H1.
    assert (Hrest : forall name' f', In (name', f') ps -> one_request (f' q hint))
      by (intros n' f' Hin; apply (Hone n' f'); right; exact Hin).
    cbn [geocode_loop List.length]. unfold bind at 1. unfold try_except, bind, ret.
    destruct (f q hint w) as [[[r0 |] |] w1] eqn:Ef; cbn [fst snd] in *.
    + split; [lia|]. split; [lia|]. discriminate.
    + destruct (IH Hrest w1) as (Hle & _ & Hnone).
      split; [lia|]. split; [lia|]. intros Hn. rewrite (Hnone Hn). lia.
    + destruct (IH Hrest w1) as (Hle & _ & Hnone).
      split; [lia|]. split; [lia|]. intros Hn. rewrite (Hnone Hn). lia.
Qed.

(** X9.  [geocode] sends at least one request, Nominatim being always in
    the chain, and at most one for each enabled provider, three at most;
    when it returns [None] every provider of the chain was asked. *)
Theorem geocode_requests (self : GeocodingAPI) (q : string)
  (hint : option string) (w : World F G) :
  nominatim_enabled self = true ->
  let n := List.length (providers (G := G) float_of_str self) in
  (1 <= n <= 3)%nat
  /\ (w_requests w < w_requests (snd (geocode float_of_str self q hint w))
      <= w_requests w + n)%nat
  /\ (fst (geocode float_of_str self q hint w) = Some None ->
      w_requests (snd (geocode float_of_str self q hint w))
      = (w_requests w + n)%nat).
Proof.
  intros Hnom n.
  assert (Hone : forall name f,
             In (name, f) (providers (G := G) float_of_str self) ->
             one_request (f q hint)).
  { intros name f. unfold providers. rewrite !in_app_iff.
    intros [Hin | [Hin | Hin]].
    - destruct (google_enabled self); [|contradiction].
      destruct Hin as [[= <- <-] | []]. apply google_one_request.
    - destruct (opencage_enabled self); [|contradiction].
      destruct Hin as [[= <- <-] | []]. apply opencage_one_request.
    - destruct (nominatim_enabled self); [|contradiction].
      destruct Hin as [[= <- <-] | []]. apply nominatim_one_request. }
  assert (Hn : (1 <= n <= 3)%nat).
  { unfold n, providers. rewrite Hnom, !length_app.
    destruct (google_enabled self), (opencage_enabled self); cbn; lia. }
  destruct (geocode_loop_requests q hint _ Hone w) as ((_ & Hle) & Hlt & Hnone).
  unfold geocode. fold n in Hle, Hnone.
  split; [exact Hn|]. split; [split; [|exact Hle] | exact Hnone].
  apply Hlt. intros Hnil. unfold n in Hn. rewrite Hnil in Hn. cbn in Hn. lia.
Qed.
End GeocodeRequestFacts.

(** With no key only Nominatim is asked: one request when it answers. *)
Lemma geocode_requests_witness :
  let n := List.length (providers (G := Z) no_float unconfigured_geocoder) in
  (1 <= n <= 3)%nat
  /\ (w_requests lagos_world
      < w_requests (snd (geocode no_float unconfigured_geocoder "Lagos" None
                           lagos_world))
      <= w_requests lagos_world + n)%nat
  /\ (fst (geocode no_float unconfigured_geocoder "Lagos" None lagos_world)
      = Some None ->
      w_requests (snd (geocode no_float unconfigured_geocoder "Lagos" None
                         lagos_world))
      = (w_requests lagos_world + n)%nat).
Proof.
  apply (geocode_requests no_float unconfigured_geocoder "Lagos"%string None
           lagos_world).
  reflexivity.
Defined.

(** * Where a geocoding result comes from *)

Section GeocodeResultFacts.
Context {F : Type} `{PyFloat F} {G : Type}.
Context (float_of_str : string -> option F).

Lemma nominatim_result (q : string) (hint : option string) (w w' : World F G)
  (r : GeocodeResult F) :
  _geocode_nominatim float_of_str q hint w = (Some (Some r), w') ->
  nominatim_answer (set_provider "nominatim" r).
Proof.
  unfold _geocode_nominatim, bind, http_request, raise, lift, ret.
  destruct (w_replies w (w_requests w)) as [| code json]; [discriminate|].
  destruct (code =? 200); [|discriminate].
  destruct json as [data |]; [|discriminate].
  destruct (truthy data); [|discriminate].
  intros Hr. injection Hr as Hr _. repeat step_obind Hr.
  injection Hr as <-. unfold nominatim_answer. cbn.
  split; [reflexivity|]. split; [reflexivity|]. split.
  - unfold py_float in E2, E4.
    assert (Hnum : forall a b, match a with
                                | JNum x => Some (JNum x)
                                | JBool b => Some (JNum (of_int (if b then 1 else 0)))
                                | JStr s => obind (float_of_str s) (fun x => Some (JNum x))
                                | _ => None
                                end = Some b -> exists x, b = JNum x).
    { intros a b Hj. destruct a; try discriminate Hj.
      - injection Hj as <-. eauto.
      - injection Hj as <-. eauto.
      - destruct (float_of_str s); [|discriminate Hj]. injection Hj as <-. eauto. }
    destruct (Hnum _ _ E2) as (x & ->). destruct (Hnum _ _ E4) as (y & ->). eauto.
  - unfold json_upper in E11. step_obind E11. injection E11 as <-. eauto.
Qed.

Lemma google_result (q : string) (hint : option string) (w w' : World F G)
  (r : GeocodeResult F) :
  _geocode_google q hint w = (Some (Some r), w') ->
  google_answer (set_provider "google" r).
Proof.
  unfold _geocode_google, bind, http_request, raise, lift, ret.
  destruct (w_replies w (w_requests w)) as [| code json]; [discriminate|].
  destruct (code =? 200); [|discriminate].
  destruct json as [data |]; [|discriminate].
  destruct (getitem "status" data) as [status |]; [|discriminate].
  destruct (is_str "OK" status); [|discriminate].
  destruct (getitem "results" data) as [results |]; [|discriminate].
  destruct (truthy results); [|discriminate].
  intros Hr. injection Hr as Hr _. repeat step_obind Hr.
  injection Hr as <-. unfold google_answer. cbn.
  split; [reflexivity|]. split; [reflexivity|]. assumption.
Qed.

Lemma opencage_result (q : string) (hint : option string) (w w' : World F G)
  (r : GeocodeResult F) :
  _geocode_opencage q hint w = (Some (Some r), w') ->
  opencage_answer (set_provider "opencage" r).
Proof.
  unfold _geocode_opencage, bind, http_request, raise, lift, ret.
  destruct (w_replies w (w_requests w)) as [| code json]; [discriminate|].
  destruct (code =? 200); [|discriminate].
  destruct json as [data |]; [|discriminate].
  destruct (getitem "results" data) as [results |]; [|discriminate].
  destruct (truthy results); [|discriminate].
  intros Hr. injection Hr as Hr _. repeat step_obind Hr.
  injection Hr as <-. unfold opencage_answer. cbn.
  split; [reflexivity|].
  unfold json_upper in E9. step_obind E9. injection E9 as <-. eauto.
Qed.

Lemma geocode_loop_result (P : GeocodeResult F -> Prop) (q : string)
  (hint : option string) (ps : list (string * Adapter (F := F) (G := G))) :
  (forall name f, In (name, f) ps ->
     forall w r w', f q hint w = (Some (Some r), w') -> P (set_provider name r)) ->
  forall w r w', geocode_loop ps q hint w = (Some (Some r), w') -> P r.
Proof.
  induction ps as [| [name f] ps IH]; intros Hall w r w'.
  - cbn. discriminate.
  - cbn [geocode_loop]. unfold bind at 1. unfold try_except, bind, ret.
    assert (Hrest : forall name' f', In (name', f') ps ->
              forall w0 r0 w1, f' q hint w0 = (Some (Some r0), w1) ->
                               P (set_provider name' r0))
      by (intros n' f' Hin; apply (Hall n' f'); right; exact Hin).
    destruct (f q hint w) as [[[r0 |] |] w1] eqn:Ef.
    + intros [= <- <-]. apply (Hall name f (or_introl eq_refl) w r0 w1 Ef).
    + apply (IH Hrest).
    + apply (IH Hrest).
Qed.

(** X10.  A result of [geocode] names the provider it came from, an
    enabled one, and its fields are that provider's: Google's has
    confidence 'high' and, as country code, the first two characters of
    the country's long name; OpenCage's and Nominatim's carry the country
    code in upper case, and Nominatim's has confidence 'medium' and
    numeric coordinates. *)
Theorem geocode_result_provider (self : GeocodingAPI) (q : string)
  (hint : option string) (w w' : World F G) (r : GeocodeResult F) :
  geocode float_of_str self q hint w = (Some (Some r), w') ->
  (google_enabled self = true /\ google_answer r)
  \/ (opencage_enabled self = true /\ opencage_answer r)
  \/ (nominatim_enabled self = true /\ nominatim_answer r).
Proof.
  unfold geocode.
  apply (geocode_loop_result
           (fun r => (google_enabled self = true /\ google_answer r)
                     \/ (opencage_enabled self = true /\ opencage_answer r)
                     \/ (nominatim_enabled self = true /\ nominatim_answer r))).
  intros name f. unfold providers. rewrite !in_app_iff.
  intros [Hin | [Hin | Hin]] w0 r0 w1 Hf.
  - destruct (google_enabled self); [|contradiction].
    destruct Hin as [[= <- <-] | []]. left. split; [reflexivity|].
    exact (google_result _ _ _ _ _ Hf).
  - destruct (opencage_enabled self); [|contradiction].
    destruct Hin as [[= <- <-] | []]. right. left. split; [reflexivity|].
    exact (opencage_result _ _ _ _ _ Hf).
  - destruct (nominatim_enabled self); [|contradiction].
    destruct Hin as [[= <- <-] | []]. right. right. split; [reflexivity|].
    exact (nominatim_result _ _ _ _ _ Hf).
Qed.
End GeocodeResultFacts.

(** Nominatim's answer for Lagos: the code 'ng' comes back as 'NG'. *)
Lemma geocode_result_provider_witness :
  exists r w',
    geocode no_float unconfigured_geocoder "Lagos" None
      lagos_world
    = (Some (Some r), w')
    /\ country_code r = JStr "NG"
    /\ ((google_enabled unconfigured_geocoder = true /\ google_answer r)
        \/ (opencage_enabled unconfigured_geocoder = true /\ opencage_answer r)
        \/ (nominatim_enabled unconfigured_geocoder = true /\ nominatim_answer r)).
Proof.
  eexists _, _. split; [vm_compute; reflexivity|].
  split; [vm_compute; reflexivity|].
  eapply (geocode_result_provider no_float unconfigured_geocoder "Lagos"%string
            None lagos_world).
  vm_compute. reflexivity.
Defined.

(** * The weather client *)

Section SimulatesFacts.
Context {F G : Type}.

Lemma simulates_bind {A B} (m : M F G A) (k : A -> M F G B)
  (P : A -> Prop) (Q : B -> Prop) :
  simulates m P -> (forall a, P a -> simulates (k a) Q) ->
  simulates (bind m k) Q.
Proof.
  intros Hm Hk w. destruct (Hm w) as (a & w1 & Em & Pa & Hq & Hr).
  destruct (Hk a Pa w1) as (b & w2 & Ek & Qb & Hq' & Hr').
  exists b, w2. unfold bind. rewrite Em, Ek.
  split; [reflexivity|]. split; [exact Qb|]. split; congruence.
Qed.

Lemma simulates_draw {A} (f : G -> A * G) (P : A -> Prop) :
  (forall g, P (fst (f g))) -> simulates (draw (F := F) f) P.
Proof.
  intros Hf w. unfold draw. specialize (Hf (w_random w)).
  destruct (f (w_random w)) as [a g]. eexists _, _.
  split; [reflexivity|]. split; [exact Hf|]. split; reflexivity.
Qed.

Lemma simulates_now : simulates (now (F := F) (G := G)) (fun _ => True).
Proof. intros w. eexists _, _. repeat split. Qed.

Lemma simulates_reseed (g : G) : simulates (reseed (F := F) g) (fun _ => True).
Proof. intros w. eexists _, _. repeat split. Qed.

Lemma simulates_ret {A} (a : A) (P : A -> Prop) :
  P a -> simulates (ret (F := F) (G := G) a) P.
Proof. intros Pa w. exists a, w. repeat split. exact Pa. Qed.

Lemma simulates_lift {A} (o : option A) :
  o <> None -> simulates (lift (F := F) (G := G) o) (fun _ => True).
Proof.
  intros Ho w. destruct o as [a |]; [|contradiction].
  exists a, w. repeat split.
Qed.

Lemma bind_lift {A B} (o : option A) (k : A -> M F G B) (w : World F G) :
  bind (lift o) k w = match o with Some a => k a w | None => (None, w) end.
Proof. reflexivity. Qed.

(** The shape of the three public methods: simulate when the client is
    not enabled; otherwise send one request, build the result from the
    document of a reply with status 200, and simulate when the status is
    another one or anything raises. *)
Lemma fetch_or_simulate {A O} `{PyFloat F} (enabled : bool)
  (extract : Json F -> option O) (obs : O -> A) (sim : M F G A)
  (P : A -> Prop) (w : World F G) :
  simulates sim P ->
  exists res w',
    (if negb enabled then sim
     else try_except
            (response <- http_request ;;
             match response with
             | NoResponse => raise
             | Response status_code json =>
                 if (status_code =? 200)%Z then
                   data <- lift json ;;
                   o <- lift (extract data) ;;
                   ret (obs o)
                 else sim
             end)
            sim) w = (Some res, w')
    /\ w_requests w' = (if enabled then S (w_requests w) else w_requests w)
    /\ ((enabled = true
         /\ exists data o,
              w_replies w (w_requests w) = Response 200 (Some data)
              /\ extract data = Some o /\ res = obs o)
        \/ (P res
            /\ forall data o,
                 enabled = true ->
                 w_replies w (w_requests w) = Response 200 (Some data) ->
                 extract data = Some o -> False)).
Proof.
  intros Hsim.
  assert (Hfall : forall w1 : World F G,
             exists res w', sim w1 = (Some res, w') /\ P res
                            /\ w_requests w' = w_requests w1).
  { intros w1. destruct (Hsim w1) as (a & w' & E & Pa & Hq & _).
    exists a, w'. repeat split; assumption. }
  destruct enabled; cbn [negb].
  - unfold try_except. unfold bind at 1. unfold http_request.
    destruct (w_replies w (w_requests w)) as [| code json] eqn:Ereply.
    + unfold raise.
      match goal with
      | |- context [sim ?u] => destruct (Hfall u) as (a & w' & E & Pa & Hq)
      end.
      exists a, w'. rewrite E. cbn [w_requests] in Hq.
      split; [reflexivity|]. split; [exact Hq|]. right.
      split; [exact Pa|]. intros data o _ Hd. discriminate Hd.
    + destruct (code =? 200) eqn:Ecode.
      * apply Z.eqb_eq in Ecode. subst code.
        destruct json as [data |].
        -- rewrite bind_lift, bind_lift.
           destruct (extract data) as [o |] eqn:Eo.
           ++ unfold ret. eexists _, _. split; [reflexivity|].
              split; [reflexivity|]. left. split; [reflexivity|].
              exists data, o. repeat split. exact Eo.
           ++ match goal with
              | |- context [sim ?u] =>
                  destruct (Hfall u) as (a & w' & E & Pa & Hq)
              end.
              exists a, w'. rewrite E. cbn [w_requests] in Hq.
              split; [reflexivity|]. split; [exact Hq|]. right.
              split; [exact Pa|]. intros data' o _ [= <-] Eo'. congruence.
        -- rewrite bind_lift.
           match goal with
           | |- context [sim ?u] =>
               destruct (Hfall u) as (a & w' & E & Pa & Hq)
           end.
           exists a, w'. rewrite E. cbn [w_requests] in Hq.
           split; [reflexivity|]. split; [exact Hq|]. right.
           split; [exact Pa|]. intros data' o _ Hd. discriminate Hd.
      * match goal with
        | |- context [sim ?u] =>
            destruct (Hfall u) as (a & w' & E & Pa & Hq)
        end.
        exists a, w'. rewrite E. cbn [w_requests] in Hq.
        split; [reflexivity|]. split; [exact Hq|]. right.
        split; [exact Pa|]. intros data' o _ [= Hc _] _.
        rewrite Hc in Ecode. discriminate Ecode.
  - destruct (Hfall w) as (a & w' & E & Pa & Hq).
    exists a, w'. split; [exact E|]. split; [exact Hq|]. right.
    split; [exact Pa|]. intros data o Hc. discriminate Hc.
Qed.
End SimulatesFacts.

Section WeatherClientFacts.
Context {F : Type} `{PyFloat F} `{PyBuiltins F}.
Context {G : Type} (random : RandomModule F G).
Context (choice : list string -> G -> string * G).
Context (fromtimestamp : F -> option F).

Lemma simulated_weather_simulates (latitude longitude : F) :
  simulates (_get_simulated_weather random latitude longitude)
    (fun s => weather_simulated s = true).
Proof.
  unfold _get_simulated_weather.
  apply (simulates_bind _ _ _ _ simulates_now). intros t _.
  apply (simulates_bind _ _ _ _ (simulates_reseed _)). intros _ _. cbv zeta.
  apply (simulates_bind _ _ (fun _ => True)); [now apply simulates_draw|].
  intros temp_variation _.
  apply (simulates_bind _ _ (fun _ => True)); [now apply simulates_draw|].
  intros weather_main _.
  apply (simulates_bind _ _ (fun _ => True)).
  { destruct (String.eqb weather_main "Rain"); [now apply simulates_draw|].
    destruct (String.eqb weather_main "Drizzle"); [now apply simulates_draw|].
    destruct (String.eqb weather_main "Thunderstorm");
      [now apply simulates_draw | now apply simulates_ret]. }
  intros precipitation _.
  do 7 (apply (simulates_bind _ _ (fun _ => True));
        [now apply simulates_draw | intros ? _]).
  apply (simulates_bind _ _ _ _ simulates_now). intros stamp _.
  apply simulates_ret. reflexivity.
Qed.

(** X11.  [get_current_weather] never raises.  A client that is not
    enabled sends no request; an enabled one sends exactly one.  The
    result is the provider's observation exactly when the client is
    enabled, the reply has status 200 and every field the code reads can
    be read from its document; in every other case it is a simulated
    record, marked as such. *)
Theorem current_weather_never_raises (self : WeatherAPI)
  (latitude longitude : F) (w : World F G) :
  exists res w',
    get_current_weather random fromtimestamp self latitude longitude w
    = (Some res, w')
    /\ w_requests w'
       = (if weather_enabled self then S (w_requests w) else w_requests w)
    /\ (forall o,
          res = Observed o
          <-> weather_enabled self = true
              /\ exists data,
                   w_replies w (w_requests w) = Response 200 (Some data)
                   /\ current_weather_data fromtimestamp data = Some o)
    /\ (forall s, res = Simulated s -> weather_simulated s = true).
Proof.
  pose proof (simulated_weather_simulates latitude longitude) as Hsim.
  assert (Hfall : forall w1 : World F G,
             exists s w',
               (s <- _get_simulated_weather random latitude longitude ;;
                ret (Simulated s)) w1 = (Some (Simulated s), w')
               /\ weather_simulated s = true
               /\ w_requests w' = w_requests w1).
  { intros w1. destruct (Hsim w1) as (s & w' & E & Hs & Hq & _).
    exists s, w'. unfold bind, ret. rewrite E. repeat split; assumption. }
  unfold get_current_weather. destruct (weather_enabled self); cbn [negb].
  - unfold try_except. unfold bind at 1. unfold http_request.
    destruct (w_replies w (w_requests w)) as [| code json] eqn:Ereply.
    + unfold raise.
      match goal with
      | |- context [bind _ _ ?u] =>
          destruct (Hfall u) as (s & w' & E & Hs & Hq)
      end.
      exists (Simulated s), w'. rewrite E. cbn [w_requests] in Hq.
      split; [reflexivity|]. split; [exact Hq|]. split.
      * intros o. split; [discriminate|].
        intros (_ & data & Hd & _). discriminate Hd.
      * intros s' [= <-]. exact Hs.
    + destruct (code =? 200) eqn:Ecode.
      * apply Z.eqb_eq in Ecode. subst code.
        destruct json as [data |].
        -- unfold bind at 1. unfold lift at 1. unfold bind at 1. unfold lift at 1.
           destruct (current_weather_data fromtimestamp data) as [o |] eqn:Eo.
           ++ unfold ret. eexists _, _. split; [reflexivity|].
              split; [reflexivity|]. split.
              ** intros o'. split.
                 --- intros [= <-]. split; [reflexivity|].
                     exists data. split; [reflexivity | exact Eo].
                 --- intros (_ & data' & [= <-] & Eo').
                     rewrite Eo in Eo'. injection Eo' as <-. reflexivity.
              ** discriminate.
           ++ match goal with
              | |- context [bind _ _ ?u] =>
                  destruct (Hfall u) as (s & w' & E & Hs & Hq)
              end.
              exists (Simulated s), w'. rewrite E. cbn [w_requests] in Hq.
              split; [reflexivity|]. split; [exact Hq|]. split.
              ** intros o. split; [discriminate|].
                 intros (_ & data' & [= <-] & Eo'). congruence.
              ** intros s' [= <-]. exact Hs.
        -- unfold bind at 1. unfold lift at 1.
           match goal with
           | |- context [bind _ _ ?u] =>
               destruct (Hfall u) as (s & w' & E & Hs & Hq)
           end.
           exists (Simulated s), w'. rewrite E. cbn [w_requests] in Hq.
           split; [reflexivity|]. split; [exact Hq|]. split.
           ** intros o. split; [discriminate|].
              intros (_ & data' & Hd & _). discriminate Hd.
           ** intros s' [= <-]. exact Hs.
      * match goal with
        | |- context [bind _ _ ?u] =>
            destruct (Hfall u) as (s & w' & E & Hs & Hq)
        end.
        exists (Simulated s), w'. rewrite E. cbn [w_requests] in Hq.
        split; [reflexivity|]. split; [exact Hq|]. split.
        -- intros o. split; [discriminate|].
           intros (_ & data' & [= Hc _] & _). rewrite Hc in Ecode.
           discriminate Ecode.
        -- intros s' [= <-]. exact Hs.
  - destruct (Hfall w) as (s & w' & E & Hs & Hq).
    exists (Simulated s), w'. rewrite E.
    split; [reflexivity|]. split; [exact Hq|]. split.
    + intros o. split; [discriminate|]. intros (Hc & _). discriminate Hc.
    + intros s' [= <-]. exact Hs.
Qed.

(** ** The forecast *)

Lemma slice_until_length {A} (k : Z) (l : list A) :
  0 <= k -> (List.length (slice_until k l) <= Z.to_nat k)%nat.
Proof.
  intros Hk. unfold slice_until.
  destruct (0 <=? k) eqn:E; [|apply Z.leb_gt in E; lia].
  rewrite length_firstn. lia.
Qed.

Lemma traverse_length {A B} (f : A -> option B) (l : list A) (l' : list B) :
  traverse f l = Some l' -> List.length l' = List.length l.
Proof.
  intros Ht. apply traverse_forall2 in Ht.
  induction Ht; cbn; congruence.
Qed.

Lemma forecast_data_length (days : Z) (data : Json F)
  (l : list (ForecastObservation F)) :
  forecast_data fromtimestamp days data = Some l -> 0 <= days ->
  (List.length l <= Z.to_nat (days * 8))%nat.
Proof.
  unfold forecast_data. intros Hl Hd. repeat step_obind Hl.
  apply traverse_length in Hl. rewrite Hl.
  assert (Hk : 0 <= days * 8) by lia.
  destruct j as [| | | s | items | kv]; try discriminate E0.
  - cbn in E0. injection E0 as <-. cbn in E1. injection E1 as <-.
    rewrite length_map, list_ascii_of_string_of_list_ascii.
    apply slice_until_length, Hk.
  - cbn in E0. injection E0 as <-. cbn in E1. injection E1 as <-.
    apply slice_until_length, Hk.
Qed.

Lemma simulated_forecast_loop_simulates (latitude longitude : F) :
  renders_all fromtimestamp ->
  forall (n : nat) (i : Z),
    simulates (simulated_forecast_loop random choice fromtimestamp
                 latitude longitude n i)
      (fun l => List.length l = n /\ Forall (fun p => fp_simulated p = true) l).
Proof.
  intros Hrender. induction n as [| n IH]; intros i.
  - cbn. apply simulates_ret. split; [reflexivity | constructor].
  - cbn [simulated_forecast_loop]. cbv zeta.
    apply (simulates_bind _ _ _ _ simulates_now). intros t _.
    apply (simulates_bind _ _ _ _ (simulates_reseed _)). intros _ _.
    apply (simulates_bind _ _ (fun _ => True)); [now apply simulates_draw|].
    intros temp_variation _.
    apply (simulates_bind _ _ _ _ (simulates_lift _ (Hrender _))).
    intros stamp _.
    do 5 (apply (simulates_bind _ _ (fun _ => True));
          [now apply simulates_draw | intros ? _]).
    apply (simulates_bind _ _ _ _ (IH (i + 1))). intros forecast [Hlen Hall].
    apply simulates_ret. cbn [List.length]. split; [congruence|].
    constructor; [reflexivity | exact Hall].
Qed.

Lemma agree_bind {A B} (related : G -> G -> Prop) (m1 m2 : M F G A)
  (k1 k2 : A -> M F G B) (R : A -> A -> Prop) (Q : B -> B -> Prop) :
  agree related m1 m2 R ->
  (forall a1 a2, R a1 a2 -> agree eq (k1 a1) (k2 a2) Q) ->
  agree related (bind m1 k1) (bind m2 k2) Q.
Proof.
  intros Hm Hk w1 w2 Hw.
  destruct (Hm w1 w2 Hw) as (a1 & a2 & v1 & v2 & E1 & E2 & HR & Hv).
  destruct (Hk a1 a2 HR v1 v2 Hv) as (b1 & b2 & u1 & u2 & F1 & F2 & HQ & Hu).
  exists b1, b2, u1, u2. unfold bind. rewrite E1, E2.
  split; [exact F1|]. split; [exact F2|]. split; assumption.
Qed.

Lemma agree_draw {A} (f : G -> A * G) :
  agree eq (draw (F := F) f) (draw (F := F) f) eq.
Proof.
  intros w1 w2 Hw. unfold draw. rewrite <- Hw.
  destruct (f (w_random w1)) as [a g]. eexists _, _, _, _.
  split; [reflexivity|]. split; [reflexivity|]. split; reflexivity.
Qed.

Lemma agree_lift {A} (o1 o2 : option A) :
  o1 <> None -> o2 <> None ->
  agree eq (lift (F := F) (G := G) o1) (lift o2) (fun _ _ => True).
Proof.
  intros H1 H2 w1 w2 Hw.
  destruct o1 as [a1 |]; [|contradiction].
  destruct o2 as [a2 |]; [|contradiction].
  exists a1, a2, w1, w2. repeat split. exact Hw.
Qed.

Lemma agree_ret {A} (a1 a2 : A) (R : A -> A -> Prop) :
  R a1 a2 -> agree eq (ret (F := F) (G := G) a1) (ret a2) R.
Proof. intros HR w1 w2 Hw. exists a1, a2, w1, w2. repeat split; assumption. Qed.

(** [datetime.now()] and then [random.seed(g)]: whatever the generator
    was doing, and whatever the time, the runs go on from the state [g]. *)
Lemma agree_now_reseed {A} (g : G) (body1 body2 : F -> M F G A)
  (R : A -> A -> Prop) :
  (forall t1 t2, agree eq (body1 t1) (body2 t2) R) ->
  agree (fun _ _ => True)
    (t <- now ;; reseed g ;;; body1 t) (t <- now ;; reseed g ;;; body2 t) R.
Proof.
  intros Hbody w1 w2 _. unfold bind, now, reseed. apply Hbody. reflexivity.
Qed.

Lemma agree_weaken {A} (m1 m2 : M F G A) (R : A -> A -> Prop) :
  agree (fun _ _ => True) m1 m2 R -> agree eq m1 m2 R.
Proof. intros Hm w1 w2 _. apply Hm. exact I. Qed.

Lemma simulated_forecast_iteration (latitude longitude : F) (n : nat) (i : Z) :
  renders_all fromtimestamp ->
  agree eq
    (simulated_forecast_loop random choice fromtimestamp
       latitude longitude n (i + 1))
    (simulated_forecast_loop random choice fromtimestamp
       latitude longitude n (i + 1))
    (Forall2 same_but_datetime) ->
  agree (fun _ _ => True)
    (simulated_forecast_loop random choice fromtimestamp
       latitude longitude (S n) i)
    (simulated_forecast_loop random choice fromtimestamp
       latitude longitude (S n) i)
    (Forall2 same_but_datetime).
Proof.
  intros Hrender IH. cbn [simulated_forecast_loop]. cbv zeta.
  apply agree_now_reseed. intros t1 t2.
  apply (agree_bind _ _ _ _ _ eq); [apply agree_draw|].
  intros temp_variation ? <-.
  apply (agree_bind _ _ _ _ _ (fun _ _ => True));
    [apply agree_lift; apply Hrender|].
  intros stamp1 stamp2 _.
  do 5 (apply (agree_bind _ _ _ _ _ eq); [apply agree_draw | intros ? ? <-]).
  apply (agree_bind _ _ _ _ _ (Forall2 same_but_datetime)); [exact IH|].
  intros l1 l2 Hsame. apply agree_ret.
  constructor; [repeat split | exact Hsame].
Qed.

Lemma simulated_forecast_loop_agrees (latitude longitude : F) :
  renders_all fromtimestamp ->
  forall (n : nat) (i : Z),
    agree eq
      (simulated_forecast_loop random choice fromtimestamp
         latitude longitude n i)
      (simulated_forecast_loop random choice fromtimestamp
         latitude longitude n i)
      (Forall2 same_but_datetime).
Proof.
  intros Hrender. induction n as [| n IH]; intros i.
  - cbn [simulated_forecast_loop]. apply agree_ret. constructor.
  - apply agree_weaken, simulated_forecast_iteration; [exact Hrender | apply IH].
Qed.



(** ** The air quality *)

(** X14.  [get_air_quality] never raises.  A client that is not enabled
    sends no request, an enabled one exactly one.  The result is the
    provider's exactly when the client is enabled, the reply has status
    200 and the six values can be read from the first entry of its list;
    in every other case it is a simulated one, marked as such. *)
Theorem air_quality_never_raises (self : WeatherAPI) (latitude longitude : F)
  (w : World F G) :
  exists res w',
    get_air_quality random self latitude longitude w = (Some res, w')
    /\ w_requests w'
       = (if weather_enabled self then S (w_requests w) else w_requests w)
    /\ (forall o,
          res = ObservedAir o
          <-> weather_enabled self = true
              /\ exists data,
                   w_replies w (w_requests w) = Response 200 (Some data)
                   /\ air_quality_data data = Some o)
    /\ (forall s, res = SimulatedAir s -> as_simulated s = true).
Proof.
  unfold get_air_quality.
  destruct (fetch_or_simulate (weather_enabled self)
              air_quality_data ObservedAir
              (s <- _get_simulated_air_quality random ;; ret (SimulatedAir s))
              (fun res => exists s,
                   res = SimulatedAir s /\ as_simulated s = true) w)
    as (res & w' & E & Hq & Hres).
  { apply (simulates_bind _ _ (fun s => as_simulated s = true)).
    - unfold _get_simulated_air_quality.
      do 6 (apply (simulates_bind _ _ (fun _ => True));
            [now apply simulates_draw | intros ? _]).
      apply simulates_ret. reflexivity.
    - intros s Hs. apply simulates_ret. exists s. split; [reflexivity | exact Hs]. }
  exists res, w'. split; [exact E|]. split; [exact Hq|].
  destruct Hres as [(Hen & data & o & Hreply & Hdata & ->)
                   | ((s & -> & Hs) & Hnot)].
  - split.
    + intros o'. split.
      * intros [= <-]. split; [exact Hen|]. exists data. split; assumption.
      * intros (_ & data' & Hreply' & Hdata').
        rewrite Hreply in Hreply'. injection Hreply' as <-.
        rewrite Hdata in Hdata'. injection Hdata' as <-. reflexivity.
    + discriminate.
  - split.
    + intros o. split; [discriminate|].
      intros (Hen & data & Hreply & Hdata).
      destruct (Hnot data o Hen Hreply Hdata).
    + intros s' [= <-]. exact Hs.
Qed.
End WeatherClientFacts.



(** ** The ranges of the simulated weather *)

Lemma lcg_randint_in_range : randint_in_range (F := Q) lcg.
Proof.
  intros a b g Hab. cbn [randint lcg].
  unfold lcg_random. cbn [fst].
  pose proof (Z.mod_pos_bound (g * 1103515245 + 12345) 2147483648 ltac:(lia)) as Hm.
  fold (lcg_next g) in Hm.
  set (r := Qred (inject_Z (lcg_next g) / 2147483648)).
  assert (Hr : (0 <= r /\ r < 1)%Q).
  { unfold r. rewrite !Qred_correct. split.
    - apply Qle_shift_div_l; [reflexivity|]. rewrite Qmult_0_l.
      change 0%Q with (inject_Z 0). rewrite <- Zle_Qle. lia.
    - apply Qlt_shift_div_r; [reflexivity|]. rewrite Qmult_1_l.
      change 2147483648%Q with (inject_Z 2147483648). rewrite <- Zlt_Qlt. lia. }
  clearbody r. destruct Hr as [Hr0 Hr1].
  set (n := b - a + 1). assert (Hn : 1 <= n) by (unfold n; lia).
  assert (Hq : (1 <= inject_Z n)%Q)
    by (change 1%Q with (inject_Z 1); rewrite <- Zle_Qle; exact Hn).
  assert (Hlo : 0 <= Qfloor (r * inject_Z n)).
  { change 0 with (Qfloor 0). apply Qfloor_resp_le.
    apply Qmult_le_0_compat; [exact Hr0|].
    apply Qle_trans with 1%Q; [discriminate | exact Hq]. }
  assert (Hhi : Qfloor (r * inject_Z n) < n).
  { rewrite Zlt_Qlt.
    apply Qle_lt_trans with (r * inject_Z n)%Q; [apply Qfloor_le|].
    rewrite <- (Qmult_1_l (inject_Z n)) at 2.
    apply Qmult_lt_compat_r; [|exact Hr1].
    apply Qlt_le_trans with 1%Q; [reflexivity | exact Hq]. }
  subst n. set (k := Qfloor (r * inject_Z (b - a + 1))) in *. lia.
Qed.

Lemma round_in_range (lo hi x : Q) :
  (Qround_digits lo 1 == lo)%Q -> (Qround_digits hi 1 == hi)%Q ->
  (lo <= x <= hi)%Q -> (lo <= Qround_digits x 1 <= hi)%Q.
Proof.
  intros Hlo Hhi [Hl Hh]. split.
  - apply Qle_trans with (Qround_digits lo 1).
    + rewrite Hlo. apply Qle_refl.
    + apply Qround_digits_mono, Hl.
  - apply Qle_trans with (Qround_digits hi 1).
    + apply Qround_digits_mono, Hh.
    + rewrite Hhi. apply Qle_refl.
Qed.

Lemma precipitation_rounded (weather_main : string) (p : Q) :
  precipitation_for weather_main p ->
  precipitation_for weather_main (Qround_digits p 1).
Proof.
  unfold precipitation_for.
  destruct (String.eqb weather_main "Rain");
    [apply round_in_range; vm_compute; reflexivity|].
  destruct (String.eqb weather_main "Drizzle");
    [apply round_in_range; vm_compute; reflexivity|].
  destruct (String.eqb weather_main "Thunderstorm");
    [apply round_in_range; vm_compute; reflexivity|].
  intros Hp.
  assert (Hb : (0 <= Qround_digits p 1 <= 0)%Q).
  { apply round_in_range; [vm_compute; reflexivity ..|].
    split; rewrite Hp; apply Qle_refl. }
  apply Qle_antisym; apply Hb.
Qed.

Lemma rounded_close (x : Q) :
  (x - (1 # 20) <= Qround_digits x 1 <= x + (1 # 20))%Q.
Proof.
  pose proof (Qround_digits_close x 1) as Hc.
  change ((1 # 2) / inject_Z (10 ^ Z.of_nat 1))%Q with ((1 # 2) / 10)%Q in Hc.
  apply Qabs_Qle_condition in Hc. destruct Hc as [Hlo Hhi].
  set (r := Qround_digits x 1) in *. clearbody r.
  unfold Qdiv in Hlo, Hhi. change (/ 10)%Q with (1 # 10)%Q in Hlo, Hhi.
  split; lra.
Qed.

Section SimulatedWeatherRanges.
Context {G : Type} (random : RandomModule Q G).
Hypothesis uniform_documented : uniform_in_range random.
Hypothesis randint_documented : randint_in_range random.

Lemma uniform_simulates (a b lo hi : Q) :
  (a <= b)%Q -> (lo <= a)%Q -> (b <= hi)%Q ->
  simulates (draw (F := Q) (uniform random a b)) (fun x => (lo <= x <= hi)%Q).
Proof.
  intros Hab Hlo Hhi. apply simulates_draw. intros g.
  destruct (uniform_documented a b g Hab) as [H1 H2]. split.
  - apply Qle_trans with a; assumption.
  - apply Qle_trans with b; assumption.
Qed.

Lemma randint_simulates (a b : Z) :
  a <= b ->
  simulates (draw (F := Q) (randint random a b)) (fun n => a <= n <= b).
Proof.
  intros Hab. apply simulates_draw. intros g.
  apply (randint_documented a b g Hab).
Qed.

Lemma simulated_weather_plausible (latitude longitude : Q) :
  simulates (_get_simulated_weather random latitude longitude)
    (plausible_weather latitude).
Proof.
  unfold _get_simulated_weather.
  apply (simulates_bind _ _ _ _ simulates_now). intros t _.
  apply (simulates_bind _ _ _ _ (simulates_reseed _)). intros _ _. cbv zeta.
  apply (simulates_bind _ _ (fun x => (-5 <= x <= 5)%Q));
    [apply uniform_simulates; vm_compute; discriminate|].
  intros temp_variation Htemp.
  apply (simulates_bind _ _ (fun _ => True)); [now apply simulates_draw|].
  intros main _.
  apply (simulates_bind _ _ (precipitation_for main)).
  { unfold precipitation_for.
    destruct (String.eqb main "Rain");
      [apply uniform_simulates; vm_compute; discriminate|].
    destruct (String.eqb main "Drizzle");
      [apply uniform_simulates; vm_compute; discriminate|].
    destruct (String.eqb main "Thunderstorm");
      [apply uniform_simulates; vm_compute; discriminate|].
    apply simulates_ret. reflexivity. }
  intros rain Hrain.
  apply (simulates_bind _ _ (fun x => (-2 <= x <= 2)%Q));
    [apply uniform_simulates; vm_compute; discriminate|].
  intros feels Hfeels.
  apply (simulates_bind _ _ _ _ (randint_simulates 40 90 ltac:(lia))).
  intros hum Hhumidity.
  apply (simulates_bind _ _ _ _ (randint_simulates 1000 1025 ltac:(lia))).
  intros pres Hpressure.
  apply (simulates_bind _ _ (fun x => (0 <= x <= 20)%Q));
    [apply uniform_simulates; vm_compute; discriminate|].
  intros wind Hwind.
  apply (simulates_bind _ _ _ _ (randint_simulates 0 360 ltac:(lia))).
  intros direction Hdirection.
  apply (simulates_bind _ _ _ _ (randint_simulates 0 100 ltac:(lia))).
  intros clouds Hcloudiness.
  apply (simulates_bind _ _ _ _ (randint_simulates 5000 10000 ltac:(lia))).
  intros vis Hvisibility.
  apply (simulates_bind _ _ _ _ simulates_now). intros stamp _.
  apply simulates_ret. unfold plausible_weather.
  cbn [temperature feels_like humidity pressure wind_speed wind_direction
       cloudiness precipitation weather_main weather_description visibility
       weather_simulated].
  change (py_round (F := Q)) with Qround_digits.
  change (lit 4 1) with (4 # 10)%Q.
  change (fadd (F := Q)) with Qplus. change (fsub (F := Q)) with Qminus.
  change (fmul (F := Q)) with Qmult. change (of_int (F := Q) 25) with 25%Q.
  change (py_abs (F := Q)) with Qabs.
  set (a := Qabs latitude).
  pose proof (rounded_close (25 - a * (4 # 10) + temp_variation)) as Ht.
  pose proof (rounded_close (25 - a * (4 # 10) + temp_variation + feels)) as Hf.
  set (x := Qround_digits (25 - a * (4 # 10) + temp_variation) 1) in *.
  set (y := Qround_digits (25 - a * (4 # 10) + temp_variation + feels) 1) in *.
  clearbody x y a.
  split; [apply Qabs_Qle_condition; split; lra|].
  split; [apply Qabs_Qle_condition; split; lra|].
  split; [exact Hhumidity|]. split; [exact Hpressure|].
  split; [apply round_in_range; [vm_compute; reflexivity .. | exact Hwind]|].
  split; [exact Hdirection|]. split; [exact Hcloudiness|].
  split; [apply precipitation_rounded, Hrain|].
  split; [reflexivity|]. split; [exact Hvisibility | reflexivity].
Qed.
End SimulatedWeatherRanges.

(** X15.  With [random.uniform] and [random.randint] within their
    bounds, as the library documents them, a simulated weather record
    stays in range: the temperature within 5.05 degrees of
    [25 - 0.4 * |latitude|], the felt temperature within 2.1 of it,
    humidity 40 to 90, pressure 1000 to 1025, wind speed 0 to 20, wind
    direction 0 to 360 (both ends can occur), cloudiness 0 to 100,
    visibility 5000 to 10000; the precipitation is 2 to 15 for 'Rain',
    0.5 to 2 for 'Drizzle', 10 to 30 for 'Thunderstorm' and zero for any
    other weather; the description is the weather in lower case.  No
    request is sent. *)
Theorem simulated_weather_ranges {G : Type} (random : RandomModule Q G)
  (latitude longitude : Q) (w : World Q G) :
  uniform_in_range random -> randint_in_range random ->
  exists r w',
    _get_simulated_weather random latitude longitude w = (Some r, w')
    /\ plausible_weather latitude r
    /\ w_requests w' = w_requests w.
Proof.
  intros Hu Hr.
  destruct (simulated_weather_plausible random Hu Hr latitude longitude w)
    as (r & w' & E & Hp & Hq & _).
  exists r, w'. split; [exact E|]. split; [exact Hp | exact Hq].
Qed.

Lemma simulated_weather_ranges_witness :
  exists r w',
    _get_simulated_weather lcg (fst lagos) (snd lagos) midnight = (Some r, w')
    /\ plausible_weather (fst lagos) r
    /\ w_requests w' = w_requests midnight.
Proof.
  apply (simulated_weather_ranges lcg (fst lagos) (snd lagos) midnight).
  - exact lcg_uniform_in_range.
  - exact lcg_randint_in_range.
Defined.

(** * The configuration of the three clients *)

(** X16.  An empty key passed to a constructor counts as no key: the
    environment decides.  An environment variable that is set but empty
    enables the routing client and the weather client, which go on to
    send requests with an empty key; the geocoder alone takes an empty
    key for no key and keeps to Nominatim. *)
Theorem empty_environment_keys (getenv : string -> option string) :
  (forall name, getenv name = Some ""%string) ->
  (forall service,
      RoutingAPI_init service (Some ""%string) getenv
      = RoutingAPI_init service None getenv)
  /\ WeatherAPI_init (Some ""%string) getenv = WeatherAPI_init None getenv
  /\ GeocodingAPI_init (Some ""%string) (Some ""%string) getenv
     = GeocodingAPI_init None None getenv
  /\ enabled (RoutingAPI_init "google" None getenv) = true
  /\ enabled (RoutingAPI_init "openroute" None getenv) = true
  /\ weather_enabled (WeatherAPI_init None getenv) = true
  /\ google_enabled (GeocodingAPI_init None None getenv) = false
  /\ opencage_enabled (GeocodingAPI_init None None getenv) = false.
Proof.
  intros Henv.
  split; [intros service; reflexivity|].
  split; [reflexivity|]. split; [reflexivity|].
  unfold RoutingAPI_init, WeatherAPI_init, GeocodingAPI_init, key_or_env.
  cbn [enabled weather_enabled google_enabled opencage_enabled String.eqb
       Ascii.eqb Bool.eqb].
  rewrite !Henv. repeat split.
Qed.

Lemma empty_environment_keys_witness :
  (forall service,
      RoutingAPI_init service (Some ""%string) empty_environment
      = RoutingAPI_init service None empty_environment)
  /\ WeatherAPI_init (Some ""%string) empty_environment
     = WeatherAPI_init None empty_environment
  /\ GeocodingAPI_init (Some ""%string) (Some ""%string) empty_environment
     = GeocodingAPI_init None None empty_environment
  /\ enabled (RoutingAPI_init "google" None empty_environment) = true
  /\ enabled (RoutingAPI_init "openroute" None empty_environment) = true
  /\ weather_enabled (WeatherAPI_init None empty_environment) = true
  /\ google_enabled (GeocodingAPI_init None None empty_environment) = false
  /\ opencage_enabled (GeocodingAPI_init None None empty_environment) = false.
Proof.
  apply (empty_environment_keys empty_environment).
  intros name. reflexivity.
Defined.
